(** * EverArt Forge MCP server: generation-and-materialization pipeline

    A shallow embedding of the server's TypeScript source: the
    validation of a [generate_image] request, the two retry loops (job
    submission and artifact fetch), the resolution of the destination
    path, the format conversion and write, and the [view_image] tool;
    then the rest of the server: the two resource handlers, the
    [list_images] tool and the dispatch of tool calls.

    Conventions of the embedding.
    - A JavaScript string is held as its UTF-8 bytes ([string]).
      Where the code counts or cuts UTF-16 code units of a text that
      need not be ASCII (the prompt), the units are counted on the
      bytes ([Js.units]); [trim] strips the white space and line
      terminators of ECMAScript, ASCII or not.  Searching, comparing
      and cutting at a found prefix or suffix are the same on bytes
      and on code units.
    - [toLowerCase] and [toUpperCase] act on the ASCII letters.  This
      is exact wherever the result is compared with the words of the
      code (formats, extensions, project types: no other character
      lower-cases to their letters) or is ASCII already (the sanitised
      prompt).  For the suggestions of [view_image], which lower-case
      file names of any script, the case mapping of a text that is not
      ASCII is an answer of the environment ([lower_other]).
    - JavaScript numbers that the code uses as integers are [Z]; a
      number computed from text ([parseInt] and its product) is the
      double nearest to the exact value, an [option Z] where [None]
      stands for NaN and the infinities.
    - The arguments bag of a tool call has the types its input schema
      declares (strings, an integer count); an absent property is
      [None].  A call without arguments object or with a property of
      another type is outside the embedding: there a case can throw a
      [TypeError], which its [catch] answers as an Unknown failure.
    - Everything outside the process (clock, file system, generation
      service, HTTP, viewer, image codecs) is an environment [Env] of
      scripted answers; the code's calls to it are recorded, in order,
      in the [trace] of the [World] it runs in. *)

From Stdlib Require Import ZArith List Bool Lia Ascii String.
From stdpp Require Import gmap strings pretty.

Open Scope string_scope.
Open Scope Z_scope.

(** ** JavaScript strings *)

Module Js.

Definition dquote : string := String (ascii_of_nat 34) "".
Definition nl : string := String (ascii_of_nat 10) "".

Definition is_upper (c : ascii) : bool :=
  ((65 <=? nat_of_ascii c) && (nat_of_ascii c <=? 90))%nat.
Definition is_lower (c : ascii) : bool :=
  ((97 <=? nat_of_ascii c) && (nat_of_ascii c <=? 122))%nat.
Definition is_digit (c : ascii) : bool :=
  ((48 <=? nat_of_ascii c) && (nat_of_ascii c <=? 57))%nat.

Definition lower_char (c : ascii) : ascii :=
  if is_upper c then ascii_of_nat (nat_of_ascii c + 32) else c.
Definition upper_char (c : ascii) : ascii :=
  if is_lower c then ascii_of_nat (nat_of_ascii c - 32) else c.

Fixpoint map_chars (f : ascii -> ascii) (s : string) : string :=
  match s with
  | "" => ""
  | String c t => String (f c) (map_chars f t)
  end.

(** [s.toLowerCase()], [s.toUpperCase()] *)
Definition toLowerCase : string -> string := map_chars lower_char.
Definition toUpperCase : string -> string := map_chars upper_char.

(** Every character is one byte, hence ASCII. *)
Fixpoint ascii_only (s : string) : bool :=
  match s with
  | "" => true
  | String c t => (nat_of_ascii c <? 128)%nat && ascii_only t
  end.

(** [hay.startsWith(needle)] *)
Definition startsWith (hay needle : string) : bool := String.prefix needle hay.

(** [hay.includes(needle)] *)
Fixpoint includes (hay needle : string) : bool :=
  String.prefix needle hay ||
  match hay with
  | "" => false
  | String _ t => includes t needle
  end.

(** [s.slice(0, n)] for [0 <= n] *)
Fixpoint take (n : nat) (s : string) : string :=
  match n, s with
  | S k, String c t => String c (take k t)
  | _, _ => ""
  end.

(** [s.slice(n)] for [0 <= n] *)
Fixpoint drop (n : nat) (s : string) : string :=
  match n, s with
  | S k, String _ t => drop k t
  | _, _ => s
  end.

(** [s.slice(0, -n)] for [0 < n]: all but the last [n] code units. *)
Definition dropEnd (n : nat) (s : string) : string :=
  take (String.length s - n) s.

(** The white space [trim] and [parseInt] strip: the WhiteSpace and
    LineTerminator code points of ECMAScript.  The ASCII ones are
    U+0009 to U+000D and U+0020; the others, in UTF-8, are U+00A0
    (C2 A0), U+1680 (E1 9A 80), U+2000 to U+200A, U+2028, U+2029 and
    U+202F (E2 80 80 to 8A, A8, A9, AF), U+205F (E2 81 9F), U+3000
    (E3 80 80) and U+FEFF (EF BB BF). *)
Definition space2 (a b : ascii) : bool :=
  ((nat_of_ascii a =? 194) && (nat_of_ascii b =? 160))%nat.

Definition space3 (a b c : ascii) : bool :=
  let x := nat_of_ascii a in
  let y := nat_of_ascii b in
  let z := nat_of_ascii c in
  ((x =? 225) && (y =? 154) && (z =? 128)
   || (x =? 226) && (y =? 128)
      && ((128 <=? z) && (z <=? 138) || (z =? 168) || (z =? 169) || (z =? 175))
   || (x =? 226) && (y =? 129) && (z =? 159)
   || (x =? 227) && (y =? 128) && (z =? 128)
   || (x =? 239) && (y =? 187) && (z =? 191))%nat.

(** The string without the white space it starts with; [backwards]
    when the string is read from its end (the bytes of a character
    then come last first). *)
Fixpoint strip (backwards : bool) (s : string) : string :=
  match s with
  | String a t =>
      if Ascii.is_space a then strip backwards t
      else
        match t with
        | String b t2 =>
            if (if backwards then space2 b a else space2 a b) then strip backwards t2
            else
              match t2 with
              | String c t3 =>
                  if (if backwards then space3 c b a else space3 a b c)
                  then strip backwards t3
                  else s
              | "" => s
              end
        | "" => s
        end
  | "" => ""
  end.

Definition trimStart (s : string) : string := strip false s.

(** [s.trim()] *)
Definition trim (s : string) : string :=
  String.rev (strip true (String.rev (trimStart s))).

(** The UTF-16 code units of a string, read off its UTF-8 bytes: an
    ASCII byte is the unit itself; of any other character only the
    number of its units is kept ([None] for each): one for a sequence
    of two or three bytes, two (a surrogate pair) for one of four.
    The units are given at the leading byte, the continuation bytes
    (80 to BF) give none. *)
Definition units_of_byte (c : ascii) : list (option ascii) :=
  let n := nat_of_ascii c in
  if (n <? 128)%nat then [Some c]
  else if (n <? 192)%nat then []
  else if (n <? 240)%nat then [None]
  else [None; None].

Fixpoint units (s : string) : list (option ascii) :=
  match s with
  | "" => []
  | String c t => (units_of_byte c ++ units t)%list
  end.

Fixpoint of_chars (l : list ascii) : string :=
  match l with
  | [] => ""
  | c :: t => String c (of_chars t)
  end.

(** [s.split(sep)[0]]: the part of [s] before the first [sep]. *)
Fixpoint before (sep : ascii) (s : string) : string :=
  match s with
  | "" => ""
  | String c t => if Ascii.eqb c sep then "" else String c (before sep t)
  end.

(** [s.includes(c)] for a one-character needle. *)
Fixpoint has_char (sep : ascii) (s : string) : bool :=
  match s with
  | "" => false
  | String c t => Ascii.eqb c sep || has_char sep t
  end.

(** [s.split(sep).pop()]: the part of [s] after the last [sep]. *)
Fixpoint afterLast (sep : ascii) (s : string) : string :=
  match s with
  | "" => ""
  | String c t =>
      if has_char sep t then afterLast sep t
      else if Ascii.eqb c sep then t else s
  end.

(** [list.includes(x)] on an array of strings. *)
Definition arr_includes (l : list string) (x : string) : bool :=
  existsb (String.eqb x) l.

(** [list.join(sep)] *)
Fixpoint join (sep : string) (l : list string) : string :=
  match l with
  | [] => ""
  | [x] => x
  | x :: t => x +:+ sep +:+ join sep t
  end.

(** Truthiness of an optional string: absent and [""] are falsy. *)
Definition truthy (o : option string) : option string :=
  match o with
  | Some "" => None
  | _ => o
  end.

(** [a || b] on strings. *)
Definition or_else (o : option string) (d : string) : string :=
  match truthy o with
  | Some s => s
  | None => d
  end.

(** The double nearest to a natural number [z], ties going to the even
    significand (53 bits); it is an integer again. *)
Definition round53 (z : Z) : Z :=
  let n := Z.log2 z in
  if n <? 53 then z
  else
    let sh := n - 52 in
    let q := Z.shiftr z sh in
    let rest := z - Z.shiftl q sh in
    let half := Z.shiftl 1 (sh - 1) in
    let q := if (half <? rest) || ((rest =? half) && Z.odd q) then q + 1 else q in
    Z.shiftl q sh.

(** The Number that stands for the integer [z]: [None] when it is an
    infinity. *)
Definition toNumber (z : Z) : option Z :=
  let m := round53 (Z.abs z) in
  if m <? 2 ^ 1024 then Some (Z.sgn z * m) else None.

(** [parseInt(s, 10)]: leading white space, an optional sign, then the
    longest run of decimal digits, whose value is taken as a Number;
    NaN when there is no digit. *)
Fixpoint digits (acc : Z) (seen : bool) (s : string) : option Z :=
  match s with
  | String c t =>
      if is_digit c
      then digits (10 * acc + Z.of_nat (nat_of_ascii c - 48)) true t
      else if seen then Some acc else None
  | "" => if seen then Some acc else None
  end.

Definition parseInt10 (s : string) : option Z :=
  let mathInt :=
    match trimStart s with
    | String "-" t => option_map Z.opp (digits 0 false t)
    | String "+" t => digits 0 false t
    | t => digits 0 false t
    end in
  match mathInt with
  | Some z => toNumber z
  | None => None
  end.

(** [x * y] on Numbers that are integers. *)
Definition times (x : option Z) (y : Z) : option Z :=
  match x with
  | Some x => toNumber (x * y)
  | None => None
  end.

End Js.

(** ** Node's [path] module (POSIX flavour) *)

Module Path.

Definition slash : ascii := "/"%char.
Definition dot : ascii := "."%char.

(** The loop state of [path.extname]; positions are string indices,
    [-1] meaning "not seen yet". *)
Record ExtScan := {
  startDot : Z;
  startPart : Z;
  end_ : Z;
  matchedSlash : bool;
  preDotState : Z;
  stopped : bool
}.

Definition scan0 : ExtScan :=
  {| startDot := -1; startPart := 0; end_ := -1;
     matchedSlash := true; preDotState := 0; stopped := false |}.

(** One iteration of the loop [for (i = path.length - 1; i >= 0; --i)]
    of [extname], at index [i] holding [code]. *)
Definition scan_step (i : Z) (code : ascii) (st : ExtScan) : ExtScan :=
  if stopped st then st else
  if Ascii.eqb code slash then
    if negb (matchedSlash st)
    then {| startDot := startDot st; startPart := i + 1; end_ := end_ st;
            matchedSlash := matchedSlash st; preDotState := preDotState st;
            stopped := true |}
    else st
  else
    let st1 :=
      if end_ st =? -1
      then {| startDot := startDot st; startPart := startPart st; end_ := i + 1;
              matchedSlash := false; preDotState := preDotState st;
              stopped := false |}
      else st in
    if Ascii.eqb code dot then
      if startDot st1 =? -1
      then {| startDot := i; startPart := startPart st1; end_ := end_ st1;
              matchedSlash := matchedSlash st1; preDotState := preDotState st1;
              stopped := false |}
      else if negb (preDotState st1 =? 1)
      then {| startDot := startDot st1; startPart := startPart st1; end_ := end_ st1;
              matchedSlash := matchedSlash st1; preDotState := 1;
              stopped := false |}
      else st1
    else if negb (startDot st1 =? -1)
    then {| startDot := startDot st1; startPart := startPart st1; end_ := end_ st1;
            matchedSlash := matchedSlash st1; preDotState := -1;
            stopped := false |}
    else st1.

(** The loop, from the last character of the path down to the first:
    [rev_chars] is the path reversed and [i] the index of its head. *)
Fixpoint scan (rev_chars : string) (i : Z) (st : ExtScan) : ExtScan :=
  match rev_chars with
  | "" => st
  | String c t => scan t (i - 1) (scan_step i c st)
  end.

(** [path.extname(p)] *)
Definition extname (p : string) : string :=
  let st := scan (String.rev p) (Z.of_nat (String.length p) - 1) scan0 in
  if (startDot st =? -1) || (end_ st =? -1) || (preDotState st =? 0) ||
     ((preDotState st =? 1) && (startDot st =? end_ st - 1)
        && (startDot st =? startPart st + 1))
  then ""
  else Js.take (Z.to_nat (end_ st - startDot st)) (Js.drop (Z.to_nat (startDot st)) p).

(** The components of a path, cut at every separator. *)
Fixpoint segments (p : string) : list string :=
  match p with
  | "" => [""]
  | String c t =>
      if Ascii.eqb c slash then "" :: segments t
      else match segments t with
           | s :: rest => String c s :: rest
           | [] => [String c ""]
           end
  end.

(** The loop of [normalizeString] over the components, [stack] holding
    the components kept so far, last first: an empty component and
    ["."] are dropped, [".."] removes the component before it (above
    the start it is kept when [allowAboveRoot], dropped otherwise). *)
Fixpoint norm_stack (allowAboveRoot : bool) (segs stack : list string) : list string :=
  match segs with
  | [] => stack
  | s :: rest =>
      if String.eqb s "" || String.eqb s "." then norm_stack allowAboveRoot rest stack
      else if String.eqb s ".." then
        match stack with
        | top :: below =>
            if String.eqb top ".." then
              norm_stack allowAboveRoot rest
                (if allowAboveRoot then ".." :: stack else stack)
            else norm_stack allowAboveRoot rest below
        | [] =>
            norm_stack allowAboveRoot rest (if allowAboveRoot then [".."] else [])
        end
      else norm_stack allowAboveRoot rest (s :: stack)
  end.

Definition normalizeString (p : string) (allowAboveRoot : bool) : string :=
  Js.join "/" (rev (norm_stack allowAboveRoot (segments p) [])).

Definition isAbsolute (p : string) : bool := Js.startsWith p "/".

Fixpoint trailingSeparator (p : string) : bool :=
  match p with
  | "" => false
  | String c "" => Ascii.eqb c slash
  | String _ t => trailingSeparator t
  end.

(** [path.normalize(p)] *)
Definition normalize (p : string) : string :=
  if String.eqb p "" then "."
  else
    let n := normalizeString p (negb (isAbsolute p)) in
    if String.eqb n "" then
      if isAbsolute p then "/" else if trailingSeparator p then "./" else "."
    else
      (if isAbsolute p then "/" else "") +:+ n
        +:+ (if trailingSeparator p then "/" else "").

(** [path.join(a, b)]: the non-empty arguments, put together with a
    separator and normalised. *)
Definition join (a b : string) : string :=
  if String.eqb a "" then
    if String.eqb b "" then "." else normalize b
  else if String.eqb b "" then normalize a
  else normalize (a +:+ "/" +:+ b).

(** The loop [for (i = path.length - 1; i >= 1; --i)] of
    [path.dirname]: the value of [end] when it is left. *)
Fixpoint dirname_scan (rev_chars : string) (i : Z) (matchedSlash : bool) : Z :=
  match rev_chars with
  | "" => -1
  | String c t =>
      if i <? 1 then -1
      else if Ascii.eqb c slash then
        if negb matchedSlash then i else dirname_scan t (i - 1) matchedSlash
      else dirname_scan t (i - 1) false
  end.

(** [path.dirname(p)] *)
Definition dirname (p : string) : string :=
  if String.eqb p "" then "."
  else
    let hasRoot := Js.startsWith p "/" in
    let e := dirname_scan (String.rev p) (Z.of_nat (String.length p) - 1) true in
    if e =? -1 then (if hasRoot then "/" else ".")
    else if hasRoot && (e =? 1) then "//"
    else Js.take (Z.to_nat e) p.

End Path.


(** ** Values crossing the process boundary *)

(** What a [throw] carries (what a rejected promise is rejected with). *)
Inductive thrown :=
| JsError (message : string)
    (** an [Error] instance *)
| JsErrno (code message : string)
    (** an [Error] instance with a [code] property, as [fs] raises *)
| JsValue.
    (** any value that is not an [Error] *)

(** [error instanceof Error] *)
Definition is_Error (e : thrown) : bool :=
  match e with
  | JsValue => false
  | _ => true
  end.

(** [(error as Error).message] inside a template string *)
Definition message_of (e : thrown) : string :=
  match e with
  | JsError m => m
  | JsErrno _ m => m
  | JsValue => "undefined"
  end.

(** [(error as NodeJS.ErrnoException).code] *)
Definition code_of (e : thrown) : option string :=
  match e with
  | JsErrno c _ => Some c
  | _ => None
  end.

(** The result of awaiting a promise. *)
Inductive Outcome (A : Type) :=
| Ok (a : A)
| Throw (e : thrown).
Arguments Ok {A} a.
Arguments Throw {A} e.

(** An element of the array [generations.create] resolves to. *)
Record Generation := { gen_id : string }.

(** The job record [fetchWithPolling] resolves to. *)
Record CompletedGen := { image_url : option string }.

(** A [node-fetch] response: status line, the [retry-after] header and
    what [arrayBuffer()] resolves to. *)
Record Response := {
  status : Z;
  statusText : string;
  retry_after : option string;
  body : Outcome string
}.

(** [response.ok] *)
Definition ok (r : Response) : bool := (200 <=? status r) && (status r <=? 299).

(** How a write of [data] to a path ends: completely; refused before
    the file is opened (the path is left as it was); or interrupted
    after [written] bytes reached the truncated file. *)
Inductive WriteResult :=
| WriteDone
| WriteRefused (e : thrown)
| WriteInterrupted (written : nat) (e : thrown).

(** The environment of one tool call. *)
Record Env := {
  STORAGE_DIR : string;
    (** [path.join(__dirname, "..", "images")] *)
  clock : string;
    (** [new Date().toISOString()] *)
  mkdir_result : string -> option thrown;
    (** [fs.mkdir(p, { recursive: true })]; [None] when it resolves *)
  create_result : nat -> Outcome (option (list Generation));
    (** the n-th call (from 0) of [client.v1.generations.create];
        [Ok None] is a falsy value *)
  poll_result : string -> Outcome CompletedGen;
    (** [client.v1.generations.fetchWithPolling(id, ...)] *)
  fetch_result : nat -> Outcome Response;
    (** the n-th call (from 0) of [fetch(imageUrl, ...)] *)
  optimize_result : string -> Outcome string;
    (** [optimize(svg, ...).data] of svgo *)
  sharp_result : string -> string -> Outcome string;
    (** the bytes [sharp(content)] encodes for a codec *)
  write_result : string -> string -> WriteResult;
    (** how writing these bytes to this path ends *)
  open_result : string -> option thrown;
    (** [open(filepath)]; [None] when it resolves *)
  access_other : string -> option thrown;
    (** [fs.access(p)] for a path that holds none of the files:
        [None] when it resolves (a directory stands there) *)
  read_other : string -> thrown;
    (** what [fs.readFile(p)] rejects with for such a path
        (ENOENT, EISDIR for a directory, ...) *)
  lower_other : string -> string;
    (** [s.toLowerCase()] for a text with characters outside ASCII
        (the Unicode case mapping) *)
  readdir_result : Outcome (list string)
    (** [fs.readdir(STORAGE_DIR)] *)
}.

Inductive Level := LogLevel | WarnLevel | ErrorLevel.

(** The calls the code makes to its environment. *)
Inductive Event :=
| EMkdir (p : string)
| EClock
| ECreate (model prompt : string) (imageCount : Z) (vector : bool)
| ESleep (ms : option Z)   (* [None]: not a finite number *)
| EPoll (id : string) (maxAttempts interval : Z)
| EFetch (url : string) (timeout : Z)
| EOptimize
| ESharp (codec : string) (quality : Z)
| EWrite (p : string)
| EOpen (p : string)
| EAccess (p : string)
| EReadFile (p : string)
| EReaddir (p : string)
| EConsole (lvl : Level) (text : string).

(** A call that goes over the network. *)
Definition is_network (e : Event) : bool :=
  match e with
  | ECreate _ _ _ _ | EPoll _ _ _ | EFetch _ _ => true
  | _ => false
  end.

(** The state a tool call runs in: the calls made so far, the files on
    disk, and how many times the two retried operations were called. *)
Record World := {
  trace : list Event;
  files : gmap string string;
  creates : nat;
  fetches : nat
}.

Definition world0 : World :=
  {| trace := []; files := ∅; creates := 0; fetches := 0 |}.

Definition emit (e : Event) (w : World) : World :=
  {| trace := trace w ++ [e]; files := files w;
     creates := creates w; fetches := fetches w |}.

(** ** Asynchronous code as state passing with exceptions *)

Definition M (A : Type) : Type := World -> Outcome A * World.

Definition ret {A} (a : A) : M A := fun w => (Ok a, w).
Definition throw {A} (e : thrown) : M A := fun w => (Throw e, w).

Definition bind {A B} (m : M A) (k : A -> M B) : M B :=
  fun w =>
    match m w with
    | (Ok a, w') => k a w'
    | (Throw e, w') => (Throw e, w')
    end.

Notation "'let*' x ':=' m 'in' k" := (bind m (fun x => k))
  (at level 10, x pattern, m at level 100, k at level 200).
Notation "m ';;' k" := (bind m (fun _ => k))
  (at level 100, k at level 200, right associativity).

(** [try { m } catch (error) { h error }] *)
Definition try_catch {A} (m : M A) (h : thrown -> M A) : M A :=
  fun w =>
    match m w with
    | (Ok a, w') => (Ok a, w')
    | (Throw e, w') => h e w'
    end.

(** The outcome of [m] as a value, for a [try] whose handler needs the
    local variables the body assigned. *)
Definition attempt {A} (m : M A) : M (Outcome A) :=
  fun w => let (o, w') := m w in (Ok o, w').

Definition emitM (e : Event) : M unit := fun w => (Ok tt, emit e w).

Definition console (lvl : Level) (text : string) : M unit :=
  emitM (EConsole lvl text).

Definition of_result (r : option thrown) : M unit :=
  match r with
  | None => ret tt
  | Some e => throw e
  end.

Definition of_outcome {A} (o : Outcome A) : M A := fun w => (o, w).

(** [await new Promise(r => setTimeout(r, ms))] *)
Definition sleep (ms : option Z) : M unit := emitM (ESleep ms).

Section Primitives.

Variable env : Env.

(** [await fs.access(p)] *)
Definition access (p : string) : M unit :=
  fun w =>
    match files w !! p with
    | Some _ => (Ok tt, emit (EAccess p) w)
    | None =>
        match access_other env p with
        | None => (Ok tt, emit (EAccess p) w)
        | Some e => (Throw e, emit (EAccess p) w)
        end
    end.

(** [await fs.readFile(p)] *)
Definition readFile (p : string) : M string :=
  fun w =>
    match files w !! p with
    | Some d => (Ok d, emit (EReadFile p) w)
    | None => (Throw (read_other env p), emit (EReadFile p) w)
    end.

(** [s.toLowerCase()] of a text of any script *)
Definition lowered (s : string) : string :=
  if Js.ascii_only s then Js.toLowerCase s else lower_other env s.

(** [await fs.mkdir(p, { recursive: true })] *)
Definition mkdir (p : string) : M unit :=
  emitM (EMkdir p) ;; of_result (mkdir_result env p).

(** [new Date().toISOString()] *)
Definition toISOString_now : M string :=
  emitM EClock ;; ret (clock env).

(** [await client.v1.generations.create(model, prompt, "txt2img", options)] *)
Definition generations_create (model prompt : string) (imageCount : Z) (vector : bool)
  : M (option (list Generation)) :=
  fun w =>
    (create_result env (creates w),
     {| trace := trace w ++ [ECreate model prompt imageCount vector];
        files := files w; creates := S (creates w); fetches := fetches w |}).

(** [await client.v1.generations.fetchWithPolling(id, { maxAttempts, interval })] *)
Definition fetchWithPolling (id : string) (maxAttempts interval : Z) : M CompletedGen :=
  emitM (EPoll id maxAttempts interval) ;; of_outcome (poll_result env id).

(** [await fetch(url, { timeout })] *)
Definition fetch (url : string) (timeout : Z) : M Response :=
  fun w =>
    (fetch_result env (fetches w),
     {| trace := trace w ++ [EFetch url timeout];
        files := files w; creates := creates w; fetches := S (fetches w) |}).

(** [optimize(svgString, { multipass: true, plugins: [...] }).data] *)
Definition optimize (svg : string) : M string :=
  emitM EOptimize ;; of_outcome (optimize_result env svg).

(** Writing [data] to [p], as [fs.writeFile] and sharp's [toFile] do:
    the file is opened with truncation and the bytes are written to
    it in place. *)
Definition write (p data : string) : M unit :=
  fun w =>
    let w1 := emit (EWrite p) w in
    match write_result env p data with
    | WriteDone =>
        (Ok tt, {| trace := trace w1; files := <[p := data]> (files w1);
                   creates := creates w1; fetches := fetches w1 |})
    | WriteRefused e => (Throw e, w1)
    | WriteInterrupted n e =>
        (Throw e, {| trace := trace w1; files := <[p := Js.take n data]> (files w1);
                     creates := creates w1; fetches := fetches w1 |})
    end.

(** [await fs.writeFile(p, data)] *)
Definition writeFile (p data : string) : M unit := write p data.

(** [await sharp(content).<codec>({ quality }).toFile(p)] *)
Definition sharp_toFile (codec : string) (quality : Z) (content p : string) : M unit :=
  emitM (ESharp codec quality) ;;
  let* encoded := of_outcome (sharp_result env codec content) in
  write p encoded.

(** [await open(p)] *)
Definition open (p : string) : M unit :=
  emitM (EOpen p) ;; of_result (open_result env p).

(** [await fs.readdir(STORAGE_DIR)] *)
Definition readdir_storage : M (list string) :=
  emitM (EReaddir (STORAGE_DIR env)) ;; of_outcome (readdir_result env).

End Primitives.

(** ** The server *)

Inductive EverArtErrorType :=
| API_ERROR
| AUTHENTICATION_ERROR
| NETWORK_ERROR
| VALIDATION_ERROR
| STORAGE_ERROR
| FORMAT_ERROR
| UNKNOWN_ERROR.

Definition type_name (t : EverArtErrorType) : string :=
  match t with
  | API_ERROR => "API_ERROR"
  | AUTHENTICATION_ERROR => "AUTHENTICATION_ERROR"
  | NETWORK_ERROR => "NETWORK_ERROR"
  | VALIDATION_ERROR => "VALIDATION_ERROR"
  | STORAGE_ERROR => "STORAGE_ERROR"
  | FORMAT_ERROR => "FORMAT_ERROR"
  | UNKNOWN_ERROR => "UNKNOWN_ERROR"
  end.

(** [details], when present, is held as its JSON text. *)
Record EverArtError := {
  type : EverArtErrorType;
  message : string;
  details : option string
}.

(** What a tool call returns: the texts of its [content] items (all of
    type ["text"]) and the [isError] flag (absent = [false]). *)
Record ToolResult := {
  content : list string;
  isError : bool
}.

Definition errorResponse (error : EverArtError) : M ToolResult :=
  console ErrorLevel
    ("[" +:+ type_name (type error) +:+ "] " +:+ message error
       +:+ " " +:+ Js.or_else (details error) "") ;;
  ret {| content :=
           ("Error: " +:+ message error) ::
           match Js.truthy (details error) with
           | Some d => ["Details: " +:+ d]
           | None => []
           end;
         isError := true |}.

Definition MAX_RETRIES : nat := 3.
Definition INITIAL_RETRY_DELAY : Z := 1000.

Definition supportedFormats : list string := ["svg"; "png"; "jpg"; "jpeg"; "webp"].
Definition validModels : list string := ["5000"; "6000"; "7000"; "8000"; "9000"].

Definition getMimeType (format : string) : string :=
  let f := Js.toLowerCase format in
  if String.eqb f "svg" then "image/svg+xml"
  else if String.eqb f "png" then "image/png"
  else if String.eqb f "jpg" || String.eqb f "jpeg" then "image/jpeg"
  else if String.eqb f "webp" then "image/webp"
  else "application/octet-stream".

Definition validateModelFormatCompatibility (model format : string) : bool :=
  if String.eqb (Js.toLowerCase format) "svg" && negb (String.eqb model "8000")
  then false
  else true.

(** [prompt.slice(0, 20).replace(/[^a-zA-Z0-9]/g, "_").toLowerCase()] *)
Definition sanitize_char (c : ascii) : ascii :=
  if Js.is_lower c || Js.is_upper c || Js.is_digit c then c else "_"%char.
Definition sanitize_unit (u : option ascii) : ascii :=
  match u with
  | Some c => sanitize_char c
  | None => "_"%char
  end.
Definition sanitizePrompt (prompt : string) : string :=
  Js.toLowerCase (Js.of_chars (map sanitize_unit (firstn 20 (Js.units prompt)))).

(** [iso.replace(/[:.]/g, "-")] *)
Definition stamp_char (c : ascii) : ascii :=
  if Ascii.eqb c ":" || Ascii.eqb c "." then "-"%char else c.
Definition fileStamp (iso : string) : string := Js.map_chars stamp_char iso.

(** The test of [/\.(svg|png|jpe?g|webp)$/i] *)
Definition endsWith (s suffix : string) : bool :=
  String.eqb (Js.drop (String.length s - String.length suffix) s) suffix
  && (String.length suffix <=? String.length s)%nat.
Definition is_image_name (file : string) : bool :=
  let f := Js.toLowerCase file in
  endsWith f ".svg" || endsWith f ".png" || endsWith f ".jpg"
  || endsWith f ".jpeg" || endsWith f ".webp".

Section Server.

Variable env : Env.

Definition ensureStorageDir : M unit :=
  try_catch (mkdir env (STORAGE_DIR env))
    (fun error =>
       console ErrorLevel ("Failed to create storage directory: " +:+ message_of error) ;;
       throw (JsError ("MCP error -32603: Failed to create storage directory: "
                         +:+ message_of error))).

Definition processWebProjectPath (basePath projectType assetPath : option string)
  : M (option string) :=
  match Js.truthy basePath with
  | None => ret None
  | Some basePath =>
      try_catch
        (let fullPath :=
           match Js.truthy projectType with
           | Some projectType =>
               let t := Js.toLowerCase projectType in
               if String.eqb t "react" || String.eqb t "vue" || String.eqb t "angular"
               then Path.join (Path.join basePath "public") (Js.or_else assetPath "images")
               else if String.eqb t "next" || String.eqb t "nuxt"
               then Path.join (Path.join basePath "public") (Js.or_else assetPath "images")
               else Path.join basePath (Js.or_else assetPath "assets/images")
           | None =>
               match Js.truthy assetPath with
               | Some assetPath => Path.join basePath assetPath
               | None => basePath
               end
           end in
         mkdir env fullPath ;;
         ret (Some fullPath))
        (fun error =>
           console ErrorLevel ("Failed to process web project path: " +:+ message_of error) ;;
           ret None)
  end.

(** The destination of an explicit [outputPath] (the branch
    [if (outputPath)] of [saveImage], before its [mkdir]). *)
Definition explicitPath (outputPath format : string) : M string :=
  let ext := Path.extname outputPath in
  if String.eqb ext "" then
    ret (outputPath +:+ "." +:+ format)
  else if negb (String.eqb (Js.toLowerCase (Js.drop 1 ext)) (Js.toLowerCase format)) then
    console WarnLevel ("Warning: File extension " +:+ ext
                         +:+ " doesn't match specified format " +:+ format) ;;
    ret (Js.dropEnd (String.length ext) outputPath +:+ "." +:+ format)
  else
    ret outputPath.

(** The three-way choice of [filepath] in [saveImage]. *)
Definition resolvePath (prompt model format : string)
    (outputPath projectBasePath : option string) : M string :=
  let* now := toISOString_now env in
  let timestamp := fileStamp now in
  let sanitizedPrompt := sanitizePrompt prompt in
  let filename := sanitizedPrompt +:+ "_" +:+ model +:+ "." +:+ format in
  match Js.truthy outputPath with
  | Some outputPath =>
      let* filepath := explicitPath outputPath format in
      mkdir env (Path.dirname filepath) ;;
      ret filepath
  | None =>
      match Js.truthy projectBasePath with
      | Some projectBasePath => ret (Path.join projectBasePath filename)
      | None =>
          ret (Path.join (STORAGE_DIR env)
                 (timestamp +:+ "_" +:+ model +:+ "_" +:+ sanitizedPrompt +:+ "." +:+ format))
      end
  end.

(** [parseInt(response.headers.get('retry-after') || '5', 10) * 1000] *)
Definition retryAfterMs (r : Response) : option Z :=
  Js.times (Js.parseInt10 (Js.or_else (retry_after r) "5")) 1000.

(** [INITIAL_RETRY_DELAY * Math.pow(2, retryCount)] *)
Definition backoff (retryCount : nat) : option Z :=
  Some (INITIAL_RETRY_DELAY * 2 ^ Z.of_nat retryCount).

(** The loop [while (retryCount < maxRetries)] of [saveImage], from a
    given [retryCount] and a given value of its variable [response];
    the result is the value of [response] when the loop is left.
    [maxRetries] is [MAX_RETRIES] in the source; [fuel] bounds the
    iterations and [maxRetries] of it is enough. *)
Fixpoint fetch_loop (maxRetries fuel : nat) (imageUrl : string)
    (retryCount : nat) (response : option Response) : M (option Response) :=
  match fuel with
  | O => ret response
  | S fuel =>
      if (retryCount <? maxRetries)%nat then
        let on_error (error : thrown) (response : option Response) :=
          if (maxRetries - 1 <=? retryCount)%nat then throw error
          else
            sleep (backoff retryCount) ;;
            fetch_loop maxRetries fuel imageUrl (S retryCount) response in
        let* fetched := attempt (fetch env imageUrl 30000) in
        match fetched with
        | Ok r =>
            if ok r then ret (Some r)
            else if status r =? 429 then
              sleep (retryAfterMs r) ;;
              fetch_loop maxRetries fuel imageUrl (S retryCount) (Some r)
            else
              on_error
                (JsError ("Failed to fetch image: " +:+ statusText r
                            +:+ " (" +:+ pretty (status r) +:+ ")"))
                (Some r)
        | Throw error => on_error error response
        end
      else ret response
  end.

(** The conversion and write at the end of [saveImage]. *)
Definition materialize (format content filepath : string) : M unit :=
  if String.eqb format "svg" then
    let* data := optimize env content in
    writeFile env filepath data
  else
    try_catch
      (let f := Js.toLowerCase format in
       if String.eqb f "png" then sharp_toFile env "png" 90 content filepath
       else if String.eqb f "jpg" || String.eqb f "jpeg"
       then sharp_toFile env "jpeg" 90 content filepath
       else if String.eqb f "webp" then sharp_toFile env "webp" 90 content filepath
       else throw (JsError ("Unsupported format: " +:+ format)))
      (fun error => throw (JsError ("Image processing failed: " +:+ message_of error))).

(** The two checks [saveImage] makes before its [try]: what it
    throws, if anything. *)
Definition saveImage_rejects (model format : string) : option thrown :=
  if negb (Js.arr_includes supportedFormats format) then
    Some (JsError ("Unsupported format: " +:+ format +:+ ". Supported formats are: "
                     +:+ Js.join ", " supportedFormats))
  else if negb (validateModelFormatCompatibility model format) then
    Some (JsError ("Format '" +:+ format +:+ "' is not compatible with model '" +:+ model
                     +:+ "'. SVG format is only available with Recraft-Vector (8000) model."))
  else None.

Definition saveImage (imageUrl prompt model : string) (format : option string)
    (outputPath webProjectPath projectType assetPath : option string) : M string :=
  let format := Js.toLowerCase (default "svg" format) in
  match saveImage_rejects model format with
  | Some error => throw error
  | None =>
    try_catch
      (let* projectBasePath :=
         match Js.truthy webProjectPath with
         | Some _ => processWebProjectPath webProjectPath projectType assetPath
         | None => ret None
         end in
       let* filepath := resolvePath prompt model format outputPath projectBasePath in
       let* response := fetch_loop MAX_RETRIES MAX_RETRIES imageUrl 0 None in
       match response with
       | Some response =>
           if ok response then
             let* content := of_outcome (body response) in
             materialize format content filepath ;;
             ret filepath
           else throw (JsError ("Failed to fetch image after "
                                  +:+ pretty MAX_RETRIES +:+ " attempts"))
       | None => throw (JsError ("Failed to fetch image after "
                                   +:+ pretty MAX_RETRIES +:+ " attempts"))
       end)
      (fun error => throw (JsError ("Failed to save image: " +:+ message_of error)))
  end.

(** [listStoredImages] *)
Definition listStoredImages : M (list string) :=
  try_catch
    (let* files := readdir_storage env in
     ret (filter (fun f => is_image_name f = true) files))
    (fun error =>
       match code_of error with
       | Some "ENOENT" => ret []
       | _ => throw error
       end).

(** The arguments of [generate_image]. *)
Record GenerateArgs := {
  a_prompt : option string;
  a_model : option string;
  a_format : option string;
  a_output_path : option string;
  a_web_project_path : option string;
  a_project_type : option string;
  a_asset_path : option string;
  a_image_count : option Z
}.

(** [args.image_count || 1]: absent and [0] are falsy. *)
Definition count_or_1 (c : option Z) : Z :=
  match c with
  | Some n => if n =? 0 then 1 else n
  | None => 1
  end.

(** The loop [while (retryCount < maxRetries)] around
    [generations.create] in [generate_image]; the result is the value
    of [generation] when the loop is left ([None] = undefined or
    falsy).  [maxRetries] is [MAX_RETRIES] in the source; [fuel]
    bounds the iterations and [maxRetries] of it is enough. *)
Fixpoint submit_loop (maxRetries fuel : nat) (modelInput prompt : string)
    (image_count : Z) (retryCount : nat) : M (option (list Generation)) :=
  match fuel with
  | O => ret None
  | S fuel =>
      if (retryCount <? maxRetries)%nat then
        let* created :=
          attempt (generations_create env modelInput prompt image_count
                     (String.eqb modelInput "8000")) in
        match created with
        | Ok generation => ret generation
        | Throw error =>
            if (maxRetries - 1 <=? retryCount)%nat then throw error
            else
              sleep (backoff retryCount) ;;
              submit_loop maxRetries fuel modelInput prompt image_count (S retryCount)
        end
      else ret None
  end.

Definition modelNames (modelInput : string) : string :=
  if String.eqb modelInput "5000" then "FLUX1.1 (Standard quality)"
  else if String.eqb modelInput "9000" then "FLUX1.1-ultra (Ultra high quality)"
  else if String.eqb modelInput "6000" then "Stable Diffusion 3.5"
  else if String.eqb modelInput "7000" then "Recraft-Real (Photorealistic)"
  else if String.eqb modelInput "8000" then "Recraft-Vector (Vector art)"
  else modelInput.

(** The [catch] of the [generate_image] case: the failure is
    classified by the text of its message. *)
Definition classify (error : thrown) : M ToolResult :=
  console ErrorLevel ("Detailed error: " +:+ message_of error) ;;
  let m := message_of error in
  if is_Error error && Js.includes m "SVG format" then
    errorResponse {| type := FORMAT_ERROR; message := m; details := None |}
  else if is_Error error && Js.includes m "Failed to fetch image" then
    errorResponse {| type := NETWORK_ERROR;
                     message := "Failed to download the generated image. Please check your internet connection and try again.";
                     details := None |}
  else if is_Error error && Js.includes m "rate limit" then
    errorResponse {| type := API_ERROR;
                     message := "EverArt API rate limit reached. Please try again later.";
                     details := None |}
  else if is_Error error && (Js.includes m "unauthorized" || Js.includes m "authentication") then
    errorResponse {| type := AUTHENTICATION_ERROR;
                     message := "API authentication failed. Please check your EverArt API key.";
                     details := None |}
  else
    errorResponse {| type := UNKNOWN_ERROR;
                     message := if is_Error error then m else "Unknown error";
                     details := None |}.

(** What the request validation of [generate_image] hands on. *)
Record Validated := {
  v_prompt : string;
  v_model : string;
  v_format : string;
  v_count : Z
}.

(** The validation at the start of the [generate_image] case: either
    the error response it returns, or the normalised request. *)
Definition validate (args : GenerateArgs) : M (ToolResult + Validated) :=
  let invalid (m : string) :=
    let* r := errorResponse {| type := VALIDATION_ERROR; message := m; details := None |} in
    ret (inl r) in
  match Js.truthy (a_prompt args) with
  | None => invalid "Prompt is required and must be a non-empty string."
  | Some prompt =>
      if String.eqb (Js.trim prompt) "" then
        invalid "Prompt is required and must be a non-empty string."
      else
        let modelInput := Js.or_else (a_model args) "5000" in
        let image_count := count_or_1 (a_image_count args) in
        if (image_count <? 1) || (image_count >? 10) then
          invalid "image_count must be between 1 and 10"
        else
          let* modelInput :=
            if Js.has_char ":" modelInput then
              console LogLevel ("Received combined model ID format: " +:+ modelInput
                                  +:+ ", using base ID: " +:+ Js.before ":" modelInput) ;;
              ret (Js.before ":" modelInput)
            else ret modelInput in
          if negb (Js.arr_includes validModels modelInput) then
            invalid ("Invalid model ID: " +:+ modelInput +:+ ". Valid models are: "
                       +:+ Js.join ", " validModels)
          else
            let format :=
              Js.or_else (a_format args)
                (if String.eqb modelInput "8000" then "svg" else "png") in
            if negb (Js.arr_includes supportedFormats (Js.toLowerCase format)) then
              invalid ("Unsupported format: " +:+ format +:+ ". Supported formats are: "
                         +:+ Js.join ", " supportedFormats)
            else if negb (validateModelFormatCompatibility modelInput format) then
              invalid ("Format '" +:+ format +:+ "' is not compatible with model '"
                         +:+ modelInput
                         +:+ "'. SVG format is only available with Recraft-Vector (8000) model.")
            else
              ret (inr {| v_prompt := prompt; v_model := modelInput;
                          v_format := format; v_count := image_count |})
  end.

(** The end of the [generate_image] case, once [saveImage] has
    returned [filepath]: the viewer, the inline read, the report. *)
Definition announce (args : GenerateArgs) (v : Validated) (filepath : string)
  : M ToolResult :=
  let prompt := v_prompt v in
  let modelInput := v_model v in
  let format := v_format v in
  try_catch (open env filepath)
    (fun openError =>
       console WarnLevel ("Could not open the image in default viewer: "
                            +:+ message_of openError)) ;;
  try_catch (readFile env filepath ;; ret tt)
    (fun error =>
       console WarnLevel ("Unable to read image for inline display: "
                            +:+ message_of error)) ;;
  let webRelativePath :=
    match Js.truthy (a_web_project_path args) with
    | Some web_project_path =>
        if Js.startsWith filepath web_project_path then
          let rel := Js.drop (String.length web_project_path) filepath in
          Some (if Js.startsWith rel "/" then rel else "/" +:+ rel)
        else None
    | None => None
    end in
  ret {| content :=
           [ "✅ Image generated and saved successfully!" +:+ Js.nl +:+ Js.nl
             +:+ "Generation details:" +:+ Js.nl
             +:+ "• Model: " +:+ modelNames modelInput +:+ Js.nl
             +:+ "• Prompt: " +:+ Js.dquote +:+ prompt +:+ Js.dquote +:+ Js.nl
             +:+ "• Format: " +:+ Js.toUpperCase format +:+ Js.nl
             +:+ "• Saved to: " +:+ filepath
             +:+ match Js.truthy webRelativePath with
                 | Some rel => Js.nl +:+ "• Web relative path: " +:+ rel
                 | None => ""
                 end;
             "View the image at: file://" +:+ filepath ];
         isError := false |}.

(** The [generate_image] case after its validation: submission,
    polling, save, and the report. *)
Definition pipeline (args : GenerateArgs) (v : Validated) : M ToolResult :=
  let prompt := v_prompt v in
  let modelInput := v_model v in
  let format := v_format v in
  let* generation := submit_loop MAX_RETRIES MAX_RETRIES modelInput prompt (v_count v) 0 in
  match generation with
  | None => throw (JsError "Failed to create generation after multiple attempts")
  | Some [] => throw (JsError "Cannot read properties of undefined (reading 'id')")
  | Some (first :: _) =>
      let* completedGen := fetchWithPolling env (gen_id first) 30 3000 in
      match Js.truthy (image_url completedGen) with
      | None => throw (JsError "No image URL in the completed generation")
      | Some imgUrl =>
          let* filepath :=
            saveImage imgUrl prompt modelInput (Some format) (a_output_path args)
              (a_web_project_path args) (a_project_type args) (a_asset_path args) in
          announce args v filepath
      end
  end.

(** The [generate_image] case of the tool-call handler. *)
Definition generate_image (args : GenerateArgs) : M ToolResult :=
  try_catch
    (let* checked := validate args in
     match checked with
     | inl response => ret response
     | inr v => pipeline args v
     end)
    classify.

(** The [view_image] case of the tool-call handler. *)
Definition view_image (filename : option string) : M ToolResult :=
  try_catch
    (match Js.truthy filename with
     | None =>
         errorResponse {| type := VALIDATION_ERROR;
                          message := "filename is required and must be a string";
                          details := None |}
     | Some filename =>
         let filepath := Path.join (STORAGE_DIR env) filename in
         let* found := attempt (access env filepath) in
         match found with
         | Throw accessError =>
             let* availableFiles := listStoredImages in
             let errorMsg := "Image not found: " +:+ filename in
             let errorMsg :=
               match availableFiles with
               | [] => errorMsg
               | _ =>
                   let suggestions :=
                     firstn 3
                       (filter
                          (fun f =>
                             Js.includes (lowered env f) (lowered env filename)
                             || Js.includes (lowered env filename)
                                  (Js.afterLast "_" (lowered env f)) = true)
                          availableFiles) in
                   (match suggestions with
                    | [] => errorMsg
                    | _ => errorMsg +:+ Js.nl +:+ Js.nl +:+ "Did you mean one of these?" +:+ Js.nl
                             +:+ Js.join Js.nl (map (fun s => "• " +:+ s) suggestions)
                    end)
                   +:+ Js.nl +:+ Js.nl +:+ "Use 'list_images' to see all available images."
               end in
             errorResponse {| type := VALIDATION_ERROR; message := errorMsg; details := None |}
         | Ok _ =>
             try_catch (readFile env filepath ;; ret tt)
               (fun error =>
                  console WarnLevel ("Unable to read image for inline display: "
                                       +:+ message_of error)) ;;
             open env filepath ;;
             ret {| content :=
                      [ "✅ Viewing image: " +:+ filename;
                        "Image opened in default viewer." +:+ Js.nl
                        +:+ "File path: file://" +:+ filepath ];
                    isError := false |}
         end
     end)
    (fun error =>
       errorResponse {| type := UNKNOWN_ERROR;
                        message := "Error viewing image: "
                                   +:+ (if is_Error error then message_of error
                                        else "Unknown error");
                        details := None |}).

(** The prologue every tool call goes through before its case. *)
Definition callTool (tool : M ToolResult) : M ToolResult :=
  let* ensured := attempt ensureStorageDir in
  match ensured with
  | Throw error =>
      errorResponse {| type := STORAGE_ERROR;
                       message := "Failed to ensure storage directory: " +:+ message_of error;
                       details := None |}
  | Ok _ => tool
  end.

End Server.


(** ** Vocabulary of the statements *)

Definition failure (k : EverArtErrorType) (msg : string) : EverArtError :=
  {| type := k; message := msg; details := None |}.

(** A run ended by returning the error response of a failure of kind
    [k] (the kind is what [errorResponse] logs; the response itself
    carries the message and [isError]). *)
Definition returns_failure (k : EverArtErrorType) (r : Outcome ToolResult * World) : Prop :=
  exists msg w, r = errorResponse (failure k msg) w.

(** The network calls made so far. *)
Definition network_calls (w : World) : list Event :=
  filter (fun e => is_network e = true) (trace w).

(** The model id a request names: [args.model || "5000"], cut at the
    first colon. *)
Definition model_id (args : GenerateArgs) : string :=
  let modelInput := Js.or_else (a_model args) "5000" in
  if Js.has_char ":" modelInput then Js.before ":" modelInput else modelInput.

(** An attempt of the fetch loop fails when [fetch] rejects or the
    response is not [ok]. *)
Definition fetch_failed (o : Outcome Response) : Prop :=
  match o with
  | Ok r => ok r = false
  | Throw _ => True
  end.

(** An attempt of the submission loop fails when [create] rejects. *)
Definition create_failed (o : Outcome (option (list Generation))) : Prop :=
  match o with
  | Ok _ => False
  | Throw _ => True
  end.

(** What the fetch loop ends with when the last attempt it makes gives
    [o]: the response, when it is [ok]; the rejection itself; the error
    the loop builds from a status other than 429; or, after a 429, the
    response, left to the check [!response.ok] that follows the loop. *)
Definition loop_end (o : Outcome Response) : Outcome (option Response) :=
  match o with
  | Throw e => Throw e
  | Ok r =>
      if ok r || (status r =? 429) then Ok (Some r)
      else Throw (JsError ("Failed to fetch image: " +:+ statusText r
                             +:+ " (" +:+ pretty (status r) +:+ ")"))
  end.

(** A file name proper: not empty, without separator, neither ["."]
    nor [".."]. *)
Definition plain_name (s : string) : Prop :=
  s <> "" /\ Js.has_char "/" s = false /\ s <> "." /\ s <> "..".

(** The shape of [Date.prototype.toISOString] for years 0 to 9999:
    [d] stands for a decimal digit. *)
Definition iso_template : string := "dddd-dd-ddTdd:dd:dd.dddZ".

Fixpoint matches_template (tpl s : string) : bool :=
  match tpl, s with
  | "", "" => true
  | String t tpl', String c s' =>
      (if Ascii.eqb t "d" then Js.is_digit c else Ascii.eqb t c)
      && matches_template tpl' s'
  | _, _ => false
  end.

Definition iso_shaped (s : string) : Prop := matches_template iso_template s = true.

(** *** Sample environments *)

Definition png_response : Response :=
  {| status := 200; statusText := "OK"; retry_after := None; body := Ok "BYTES" |}.

Definition busy_response (hint : option string) : Response :=
  {| status := 429; statusText := "Too Many Requests"; retry_after := hint;
     body := Ok "" |}.

Definition down_response : Response :=
  {| status := 503; statusText := "Service Unavailable"; retry_after := None;
     body := Ok "" |}.

(** What the file system answers for a path that is not there. *)
Definition no_entry (call p : string) : thrown :=
  JsErrno "ENOENT" ("ENOENT: no such file or directory, " +:+ call +:+ " '" +:+ p +:+ "'").
Definition is_a_directory : thrown :=
  JsErrno "EISDIR" "EISDIR: illegal operation on a directory, read".

(** An environment in which everything works, up to the given answers;
    beside the files, the disk holds the storage directory. *)
Definition script (now : string)
    (create : nat -> Outcome (option (list Generation)))
    (poll : Outcome CompletedGen)
    (fetched : nat -> Outcome Response)
    (written : string -> string -> WriteResult)
    (opened : option thrown) : Env :=
  {| STORAGE_DIR := "/srv/everart/images";
     clock := now;
     mkdir_result := fun _ => None;
     create_result := create;
     poll_result := fun _ => poll;
     fetch_result := fetched;
     optimize_result := fun svg => Ok svg;
     sharp_result := fun codec content => Ok (codec +:+ ":" +:+ content);
     write_result := written;
     open_result := fun _ => opened;
     access_other :=
       fun p => if String.eqb p "/srv/everart/images" then None
                else Some (no_entry "access" p);
     read_other :=
       fun p => if String.eqb p "/srv/everart/images" then is_a_directory
                else no_entry "open" p;
     lower_other := fun s => s;
     readdir_result := Ok [] |}.

Definition one_job : Outcome (option (list Generation)) := Ok (Some [{| gen_id := "job-1" |}]).
Definition job_done : Outcome CompletedGen := Ok {| image_url := Some "https://cdn/img" |}.

Definition env_fine : Env :=
  script "2024-05-01T10:20:30.123Z" (fun _ => one_job) job_done
    (fun _ => Ok png_response) (fun _ _ => WriteDone) None.

Definition request (prompt model : string) (format : option string)
    (output_path : option string) (count : option Z) : GenerateArgs :=
  {| a_prompt := Some prompt; a_model := Some model; a_format := format;
     a_output_path := output_path; a_web_project_path := None;
     a_project_type := None; a_asset_path := None; a_image_count := count |}.

(** The message of the failure raised for a completed job without an
    image URL. *)
Definition no_url_message : string := "No image URL in the completed generation".

(** The failure [generate_image] raises after the submission loop when
    it holds no generation. *)
Definition exhausted_submission : thrown :=
  JsError "Failed to create generation after multiple attempts".

(** A text that goes on with a decimal digit. *)
Definition starts_with_digit (s : string) : bool :=
  match s with
  | String c _ => Js.is_digit c
  | "" => false
  end.

Definition a_landscape : GenerateArgs :=
  request "A landscape" "5000" (Some "png") None None.

(** The generation service is unreachable and the image host is down. *)
Definition env_down : Env :=
  script "2024-05-01T10:20:30.123Z" (fun _ => Throw (JsError "socket hang up")) job_done
    (fun _ => Ok down_response) (fun _ _ => WriteDone) None.

(** The image host answers 429 without a [retry-after] header. *)
Definition env_busy : Env :=
  script "2024-05-01T10:20:30.123Z" (fun _ => one_job) job_done
    (fun _ => Ok (busy_response None)) (fun _ _ => WriteDone) None.

(** The disk fills up after three bytes of any write. *)
Definition env_cut : Env :=
  script "2024-05-01T10:20:30.123Z" (fun _ => one_job) job_done
    (fun _ => Ok png_response)
    (fun _ _ => WriteInterrupted 3
                  (JsErrno "ENOSPC" "ENOSPC: no space left on device, write"))
    None.

(** The job completes without an image URL. *)
Definition env_no_url : Env :=
  script "2024-05-01T10:20:30.123Z" (fun _ => one_job) (Ok {| image_url := None |})
    (fun _ => Ok png_response) (fun _ _ => WriteDone) None.

(** No viewer can be started. *)
Definition env_no_viewer : Env :=
  script "2024-05-01T10:20:30.123Z" (fun _ => one_job) job_done
    (fun _ => Ok png_response) (fun _ _ => WriteDone)
    (Some (JsError "spawn xdg-open ENOENT")).

(** The same request served on two days, the image differing. *)
Definition env_monday : Env :=
  script "2024-05-06T09:00:00.000Z" (fun _ => one_job) job_done
    (fun _ => Ok {| status := 200; statusText := "OK"; retry_after := None;
                    body := Ok "MONDAY" |})
    (fun _ _ => WriteDone) None.
Definition env_tuesday : Env :=
  script "2024-05-07T09:00:00.000Z" (fun _ => one_job) job_done
    (fun _ => Ok {| status := 200; statusText := "OK"; retry_after := None;
                    body := Ok "TUESDAY" |})
    (fun _ _ => WriteDone) None.

Definition monday_run : Outcome string * World :=
  saveImage env_monday "https://cdn/img" "A logo" "5000" (Some "png")
    None (Some "/site") None None world0.
Definition tuesday_run : Outcome string * World :=
  saveImage env_tuesday "https://cdn/img" "A logo" "5000" (Some "png")
    None (Some "/site") None None (snd monday_run).

Definition monday_explicit_run : Outcome string * World :=
  saveImage env_monday "https://cdn/img" "A logo" "5000" (Some "png")
    (Some "out/logo.png") None None None world0.
Definition tuesday_explicit_run : Outcome string * World :=
  saveImage env_tuesday "https://cdn/img" "A logo" "5000" (Some "png")
    (Some "out/logo.png") None None None (snd monday_explicit_run).

(** A world in which one image is stored. *)
Definition world_with_logo : World :=
  {| trace := []; files := {[ "/srv/everart/images/logo.png" := "PNG" ]};
     creates := 0; fetches := 0 |}.

Definition cut_run : Outcome string * World :=
  saveImage env_cut "https://cdn/img" "A logo" "5000" (Some "png")
    (Some "out/logo.png") None None None world0.

Definition zero_count : GenerateArgs :=
  request "A landscape" "5000" (Some "png") None (Some 0).

Definition svg_on_flux : GenerateArgs :=
  request "A landscape" "5000" (Some "svg") None None.

(** ** The rest of the server: validated requests, the phases of
    [saveImage], the resource handlers, the listing *)

(** The format a request asks for: [args.format], or the default that
    goes with its model. *)
Definition format_of (args : GenerateArgs) : string :=
  Js.or_else (a_format args) (if String.eqb (model_id args) "8000" then "svg" else "png").

(** A world reached from [w] by logging only. *)
Definition logged_from (w w' : World) : Prop :=
  w' = w \/ exists lvl text, w' = emit (EConsole lvl text) w.

(** A request that passed every check of the validation. *)
Definition well_formed (v : Validated) : Prop :=
  Js.trim (v_prompt v) <> ""
  /\ In (v_model v) validModels
  /\ In (Js.toLowerCase (v_format v)) supportedFormats
  /\ validateModelFormatCompatibility (v_model v) (v_format v) = true
  /\ 1 <= v_count v <= 10.

(** The request [args] with another [model]. *)
Definition with_model (args : GenerateArgs) (model : string) : GenerateArgs :=
  {| a_prompt := a_prompt args; a_model := Some model; a_format := a_format args;
     a_output_path := a_output_path args; a_web_project_path := a_web_project_path args;
     a_project_type := a_project_type args; a_asset_path := a_asset_path args;
     a_image_count := a_image_count args |}.

(** The kinds the [catch] of [generate_image] can report. *)
Definition pipeline_kinds : list EverArtErrorType :=
  [FORMAT_ERROR; NETWORK_ERROR; API_ERROR; AUTHENTICATION_ERROR; UNKNOWN_ERROR].

(** The directory [processWebProjectPath] creates for a base path
    (its [fullPath]). *)
Definition assetDirectory (basePath : string) (projectType assetPath : option string) : string :=
  match Js.truthy projectType with
  | Some projectType =>
      let t := Js.toLowerCase projectType in
      if String.eqb t "react" || String.eqb t "vue" || String.eqb t "angular"
         || String.eqb t "next" || String.eqb t "nuxt"
      then Path.join (Path.join basePath "public") (Js.or_else assetPath "images")
      else Path.join basePath (Js.or_else assetPath "assets/images")
  | None =>
      match Js.truthy assetPath with
      | Some assetPath => Path.join basePath assetPath
      | None => basePath
      end
  end.

(** The first phase of [saveImage]: the project directory, then the
    choice of [filepath]. *)
Definition destination (env : Env) (prompt model format : string)
    (outputPath webProjectPath projectType assetPath : option string) : M string :=
  let* projectBasePath :=
    match Js.truthy webProjectPath with
    | Some _ => processWebProjectPath env webProjectPath projectType assetPath
    | None => ret None
    end in
  resolvePath env prompt model format outputPath projectBasePath.

(** The second phase of [saveImage]: the fetch with retries, the
    conversion and the write. *)
Definition download (env : Env) (format imageUrl filepath : string) : M string :=
  let* response := fetch_loop env MAX_RETRIES MAX_RETRIES imageUrl 0 None in
  match response with
  | Some response =>
      if ok response then
        let* content := of_outcome (body response) in
        materialize env format content filepath ;;
        ret filepath
      else throw (JsError ("Failed to fetch image after "
                             +:+ pretty MAX_RETRIES +:+ " attempts"))
  | None => throw (JsError ("Failed to fetch image after "
                              +:+ pretty MAX_RETRIES +:+ " attempts"))
  end.

(** The bytes [materialize] hands to the write for a format, when the
    conversion succeeds: svgo's output for svg, sharp's encoding for the
    raster formats. *)
Definition produced (o : Outcome string) : option string :=
  match o with
  | Ok data => Some data
  | Throw _ => None
  end.

Definition converted (env : Env) (format content : string) : option string :=
  if String.eqb format "svg" then produced (optimize_result env content)
  else
    let f := Js.toLowerCase format in
    if String.eqb f "png" then produced (sharp_result env "png" content)
    else if String.eqb f "jpg" || String.eqb f "jpeg"
    then produced (sharp_result env "jpeg" content)
    else if String.eqb f "webp" then produced (sharp_result env "webp" content)
    else None.

(** The waits asked of [setTimeout] so far, in order. *)
Definition sleeps (w : World) : list (option Z) :=
  flat_map (fun e => match e with ESleep ms => [ms] | _ => [] end) (trace w).

(** The wait that follows a failed attempt of the fetch loop made at
    [retryCount]: the [retry-after] hint after a 429, the exponential
    delay otherwise. *)
Definition wait_after (o : Outcome Response) (retryCount : nat) : option Z :=
  match o with
  | Ok r => if status r =? 429 then retryAfterMs r else backoff retryCount
  | Throw _ => backoff retryCount
  end.

(** The waits of [n] failed attempts in a row, the first being call
    [call] of [fetch], made at [retryCount]. *)
Fixpoint waits (env : Env) (call retryCount n : nat) : list (option Z) :=
  match n with
  | O => []
  | S n => wait_after (fetch_result env call) retryCount
             :: waits env (S call) (S retryCount) n
  end.

(** The wait the fetch loop makes after its last attempt: none, unless
    that attempt was answered 429. *)
Definition last_wait (o : Outcome Response) : list (option Z) :=
  match o with
  | Ok r => if negb (ok r) && (status r =? 429) then [retryAfterMs r] else []
  | Throw _ => []
  end.

(** Every character of [s] passes [p]. *)
Fixpoint all_chars (p : ascii -> bool) (s : string) : bool :=
  match s with
  | "" => true
  | String c t => p c && all_chars p t
  end.

(** [[a-z0-9_]] *)
Definition fragment_char (c : ascii) : bool :=
  Js.is_lower c || Js.is_digit c || Ascii.eqb c "_".

(** A character of one byte (and one code unit). *)
Definition is_ascii (c : ascii) : bool := (nat_of_ascii c <? 128)%nat.

(** The shape of a timestamp in a file name. *)
Definition stamp_template : string := "dddd-dd-ddTdd-dd-dd-dddZ".

(** [path.extname(file).slice(1).toLowerCase()], and the MIME type
    the resource handlers give a file from it. *)
Definition ext_of (file : string) : string :=
  Js.toLowerCase (Js.drop 1 (Path.extname file)).

Definition mimeOfFile (file : string) : string := getMimeType (ext_of file).

(** A name made of a stem and a supported extension. *)
Definition has_supported_extension (file : string) : Prop :=
  exists stem ext, file = stem +:+ "." +:+ ext /\ In (Js.toLowerCase ext) supportedFormats.

(** [new McpError(code, message)] of the SDK: an [Error] whose message
    is ["MCP error <code>: <message>"]. *)
Definition McpError (code : Z) (message : string) : thrown :=
  JsError ("MCP error " +:+ pretty code +:+ ": " +:+ message).

(** [ErrorCode.InternalError], [ErrorCode.InvalidRequest] *)
Definition InternalError : Z := -32603.
Definition InvalidRequest : Z := -32600.

(** The characters [.] of a regular expression does not match: LF, CR
    and (in UTF-8) U+2028 and U+2029. *)
Definition line_terminators : list string :=
  [ String (ascii_of_nat 10) "";
    String (ascii_of_nat 13) "";
    String (ascii_of_nat 226) (String (ascii_of_nat 128) (String (ascii_of_nat 168) ""));
    String (ascii_of_nat 226) (String (ascii_of_nat 128) (String (ascii_of_nat 169) "")) ].

Definition has_line_terminator (s : string) : bool :=
  existsb (Js.includes s) line_terminators.

Definition uri_prefix : string := "everart-forge-mcp://images/".

(** [uri.match(/^everart-forge-mcp:\/\/images\/(.+)$/)]: the group,
    when the pattern matches. *)
Definition match_uri (uri : string) : option string :=
  if Js.startsWith uri uri_prefix then
    let rest := Js.drop (String.length uri_prefix) uri in
    if String.eqb rest "" || has_line_terminator rest then None else Some rest
  else None.

Definition b64_digit (n : nat) : ascii :=
  match String.get n "ABCDEFGHIJKLMNOPQRSTUVWXYZabcdefghijklmnopqrstuvwxyz0123456789+/" with
  | Some c => c
  | None => "="%char
  end.

(** [content.toString("base64")] *)
Fixpoint base64 (s : string) : string :=
  match s with
  | "" => ""
  | String a "" =>
      let x := nat_of_ascii a in
      String (b64_digit (x / 4)) (String (b64_digit (x mod 4 * 16)) "==")
  | String a (String b "") =>
      let x := nat_of_ascii a in
      let y := nat_of_ascii b in
      String (b64_digit (x / 4))
        (String (b64_digit (x mod 4 * 16 + y / 16))
           (String (b64_digit (y mod 16 * 4)) "="))
  | String a (String b (String c rest)) =>
      let x := nat_of_ascii a in
      let y := nat_of_ascii b in
      let z := nat_of_ascii c in
      String (b64_digit (x / 4))
        (String (b64_digit (x mod 4 * 16 + y / 16))
           (String (b64_digit (y mod 16 * 4 + z / 64))
              (String (b64_digit (z mod 64)) (base64 rest))))
  end%nat.

Record Resource := {
  uri : string;
  mimeType : string;
  name : string
}.

Record ResourceContents := {
  c_uri : string;
  c_mimeType : string;
  blob : string
}.

Definition resource_of (file : string) : Resource :=
  {| uri := uri_prefix +:+ file; mimeType := mimeOfFile file; name := file |}.

(** The handler of [ListResourcesRequestSchema]. *)
Definition listResources (env : Env) : M (list Resource) :=
  try_catch
    (let* files := listStoredImages env in
     ret (map resource_of files))
    (fun error =>
       console ErrorLevel ("Failed to list resources: " +:+ message_of error) ;;
       throw (McpError InternalError
                ("Failed to list image resources: " +:+ message_of error))).

(** The handler of [ReadResourceRequestSchema]. *)
Definition readResource (env : Env) (uri : string) : M (list ResourceContents) :=
  match match_uri uri with
  | None =>
      throw (McpError InvalidRequest
               ("Invalid URI format: " +:+ uri
                  +:+ ". Expected format: everart-forge-mcp://images/filename"))
  | Some filename =>
      let filepath := Path.join (STORAGE_DIR env) filename in
      try_catch
        (let* content := readFile env filepath in
         ret [ {| c_uri := uri; c_mimeType := mimeOfFile filename;
                  blob := base64 content |} ])
        (fun error =>
           match code_of error with
           | Some "ENOENT" =>
               throw (McpError 404
                        ("Image not found: " +:+ filename
                           +:+ ". Please check if the file exists in the storage directory."))
           | _ =>
               throw (McpError InternalError
                        ("Failed to read image: " +:+ message_of error))
           end)
  end.

(** The paths handed to the viewer so far. *)
Definition opened (w : World) : list string :=
  flat_map (fun e => match e with EOpen p => [p] | _ => [] end) (trace w).

(** [fs.access(p)] resolves: a file of the world stands at [p], or
    something else the environment lets through (a directory). *)
Definition accessible (env : Env) (w : World) (p : string) : Prop :=
  is_Some (files w !! p) \/ access_other env p = None.

(** One round of the loop that fills [filesByType]: the file is pushed
    on the array of its key, a new key going after the others.  (The
    keys are extensions of listed files, so none is an index or a
    member of [Object.prototype], and [Object.entries] gives them in
    this order.) *)
Fixpoint push_file (ext file : string) (groups : list (string * list string))
  : list (string * list string) :=
  match groups with
  | [] => [(ext, [file])]
  | (k, typeFiles) :: rest =>
      if String.eqb k ext then (k, typeFiles ++ [file])%list :: rest
      else (k, typeFiles) :: push_file ext file rest
  end.

Definition filesByType (files : list string) : list (string * list string) :=
  fold_left (fun groups file => push_file (ext_of file) file groups) files [].

(** What one round of the loop over [Object.entries(filesByType)] adds
    to [resultText]. *)
Definition section_text (group : string * list string) : string :=
  let (type, typeFiles) := group in
  (Js.toUpperCase type +:+ " Files (" +:+ pretty (length typeFiles) +:+ "):" +:+ Js.nl)
  +:+ Js.join Js.nl (map (fun f => "• " +:+ f) typeFiles)
  +:+ (Js.nl +:+ Js.nl).

(** [files.slice(-n)] *)
Definition lastn {A} (n : nat) (l : list A) : list A := skipn (length l - n) l.

Definition no_images : ToolResult :=
  {| content := ["No stored images found. Try generating some images first!"];
     isError := false |}.

(** The [list_images] case of the tool-call handler. *)
Definition list_images (env : Env) : M ToolResult :=
  try_catch
    (let* files := listStoredImages env in
     match files with
     | [] => ret no_images
     | _ =>
         let resultText := "📁 Stored images:" +:+ Js.nl +:+ Js.nl in
         let resultText :=
           fold_left (fun text group => text +:+ section_text group)
             (filesByType files) resultText in
         let resultText :=
           resultText +:+ "Total: " +:+ pretty (length files) +:+ " file(s)" in
         let recentFiles := lastn 5 files in
         let fileUrls :=
           map (fun file => "file://" +:+ Path.join (STORAGE_DIR env) file) recentFiles in
         ret {| content :=
                  resultText ::
                  match fileUrls with
                  | [] => []
                  | _ => [ Js.nl +:+ "Recent images:" +:+ Js.nl
                             +:+ Js.join Js.nl (map (fun url => "• " +:+ url) fileUrls) ]
                  end;
                isError := false |}
     end)
    (fun error =>
       errorResponse {| type := STORAGE_ERROR;
                        message := "Error listing images: "
                                   +:+ (if is_Error error then message_of error
                                        else "Unknown error");
                        details := None |}).

(** The files filed under a key. *)
Fixpoint filed_under (ext : string) (groups : list (string * list string)) : list string :=
  match groups with
  | [] => []
  | (k, typeFiles) :: rest => if String.eqb k ext then typeFiles else filed_under ext rest
  end.

(** The handler of [CallToolRequestSchema]: the prologue, then the
    [switch] on [request.params.name].  [args] and [filename] are what
    the cases read of [request.params.arguments]. *)
Definition handleCallTool (env : Env) (name : string) (args : GenerateArgs)
    (filename : option string) : M ToolResult :=
  callTool env
    (if String.eqb name "generate_image" then generate_image env args
     else if String.eqb name "list_images" then list_images env
     else if String.eqb name "view_image" then view_image env filename
     else errorResponse {| type := VALIDATION_ERROR;
                           message := "Unknown tool: " +:+ name;
                           details := None |}).

(** *** More sample environments *)

Definition with_disk (env : Env) (mkdir_answers : string -> option thrown)
    (entries : Outcome (list string)) : Env :=
  {| STORAGE_DIR := STORAGE_DIR env; clock := clock env;
     mkdir_result := mkdir_answers;
     create_result := create_result env; poll_result := poll_result env;
     fetch_result := fetch_result env; optimize_result := optimize_result env;
     sharp_result := sharp_result env; write_result := write_result env;
     open_result := open_result env;
     access_other := access_other env; read_other := read_other env;
     lower_other := lower_other env;
     readdir_result := entries |}.

Definition denied (p : string) : thrown :=
  JsErrno "EACCES" ("EACCES: permission denied, mkdir '" +:+ p +:+ "'").

(** The storage directory holds three entries, one of them no image. *)
Definition env_gallery : Env :=
  with_disk env_fine (fun _ => None) (Ok ["logo.png"; "notes.txt"; "sketch.SVG"]).

(** No directory can be created. *)
Definition env_readonly : Env :=
  with_disk env_fine (fun p => Some (denied p)) (Ok []).

(** Only the storage directory can be created. *)
Definition env_no_site : Env :=
  with_disk env_fine
    (fun p => if String.eqb p "/srv/everart/images" then None else Some (denied p))
    (Ok []).

(** A no-break space (U+00A0) and an ideographic space (U+3000), in
    UTF-8. *)
Definition nbsp : string := String (ascii_of_nat 194) (String (ascii_of_nat 160) "").
Definition ideographic_space : string :=
  String (ascii_of_nat 227) (String (ascii_of_nat 128) (String (ascii_of_nat 128) "")).

(** A world with a file beside the storage directory. *)
Definition world_with_secret : World :=
  {| trace := []; files := {[ "/srv/everart/secret.txt" := "key" ]};
     creates := 0; fetches := 0 |}.

(** The generation service is unreachable and the image host asks for
    two seconds of patience. *)
Definition env_jammed : Env :=
  script "2024-05-01T10:20:30.123Z" (fun _ => Throw (JsError "socket hang up")) job_done
    (fun _ => Ok (busy_response (Some "2"))) (fun _ _ => WriteDone) None.


Definition explicit_run : Outcome string * World :=
  saveImage env_fine "https://cdn/img" "A logo" "5000" (Some "png")
    (Some "out/logo.png") None None None world0.

Definition gallery_listing : Outcome (list Resource) * World :=
  listResources env_gallery world_with_logo.

(** ** Running the definitions *)

Example extname_plain : Path.extname "logo.png" = ".png".
Proof. reflexivity. Qed.
Example extname_dir : Path.extname "out.d/logo" = "".
Proof. reflexivity. Qed.
Example extname_hidden : Path.extname ".bashrc" = "".
Proof. reflexivity. Qed.
Example extname_trailing_dot : Path.extname "file." = ".".
Proof. reflexivity. Qed.
Example extname_dotdot : Path.extname ".." = "".
Proof. reflexivity. Qed.
Example extname_two : Path.extname "a/b.tar.gz" = ".gz".
Proof. reflexivity. Qed.
Example extname_trailing_slash : Path.extname "file.ext/" = ".ext".
Proof. reflexivity. Qed.
Example extname_trailing_slashes : Path.extname "file.ext//" = ".ext".
Proof. reflexivity. Qed.
Example extname_slash_noext : Path.extname "file/" = "".
Proof. reflexivity. Qed.
Example dirname_file : Path.dirname "out/logo.png" = "out".
Proof. reflexivity. Qed.
Example dirname_bare : Path.dirname "file..png" = ".".
Proof. reflexivity. Qed.
Example dirname_root : Path.dirname "/logo.png" = "/".
Proof. reflexivity. Qed.
Example dirname_trailing : Path.dirname "a/b/" = "a".
Proof. reflexivity. Qed.
Example dirname_deep : Path.dirname "/a/b/c.svg" = "/a/b".
Proof. reflexivity. Qed.
Example join_plain : Path.join "/srv/images" "a.png" = "/srv/images/a.png".
Proof. reflexivity. Qed.
Example join_dots : Path.join "/srv/images" "../x/./y//z.png" = "/srv/x/y/z.png".
Proof. reflexivity. Qed.
Example join_relative : Path.join "site" "../../a/" = "../a/".
Proof. reflexivity. Qed.
Example join_above_root : Path.join "/" "../a" = "/a".
Proof. reflexivity. Qed.
Example join_empty : Path.join "" "" = ".".
Proof. reflexivity. Qed.
Example join_nested : Path.join (Path.join "/w" "public") "assets/images" = "/w/public/assets/images".
Proof. reflexivity. Qed.
Example parseInt_7 : Js.parseInt10 "7" = Some 7.
Proof. reflexivity. Qed.
Example parseInt_date : Js.parseInt10 "Wed, 21 Oct 2015 07:28:00 GMT" = None.
Proof. reflexivity. Qed.
Example parseInt_120s : Js.parseInt10 " 120s" = Some 120.
Proof. reflexivity. Qed.
Example trim_blank : Js.trim "   " = "".
Proof. reflexivity. Qed.
Example trim_word : Js.trim "  a b " = "a b".
Proof. reflexivity. Qed.
Example trim_unicode_blank : Js.trim (nbsp +:+ " " +:+ ideographic_space) = "".
Proof. reflexivity. Qed.
Example trim_unicode_word :
  Js.trim (nbsp +:+ "a" +:+ nbsp +:+ "b" +:+ ideographic_space) = "a" +:+ nbsp +:+ "b".
Proof. reflexivity. Qed.
Example trim_keeps_other_bytes : Js.trim "é" = "é".
Proof. reflexivity. Qed.
Example units_accented : length (Js.units "café") = 4%nat /\ String.length "café" = 5%nat.
Proof. split; reflexivity. Qed.
Example sanitize_accented : sanitizePrompt "Café au lait" = "caf__au_lait".
Proof. reflexivity. Qed.
Example sanitize_long : sanitizePrompt "A red fox, jumping over the dog" = "a_red_fox__jumping_o".
Proof. reflexivity. Qed.
Example parseInt_signed : Js.parseInt10 (nbsp +:+ "-12.5") = Some (-12).
Proof. reflexivity. Qed.
Example parseInt_rounds :
  Js.parseInt10 "9007199254740993" = Some 9007199254740992
  /\ Js.parseInt10 "9007199254740995" = Some 9007199254740996.
Proof. split; reflexivity. Qed.
Example times_rounds : Js.times (Some 9007199254740991) 1000 = Some 9007199254740990976.
Proof. reflexivity. Qed.
Example before_colon : Js.before ":" "8000:Recraft-Vector" = "8000".
Proof. reflexivity. Qed.
Example afterLast_us : Js.afterLast "_" "a_b_c.png" = "c.png".
Proof. reflexivity. Qed.
Example afterLast_none : Js.afterLast "_" "abc" = "abc".
Proof. reflexivity. Qed.
Example includes_mid : Js.includes "Failed to fetch image: x" "fetch" = true.
Proof. reflexivity. Qed.
Example lower_mixed : Js.toLowerCase "SvG1" = "svg1".
Proof. reflexivity. Qed.

(** ** Validation *)

Lemma or_else_lower_svg (f d : string) :
  Js.toLowerCase f = "svg" -> Js.or_else (Some f) d = f.
Proof. destruct f; [discriminate | reflexivity]. Qed.

Lemma incompatible_iff (model format : string) :
  validateModelFormatCompatibility model format = false <->
  Js.toLowerCase format = "svg" /\ model <> "8000".
Proof.
  unfold validateModelFormatCompatibility.
  destruct (String.eqb_spec (Js.toLowerCase format) "svg") as [E|E];
    destruct (String.eqb_spec model "8000") as [E'|E']; simpl;
    split; try discriminate; try tauto; intros [? ?]; tauto.
Qed.

Lemma errorResponse_eq (e : EverArtError) (w : World) :
  errorResponse e w =
  (Ok {| content := ("Error: " +:+ message e) ::
                    match Js.truthy (details e) with Some d => ["Details: " +:+ d] | None => [] end;
         isError := true |},
   emit (EConsole ErrorLevel ("[" +:+ type_name (type e) +:+ "] " +:+ message e
                                +:+ " " +:+ Js.or_else (details e) "")) w).
Proof. reflexivity. Qed.

Lemma network_calls_emit_console (lvl : Level) (t : string) (w : World) :
  network_calls (emit (EConsole lvl t) w) = network_calls w.
Proof.
  unfold network_calls, emit. simpl. rewrite filter_app. simpl.
  rewrite filter_cons_False, filter_nil by (simpl; discriminate).
  apply app_nil_r.
Qed.

Lemma bind_ret_l {A B} (a : A) (k : A -> M B) (w : World) :
  bind (ret a) k w = k a w.
Proof. reflexivity. Qed.

Lemma bind_console_ret {A B} (lvl : Level) (t : string) (a : A) (k : A -> M B) (w : World) :
  bind (console lvl t ;; ret a) k w = k a (emit (EConsole lvl t) w).
Proof. reflexivity. Qed.

Lemma validate_rejects_svg (args : GenerateArgs) (f : string) (w : World) :
  a_format args = Some f -> Js.toLowerCase f = "svg" -> model_id args <> "8000" ->
  exists msg w1,
    validate args w =
      (let* r := errorResponse (failure VALIDATION_ERROR msg) in ret (inl r)) w1
    /\ network_calls w1 = network_calls w.
Proof.
  intros Hf Hsvg Hm. unfold validate, model_id in *.
  destruct (Js.truthy (a_prompt args)) as [prompt|]; [|eauto].
  destruct (String.eqb (Js.trim prompt) ""); [eauto|].
  destruct ((count_or_1 (a_image_count args) <? 1) || (count_or_1 (a_image_count args) >? 10)); [eauto|].
  rewrite Hf.
  set (m0 := Js.or_else (a_model args) "5000") in *.
  assert (Hno : forall m, m <> "8000" -> validateModelFormatCompatibility m f = false)
    by (intros; apply incompatible_iff; auto).
  destruct (Js.has_char ":" m0);
    [rewrite bind_console_ret | rewrite bind_ret_l];
    (destruct (negb (Js.arr_includes validModels _));
      [eexists _, _; split; [reflexivity | try apply network_calls_emit_console; reflexivity]|]);
    rewrite (or_else_lower_svg _ _ Hsvg), Hsvg, (Hno _ Hm); simpl;
    (eexists _, _; split; [reflexivity | try apply network_calls_emit_console; reflexivity]).
Qed.

Lemma network_calls_errorResponse (e : EverArtError) (w : World) :
  network_calls (snd (errorResponse e w)) = network_calls w.
Proof. rewrite errorResponse_eq. apply network_calls_emit_console. Qed.

(** The prologue of the handler answers for the storage directory
    before any case is entered. *)
Lemma callTool_storage_failure (env : Env) (tool : M ToolResult) (e : thrown) (w : World) :
  mkdir_result env (STORAGE_DIR env) = Some e ->
  returns_failure STORAGE_ERROR (callTool env tool w).
Proof.
  intros He.
  unfold callTool, bind, attempt, ensureStorageDir, try_catch, mkdir, bind, emitM, of_result.
  rewrite He. simpl. eexists _, _. reflexivity.
Qed.

Lemma callTool_enters_case (env : Env) (tool : M ToolResult) (w : World) :
  mkdir_result env (STORAGE_DIR env) = None ->
  callTool env tool w = tool (emit (EMkdir (STORAGE_DIR env)) w).
Proof.
  intros He.
  unfold callTool, bind, attempt, ensureStorageDir, try_catch, mkdir, bind, emitM, of_result.
  rewrite He. reflexivity.
Qed.

(** C1.  A request whose format is svg (in any letter case) and whose
    model id is not 8000 makes [generate_image] return the error
    response of a Validation failure, with no network call made on the
    way; and [saveImage], reached with such a format and model, throws
    before it does anything: the same check stands at both places. *)
Theorem svg_needs_vector_model (env : Env) (args : GenerateArgs) (f : string) (w : World) :
  a_format args = Some f -> Js.toLowerCase f = "svg" -> model_id args <> "8000" ->
  returns_failure VALIDATION_ERROR (generate_image env args w)
  /\ network_calls (snd (generate_image env args w)) = network_calls w
  /\ forall imageUrl prompt model outputPath webProjectPath projectType assetPath w',
       model <> "8000" ->
       exists msg,
         saveImage env imageUrl prompt model (Some f) outputPath webProjectPath
           projectType assetPath w' = (Throw (JsError msg), w').
Proof.
  intros Hf Hsvg Hm.
  destruct (validate_rejects_svg args f w Hf Hsvg Hm) as (msg & w1 & Hv & Hn).
  assert (Hg : generate_image env args w = errorResponse (failure VALIDATION_ERROR msg) w1).
  { unfold generate_image, try_catch, bind at 1. rewrite Hv. reflexivity. }
  split; [exists msg, w1; exact Hg|]. split.
  - rewrite Hg, network_calls_errorResponse. exact Hn.
  - intros. unfold saveImage, saveImage_rejects. change (default "svg" (Some f)) with f. rewrite Hsvg.
    replace (validateModelFormatCompatibility model "svg") with false
      by (symmetry; apply incompatible_iff; auto).
    simpl. eexists. reflexivity.
Qed.

Lemma validate_accepts (args : GenerateArgs) (p f : string) (w : World) :
  Js.truthy (a_prompt args) = Some p ->
  Js.trim p <> "" ->
  1 <= count_or_1 (a_image_count args) <= 10 ->
  In (model_id args) validModels ->
  Js.or_else (a_format args) (if String.eqb (model_id args) "8000" then "svg" else "png") = f ->
  In (Js.toLowerCase f) supportedFormats ->
  validateModelFormatCompatibility (model_id args) f = true ->
  exists w1,
    validate args w =
      (Ok (inr {| v_prompt := p; v_model := model_id args; v_format := f;
                  v_count := count_or_1 (a_image_count args) |}), w1)
    /\ network_calls w1 = network_calls w
    /\ creates w1 = creates w /\ fetches w1 = fetches w /\ files w1 = files w.
Proof.
  intros Hp Ht Hc Hm Hf Hs Hv. unfold validate, model_id in *. rewrite Hp.
  destruct (String.eqb_spec (Js.trim p) ""); [contradiction|].
  replace ((count_or_1 (a_image_count args) <? 1) || (count_or_1 (a_image_count args) >? 10))
    with false by (symmetry; apply orb_false_iff; split; lia).
  set (m0 := Js.or_else (a_model args) "5000") in *.
  assert (Hin : forall l x, In x l -> Js.arr_includes l x = true).
  { intros l x Hx. unfold Js.arr_includes. apply existsb_exists. exists x.
    split; [exact Hx | apply String.eqb_refl]. }
  destruct (Js.has_char ":" m0);
    [rewrite bind_console_ret | rewrite bind_ret_l];
    rewrite (Hin _ _ Hm), Hf, (Hin _ _ Hs), Hv; simpl;
    eexists; (split; [reflexivity|]);
    (split; [try apply network_calls_emit_console; reflexivity | auto]).
Qed.

(** C10.  On the supported formats, [validateModelFormatCompatibility]
    rejects exactly svg with a model other than 8000: every other
    format is accepted for every model, and the model 8000 with a
    raster format passes the check of [saveImage] and the validation of
    [generate_image]. *)
Theorem compatibility_rejects_only_svg_off_vector (model format : string) :
  In format supportedFormats ->
  (format <> "svg" -> validateModelFormatCompatibility model format = true)
  /\ (validateModelFormatCompatibility model format = false <->
      format = "svg" /\ model <> "8000")
  /\ (format <> "svg" ->
      saveImage_rejects "8000" format = None
      /\ forall (args : GenerateArgs) (p : string) (w : World),
           Js.truthy (a_prompt args) = Some p -> Js.trim p <> "" ->
           1 <= count_or_1 (a_image_count args) <= 10 ->
           model_id args = "8000" -> a_format args = Some format ->
           exists v w1, validate args w = (Ok (inr v), w1)
                        /\ v_model v = "8000" /\ v_format v = format).
Proof.
  intros Hin.
  assert (Hlow : Js.toLowerCase format = format).
  { simpl in Hin. decompose [or] Hin; subst; try reflexivity; contradiction. }
  assert (Hiff : validateModelFormatCompatibility model format = false <->
                 format = "svg" /\ model <> "8000").
  { rewrite incompatible_iff, Hlow. tauto. }
  assert (Hraster : forall m, format <> "svg" -> validateModelFormatCompatibility m format = true).
  { intros m Hne. destruct (validateModelFormatCompatibility m format) eqn:E; [reflexivity|].
    apply incompatible_iff in E. rewrite Hlow in E. tauto. }
  split; [apply Hraster|]. split; [exact Hiff|].
  intros Hne. split.
  - unfold saveImage_rejects. rewrite (Hraster _ Hne).
    simpl in Hin. decompose [or] Hin; subst; try reflexivity; contradiction.
  - intros args p w Hp Ht Hc Hm Hf.
    assert (Hor : Js.or_else (a_format args)
                    (if String.eqb (model_id args) "8000" then "svg" else "png") = format).
    { rewrite Hf. simpl in Hin. decompose [or] Hin; subst; try reflexivity; contradiction. }
    destruct (validate_accepts args p format w Hp Ht Hc) as (w1 & Hv & _).
    + rewrite Hm. simpl. tauto.
    + exact Hor.
    + rewrite Hlow. exact Hin.
    + apply Hraster, Hne.
    + eexists _, w1. rewrite Hv, Hm. split; [reflexivity | split; reflexivity].
Qed.

Lemma count_check (c : Z) :
  ((count_or_1 (Some c) <? 1) || (count_or_1 (Some c) >? 10) = true <->
   c <> 0 /\ (c < 1 \/ 10 < c)).
Proof.
  unfold count_or_1. destruct (Z.eqb_spec c 0) as [->|Hc]; simpl.
  - split; [discriminate | intros [? _]; contradiction].
  - rewrite orb_true_iff, Z.ltb_lt, Z.gtb_gt. split; [intros; split; [assumption | lia] | intros [_ ?]; lia].
Qed.

Lemma count_outside_rejected_unless_zero (env : Env) (args : GenerateArgs) (c : Z) (w : World) :
  a_image_count args = Some c -> c <> 0 -> c < 1 \/ 10 < c ->
  returns_failure VALIDATION_ERROR (generate_image env args w)
  /\ network_calls (snd (generate_image env args w)) = network_calls w.
Proof.
  intros Hc H0 Hr.
  assert (Hg : exists msg, generate_image env args w = errorResponse (failure VALIDATION_ERROR msg) w).
  { unfold generate_image, try_catch, bind at 1, validate. rewrite Hc.
    destruct (Js.truthy (a_prompt args)) as [p|]; [|eexists; reflexivity].
    destruct (String.eqb (Js.trim p) ""); [eexists; reflexivity|].
    replace ((count_or_1 (Some c) <? 1) || (count_or_1 (Some c) >? 10)) with true
      by (symmetry; apply count_check; auto).
    eexists; reflexivity. }
  destruct Hg as [msg Hg]. split; [exists msg, w; exact Hg|].
  rewrite Hg. apply network_calls_errorResponse.
Qed.

Lemma count_inside_passes (c : Z) :
  1 <= c <= 10 ->
  count_or_1 (Some c) = c /\ (count_or_1 (Some c) <? 1) || (count_or_1 (Some c) >? 10) = false.
Proof.
  intros Hc. unfold count_or_1. destruct (Z.eqb_spec c 0); [lia|].
  split; [reflexivity | apply orb_false_iff; split; lia].
Qed.

(** C2.  The specification rejects every count outside [1,10], 0
    included.  The code reads the count as [args.image_count || 1], so
    0 becomes 1 before the range check: the request passes validation,
    the job is submitted for one image and the tool reports success. *)
Theorem count_zero_is_not_rejected :
  (forall w, validate zero_count w =
     (Ok (inr {| v_prompt := "A landscape"; v_model := "5000";
                 v_format := "png"; v_count := 1 |}), w))
  /\ (exists r, fst (generate_image env_fine zero_count world0) = Ok r
                 /\ isError r = false)
  /\ In (ECreate "5000" "A landscape" 1 false)
        (trace (snd (generate_image env_fine zero_count world0))).
Proof.
  split; [reflexivity|]. split.
  - eexists. split; [vm_compute; reflexivity | reflexivity].
  - vm_compute. tauto.
Qed.

(** ** The two retry loops *)

Section Loops.

Variable env : Env.
Variable M : nat.
Variables modelInput prompt url : string.
Variable image_count : Z.

Lemma submit_loop_step (fuel rc : nat) (w : World) :
  (rc < M)%nat ->
  submit_loop env M (S fuel) modelInput prompt image_count rc w =
  let w1 := snd (generations_create env modelInput prompt image_count
                   (String.eqb modelInput "8000") w) in
  match create_result env (creates w) with
  | Ok generation => (Ok generation, w1)
  | Throw error =>
      if (M - 1 <=? rc)%nat then (Throw error, w1)
      else submit_loop env M fuel modelInput prompt image_count (S rc)
             (emit (ESleep (backoff rc)) w1)
  end.
Proof.
  intros Hrc. simpl. apply Nat.ltb_lt in Hrc. rewrite Hrc.
  unfold bind, attempt, generations_create. simpl.
  destruct (create_result env (creates w)); [reflexivity|].
  destruct (M - 1 <=? rc)%nat; reflexivity.
Qed.

Lemma submit_loop_runs (j : nat) : forall (fuel rc : nat) (w : World),
  (rc + j < M)%nat -> (j < fuel)%nat ->
  (forall k, (k < j)%nat -> create_failed (create_result env (creates w + k))) ->
  (rc + j = M - 1)%nat \/ ~ create_failed (create_result env (creates w + j)) ->
  exists w',
    submit_loop env M fuel modelInput prompt image_count rc w =
      (create_result env (creates w + j), w')
    /\ creates w' = (creates w + j + 1)%nat
    /\ fetches w' = fetches w /\ files w' = files w.
Proof.
  induction j as [|j IH]; intros fuel rc w Hrc Hfuel Hfail Hlast;
    (destruct fuel as [|fuel]; [lia|]); rewrite submit_loop_step by lia.
  - rewrite !Nat.add_0_r in *.
    destruct (create_result env (creates w)) eqn:E.
    + eexists. split; [reflexivity|]. simpl. repeat split; lia.
    + destruct Hlast as [Hl | Hl]; [|exfalso; apply Hl; exact I].
      replace (M - 1 <=? rc)%nat with true by (symmetry; apply Nat.leb_le; lia).
      eexists. split; [reflexivity|]. simpl. repeat split; lia.
  - pose proof (Hfail 0%nat ltac:(lia)) as H0. rewrite Nat.add_0_r in H0.
    destruct (create_result env (creates w)) eqn:E; [destruct H0|].
    replace (M - 1 <=? rc)%nat with false by (symmetry; apply Nat.leb_gt; lia).
    cbv zeta.
    match goal with |- context [submit_loop _ _ _ _ _ _ _ ?x] => set (w2 := x) end.
    assert (Hc : creates w2 = S (creates w)) by reflexivity.
    destruct (IH fuel (S rc) w2) as (w' & Hrun & Hcr & Hfe & Hfi).
    + lia.
    + lia.
    + intros k Hk. rewrite Hc. replace (S (creates w) + k)%nat with (creates w + S k)%nat by lia.
      apply Hfail. lia.
    + rewrite Hc. replace (S (creates w) + j)%nat with (creates w + S j)%nat by lia.
      destruct Hlast; [left; lia | right; assumption].
    + exists w'. rewrite Hrun, Hc.
      replace (S (creates w) + j)%nat with (creates w + S j)%nat by lia.
      split; [reflexivity|]. rewrite Hcr, Hfe, Hfi, Hc. repeat split; lia.
Qed.

Lemma fetch_loop_step (fuel rc : nat) (response : option Response) (w : World) :
  (rc < M)%nat ->
  fetch_loop env M (S fuel) url rc response w =
  let w1 := snd (fetch env url 30000 w) in
  let on_error (error : thrown) (response : option Response) :=
    if (M - 1 <=? rc)%nat then (Throw error, w1)
    else fetch_loop env M fuel url (S rc) response (emit (ESleep (backoff rc)) w1) in
  match fetch_result env (fetches w) with
  | Ok r =>
      if ok r then (Ok (Some r), w1)
      else if status r =? 429 then
        fetch_loop env M fuel url (S rc) (Some r) (emit (ESleep (retryAfterMs r)) w1)
      else
        on_error (JsError ("Failed to fetch image: " +:+ statusText r
                             +:+ " (" +:+ pretty (status r) +:+ ")")) (Some r)
  | Throw error => on_error error response
  end.
Proof.
  intros Hrc. simpl. apply Nat.ltb_lt in Hrc. rewrite Hrc.
  unfold bind, attempt, fetch. simpl.
  destruct (fetch_result env (fetches w)) as [r|e].
  - destruct (ok r); [reflexivity|]. destruct (status r =? 429); [reflexivity|].
    destruct (M - 1 <=? rc)%nat; reflexivity.
  - destruct (M - 1 <=? rc)%nat; reflexivity.
Qed.

Lemma fetch_loop_done (fuel rc : nat) (response : option Response) (w : World) :
  (M <= rc)%nat ->
  fetch_loop env M fuel url rc response w = (Ok response, w).
Proof.
  intros Hrc. destruct fuel; [reflexivity|]. simpl.
  replace (rc <? M)%nat with false by (symmetry; apply Nat.ltb_ge; lia). reflexivity.
Qed.

Lemma fetch_loop_runs (j : nat) : forall (fuel rc : nat) (response : option Response) (w : World),
  (rc + j < M)%nat -> (j < fuel)%nat ->
  (forall k, (k < j)%nat -> fetch_failed (fetch_result env (fetches w + k))) ->
  (rc + j = M - 1)%nat \/ ~ fetch_failed (fetch_result env (fetches w + j)) ->
  exists w',
    fetch_loop env M fuel url rc response w
      = (loop_end (fetch_result env (fetches w + j)), w')
    /\ fetches w' = (fetches w + j + 1)%nat
    /\ creates w' = creates w /\ files w' = files w.
Proof.
  induction j as [|j IH]; intros fuel rc response w Hrc Hfuel Hfail Hlast;
    (destruct fuel as [|fuel]; [lia|]); rewrite fetch_loop_step by lia.
  - rewrite !Nat.add_0_r in *. unfold loop_end.
    destruct (fetch_result env (fetches w)) as [r|e] eqn:E; simpl.
    + destruct (ok r) eqn:Hok; simpl.
      * eexists. split; [reflexivity|]. simpl. repeat split; lia.
      * destruct Hlast as [Hl | Hl]; [|exfalso; apply Hl; exact Hok].
        destruct (status r =? 429).
        -- rewrite fetch_loop_done by lia.
           eexists. split; [reflexivity|]. simpl. repeat split; lia.
        -- replace (M - 1 <=? rc)%nat with true by (symmetry; apply Nat.leb_le; lia).
           eexists. split; [reflexivity|]. simpl. repeat split; lia.
    + destruct Hlast as [Hl | Hl]; [|exfalso; apply Hl; exact I].
      replace (M - 1 <=? rc)%nat with true by (symmetry; apply Nat.leb_le; lia).
      eexists. split; [reflexivity|]. simpl. repeat split; lia.
  - pose proof (Hfail 0%nat ltac:(lia)) as H0. rewrite Nat.add_0_r in H0.
    assert (Hnext : forall (resp : option Response) (w2 : World),
               fetches w2 = S (fetches w) -> creates w2 = creates w -> files w2 = files w ->
               exists w',
                 fetch_loop env M fuel url (S rc) resp w2
                   = (loop_end (fetch_result env (fetches w + S j)), w')
                 /\ fetches w' = (fetches w + S j + 1)%nat
                 /\ creates w' = creates w /\ files w' = files w).
    { intros resp w2 Hf Hc Hfi.
      destruct (IH fuel (S rc) resp w2) as (w' & Hrun & Hfe & Hcr & Hfl).
      - lia.
      - lia.
      - intros k Hk. rewrite Hf.
        replace (S (fetches w) + k)%nat with (fetches w + S k)%nat by lia.
        apply Hfail. lia.
      - rewrite Hf. replace (S (fetches w) + j)%nat with (fetches w + S j)%nat by lia.
        destruct Hlast; [left; lia | right; assumption].
      - exists w'. rewrite Hrun, Hf.
        replace (S (fetches w) + j)%nat with (fetches w + S j)%nat by lia.
        split; [reflexivity|]. rewrite Hfe, Hcr, Hfl, Hf, Hc, Hfi. repeat split; lia. }
    replace (M - 1 <=? rc)%nat with false by (symmetry; apply Nat.leb_gt; lia).
    destruct (fetch_result env (fetches w)) as [r|e] eqn:E; simpl in *.
    + rewrite H0. destruct (status r =? 429); apply Hnext; reflexivity.
    + apply Hnext; reflexivity.
Qed.

Lemma fetch_loop_budget : forall (fuel rc : nat) (response : option Response) (w : World),
  (fetches (snd (fetch_loop env M fuel url rc response w)) <= fetches w + (M - rc))%nat.
Proof.
  induction fuel as [|fuel IH]; intros rc response w; [simpl; lia|].
  destruct (Nat.ltb_spec rc M) as [Hrc|Hrc];
    [|rewrite fetch_loop_done by lia; simpl; lia].
  rewrite fetch_loop_step by lia. simpl.
  assert (Hrec : forall resp w2, fetches w2 = S (fetches w) ->
            (fetches (snd (fetch_loop env M fuel url (S rc) resp w2)) <= fetches w + (M - rc))%nat).
  { intros resp w2 Hw2. specialize (IH (S rc) resp w2). rewrite Hw2 in IH. lia. }
  destruct (fetch_result env (fetches w)) as [r|e].
  - destruct (ok r); [simpl; lia|].
    destruct (status r =? 429); [apply Hrec; reflexivity|].
    destruct (M - 1 <=? rc)%nat; [simpl; lia | apply Hrec; reflexivity].
  - destruct (M - 1 <=? rc)%nat; [simpl; lia | apply Hrec; reflexivity].
Qed.

Lemma fetch_loop_extends : forall (fuel rc : nat) (response : option Response) (w : World),
  exists evs,
    trace (snd (fetch_loop env M fuel url rc response w)) = (trace w ++ evs)%list.
Proof.
  induction fuel as [|fuel IH]; intros rc response w;
    [exists []; simpl; rewrite app_nil_r; reflexivity|].
  destruct (Nat.ltb_spec rc M) as [Hrc|Hrc];
    [|rewrite fetch_loop_done by lia; exists []; simpl; rewrite app_nil_r; reflexivity].
  rewrite fetch_loop_step by lia. cbv zeta.
  assert (Hrec : forall resp ev,
            exists evs,
              trace (snd (fetch_loop env M fuel url (S rc) resp
                            (emit ev (snd (fetch env url 30000 w)))))
              = (trace w ++ evs)%list).
  { intros resp ev. destruct (IH (S rc) resp (emit ev (snd (fetch env url 30000 w))))
      as (evs & Hevs).
    exists ([EFetch url 30000; ev] ++ evs)%list. rewrite Hevs. unfold emit, fetch. simpl.
    rewrite <- !app_assoc. reflexivity. }
  assert (Hend : forall (o : Outcome (option Response)),
            exists evs,
              trace (snd (o, snd (fetch env url 30000 w))) = (trace w ++ evs)%list).
  { intros o. exists [EFetch url 30000]. reflexivity. }
  destruct (fetch_result env (fetches w)) as [r|e].
  - destruct (ok r); [apply Hend|].
    destruct (status r =? 429); [apply Hrec|].
    destruct (M - 1 <=? rc)%nat; [apply Hend | apply Hrec].
  - destruct (M - 1 <=? rc)%nat; [apply Hend | apply Hrec].
Qed.

Lemma fetch_loop_begins_with_fetch (fuel rc : nat) (response : option Response) (w : World) :
  (rc < M)%nat ->
  exists evs,
    trace (snd (fetch_loop env M (S fuel) url rc response w))
    = (trace w ++ EFetch url 30000 :: evs)%list.
Proof.
  intros Hrc. rewrite fetch_loop_step by exact Hrc. cbv zeta.
  assert (Hrec : forall resp ev,
            exists evs,
              trace (snd (fetch_loop env M fuel url (S rc) resp
                            (emit ev (snd (fetch env url 30000 w)))))
              = (trace w ++ EFetch url 30000 :: evs)%list).
  { intros resp ev.
    destruct (fetch_loop_extends fuel (S rc) resp (emit ev (snd (fetch env url 30000 w))))
      as (evs & Hevs).
    exists (ev :: evs). rewrite Hevs. unfold emit, fetch. simpl.
    rewrite <- !app_assoc. reflexivity. }
  assert (Hend : forall (o : Outcome (option Response)),
            exists evs,
              trace (snd (o, snd (fetch env url 30000 w)))
              = (trace w ++ EFetch url 30000 :: evs)%list).
  { intros o. exists []. reflexivity. }
  destruct (fetch_result env (fetches w)) as [r|e].
  - destruct (ok r); [apply Hend|].
    destruct (status r =? 429); [apply Hrec|].
    destruct (M - 1 <=? rc)%nat; [apply Hend | apply Hrec].
  - destruct (M - 1 <=? rc)%nat; [apply Hend | apply Hrec].
Qed.

End Loops.

(** C3 (as amended).  Let the first N-1 attempts fail, N within the
    budget M.  If attempt N succeeds, or N = M, each loop stops after
    exactly N attempts and ends with what attempt N gave, unchanged:
    the submission loop with the value or the very error of the last
    [create] call, the fetch loop as [loop_end] tells (the ok response;
    the last rejection; the error built from the last status; after a
    last 429 the response itself).  No failure is wrapped into an
    exhausted-retries one.  Each loop counts its own attempts and
    leaves the other's count alone. *)
Theorem retry_loops_end_with_last_attempt
    (env : Env) (M N : nat) (modelInput prompt url : string) (image_count : Z) (w : World) :
  (1 <= N <= M)%nat ->
  (forall k, (k < N - 1)%nat -> create_failed (create_result env (creates w + k))) ->
  (forall k, (k < N - 1)%nat -> fetch_failed (fetch_result env (fetches w + k))) ->
  let last_create := create_result env (creates w + (N - 1)) in
  let last_fetch := fetch_result env (fetches w + (N - 1)) in
  (N = M \/ ~ create_failed last_create ->
   exists w',
     submit_loop env M M modelInput prompt image_count 0 w = (last_create, w')
     /\ creates w' = (creates w + N)%nat /\ fetches w' = fetches w)
  /\ (N = M \/ ~ fetch_failed last_fetch ->
      exists w',
        fetch_loop env M M url 0 None w = (loop_end last_fetch, w')
        /\ fetches w' = (fetches w + N)%nat /\ creates w' = creates w).
Proof.
  intros HN Hc Hf last_create last_fetch. split; intros Hlast.
  - destruct (submit_loop_runs env M modelInput prompt image_count (N - 1) M 0 w)
      as (w' & Hrun & Hcr & Hfe & _); try lia; try assumption.
    + destruct Hlast; [left; lia | right; assumption].
    + exists w'. split; [exact Hrun|]. split; [lia | exact Hfe].
  - destruct (fetch_loop_runs env M url (N - 1) M 0 None w)
      as (w' & Hrun & Hfe & Hcr & _); try lia; try assumption.
    + destruct Hlast; [left; lia | right; assumption].
    + exists w'. split; [exact Hrun|]. split; [lia | exact Hcr].
Qed.

(** *** The retry-after hint *)

Lemma toNumber_exact (z : Z) : - 2 ^ 53 < z < 2 ^ 53 -> Js.toNumber z = Some z.
Proof.
  intros Hz. unfold Js.toNumber, Js.round53.
  assert (Habs : Z.abs z < 2 ^ 53) by lia.
  assert (Hlog : Z.log2 (Z.abs z) < 53).
  { destruct (Z.eq_dec (Z.abs z) 0) as [E|E]; [rewrite E; reflexivity|].
    apply Z.log2_lt_pow2; lia. }
  apply Z.ltb_lt in Hlog. rewrite Hlog.
  replace (Z.abs z <? 2 ^ 1024) with true.
  - f_equal. destruct z; reflexivity.
  - symmetry. apply Z.ltb_lt. apply Z.lt_trans with (2 ^ 53); [exact Habs|].
    apply Z.pow_lt_mono_r; lia.
Qed.

Lemma digit_char (d : N) :
  (d < 10)%N ->
  Js.is_digit (pretty_N_char d) = true
  /\ Z.of_nat (nat_of_ascii (pretty_N_char d) - 48) = Z.of_N d.
Proof.
  intros H.
  assert (Hd : (d = 0 \/ d = 1 \/ d = 2 \/ d = 3 \/ d = 4 \/ d = 5 \/ d = 6 \/ d = 7
                \/ d = 8 \/ d = 9)%N) by lia.
  decompose [or] Hd; subst; split; reflexivity.
Qed.

Lemma numeral_app (x : N) : forall s t : string,
  pretty_N_go x s +:+ t = pretty_N_go x (s +:+ t).
Proof.
  induction (N.lt_wf_0 x) as [x _ IH]. intros s t.
  destruct (N.eq_dec x 0%N) as [->|Hx]; [rewrite !pretty_N_go_0; reflexivity|].
  rewrite (pretty_N_go_step x s), (pretty_N_go_step x (s +:+ t)) by lia.
  rewrite IH by (apply N.div_lt; lia). reflexivity.
Qed.

Lemma numeral_head (x : N) : forall s : string,
  (0 < x)%N ->
  exists c t, pretty_N_go x s = String c t /\ Js.is_digit c = true.
Proof.
  induction (N.lt_wf_0 x) as [x _ IH]. intros s Hx.
  rewrite pretty_N_go_step by exact Hx.
  destruct (N.eq_dec (x / 10)%N 0%N) as [E|E].
  - rewrite E, pretty_N_go_0. eexists _, _. split; [reflexivity|].
    apply digit_char, N.mod_lt. discriminate.
  - apply IH; [apply N.div_lt; lia | apply N.neq_0_lt_0; exact E].
Qed.

Lemma digits_numeral (x : N) : forall (s : string) (seen : bool),
  (0 < x)%N ->
  Js.digits 0 seen (pretty_N_go x s) = Js.digits (Z.of_N x) true s.
Proof.
  induction (N.lt_wf_0 x) as [x _ IH]. intros s seen Hx.
  rewrite pretty_N_go_step by exact Hx.
  destruct (digit_char (x mod 10)%N) as [Hd Hv]; [apply N.mod_lt; discriminate|].
  pose proof (N.div_mod x 10%N ltac:(discriminate)) as Hdm.
  destruct (N.eq_dec (x / 10)%N 0%N) as [E|E].
  - rewrite E, pretty_N_go_0. simpl. rewrite Hd, Hv. f_equal. lia.
  - rewrite IH by (first [apply N.div_lt; lia | apply N.neq_0_lt_0; exact E]).
    simpl. rewrite Hd, Hv. f_equal. lia.
Qed.

Lemma digits_stop (v : Z) (tail : string) :
  starts_with_digit tail = false -> Js.digits v true tail = Some v.
Proof. destruct tail as [|c t]; [reflexivity|]. simpl. intros ->. reflexivity. Qed.

Lemma trimStart_digit (c : ascii) (t : string) :
  Js.is_digit c = true -> Js.trimStart (String c t) = String c t.
Proof.
  destruct c as [[] [] [] [] [] [] [] []]; try discriminate; intros _;
    destruct t as [|b [|d t]]; reflexivity.
Qed.

Lemma unsigned_digit (c : ascii) (t : string) :
  Js.is_digit c = true ->
  match String c t with
  | String "-" t' => option_map Z.opp (Js.digits 0 false t')
  | String "+" t' => Js.digits 0 false t'
  | t' => Js.digits 0 false t'
  end = Js.digits 0 false (String c t).
Proof. destruct c as [[] [] [] [] [] [] [] []]; try discriminate; reflexivity. Qed.

(** [parseInt] reads back the decimal numeral of a natural number,
    whatever follows it that is no digit. *)
Lemma parseInt10_numeral (n : N) (tail : string) :
  starts_with_digit tail = false -> Z.of_N n < 2 ^ 53 ->
  Js.parseInt10 (pretty n +:+ tail) = Some (Z.of_N n).
Proof.
  intros Htail Hn.
  assert (Hhead : exists c t, pretty n +:+ tail = String c t /\ Js.is_digit c = true).
  { unfold pretty, pretty_N. case_decide as E.
    - exists "0"%char, tail. split; reflexivity.
    - destruct (numeral_head n "") as (c & t & Hc & Hd); [lia|].
      exists c, (t +:+ tail). rewrite Hc. split; [reflexivity | exact Hd]. }
  assert (Hdigits : Js.digits 0 false (pretty n +:+ tail) = Some (Z.of_N n)).
  { unfold pretty, pretty_N. case_decide as E.
    - subst n. change ("0" +:+ tail) with (String "0" tail). simpl.
      apply digits_stop, Htail.
    - rewrite numeral_app. change ("" +:+ tail) with tail.
      rewrite digits_numeral by lia. apply digits_stop, Htail. }
  destruct Hhead as (c & t & Heq & Hc). unfold Js.parseInt10. rewrite Heq in *.
  rewrite (trimStart_digit c t Hc), (unsigned_digit c t Hc), Hdigits.
  apply toNumber_exact. lia.
Qed.

(** C5 (as amended).  An attempt of the fetch loop answered 429 is
    followed by one wait, of the [retry-after] header read as seconds
    (5 when the header is absent or empty; [n] for a header that is
    the numeral of [n], whatever text follows), and by no
    exponential-backoff wait; the 429 has used one attempt of the
    budget.  When attempts remain the loop then fetches again.  After
    a 429 on the last attempt of the budget it has waited all the
    same but does not retry: it ends with that response. *)
Theorem rate_limited_fetch_waits_retry_after
    (env : Env) (M fuel rc : nat) (url : string) (response : option Response)
    (w : World) (r : Response) :
  (rc < M)%nat -> (M - rc <= fuel)%nat ->
  fetch_result env (fetches w) = Ok r ->
  status r = 429 ->
  let run := fetch_loop env M fuel url rc response w in
  let waited := emit (ESleep (retryAfterMs r)) (snd (fetch env url 30000 w)) in
  trace waited = (trace w ++ [EFetch url 30000; ESleep (retryAfterMs r)])%list
  /\ (Js.truthy (retry_after r) = None -> retryAfterMs r = Some 5000)
  /\ (forall (n : N) (tail : string),
        retry_after r = Some (pretty n +:+ tail) -> starts_with_digit tail = false ->
        Z.of_N n * 1000 < 2 ^ 53 ->
        retryAfterMs r = Some (Z.of_N n * 1000))
  /\ ((S rc < M)%nat ->
      exists rest, trace (snd run) = (trace waited ++ EFetch url 30000 :: rest)%list)
  /\ ((S rc = M)%nat -> run = (Ok (Some r), waited))
  /\ (fetches (snd run) <= fetches w + (M - rc))%nat.
Proof.
  intros Hrc Hfuel Hr Hs run waited.
  assert (Hstep : run = fetch_loop env M (fuel - 1) url (S rc) (Some r) waited).
  { unfold run. destruct fuel as [|fuel]; [lia|].
    rewrite fetch_loop_step by exact Hrc. rewrite Hr. cbv zeta.
    unfold ok. rewrite Hs. simpl. rewrite Nat.sub_0_r. reflexivity. }
  split; [|split; [|split; [|split; [|split]]]].
  - unfold waited, emit, fetch. simpl. rewrite <- app_assoc. reflexivity.
  - intros Hnone. unfold retryAfterMs, Js.or_else. rewrite Hnone. reflexivity.
  - intros n tail Hh Htail Hn. unfold retryAfterMs, Js.or_else. rewrite Hh.
    assert (Htruthy : Js.truthy (Some (pretty n +:+ tail)) = Some (pretty n +:+ tail)).
    { unfold pretty, pretty_N. case_decide; [reflexivity|].
      destruct (numeral_head n "") as (c & t & Hc & _); [lia|]. rewrite Hc. reflexivity. }
    rewrite Htruthy, parseInt10_numeral by (try assumption; lia).
    apply toNumber_exact. lia.
  - intros Hnext. rewrite Hstep.
    destruct (fuel - 1)%nat as [|fuel'] eqn:Ef; [lia|].
    apply fetch_loop_begins_with_fetch. exact Hnext.
  - intros Hlast. rewrite Hstep. apply fetch_loop_done. lia.
  - apply fetch_loop_budget.
Qed.

(** ** Conversion and write *)

(** C6 (as amended).  [materialize] touches no path but the
    destination, and nothing is removed or restored when it fails.
    When the conversion fails, or the write of the converted bytes is
    refused, it fails and the files are as they were.  When the write
    completes it succeeds and the destination holds all the converted
    bytes.  When the write is interrupted it fails and the destination
    holds the bytes that were written by then. *)
Theorem materialize_leaves_what_the_write_left
    (env : Env) (format content filepath : string) (w : World) :
  let r := materialize env format content filepath w in
  (forall q, q <> filepath -> files (snd r) !! q = files w !! q)
  /\ match converted env format content with
     | None => (exists e, fst r = Throw e) /\ files (snd r) = files w
     | Some data =>
         match write_result env filepath data with
         | WriteDone =>
             fst r = Ok tt /\ files (snd r) = <[filepath := data]> (files w)
         | WriteRefused _ =>
             (exists e, fst r = Throw e) /\ files (snd r) = files w
         | WriteInterrupted n _ =>
             (exists e, fst r = Throw e)
             /\ files (snd r) = <[filepath := Js.take n data]> (files w)
         end
     end.
Proof.
  cbv zeta.
  assert (Hwrite : forall (data : string) (ev : Event) (h : thrown -> thrown),
            let r := write env filepath data (emit ev w) in
            let r' := match r with
                      | (Ok a, w') => (Ok a, w')
                      | (Throw e, w') => (Throw (h e), w')
                      end in
            (forall q, q <> filepath -> files (snd r') !! q = files w !! q)
            /\ match write_result env filepath data with
               | WriteDone =>
                   fst r' = Ok tt /\ files (snd r') = <[filepath := data]> (files w)
               | WriteRefused _ =>
                   (exists e, fst r' = Throw e) /\ files (snd r') = files w
               | WriteInterrupted n _ =>
                   (exists e, fst r' = Throw e)
                   /\ files (snd r') = <[filepath := Js.take n data]> (files w)
               end).
  { intros data ev h. cbv zeta. unfold write.
    destruct (write_result env filepath data) as [|e|n e]; cbn [fst snd files emit trace].
    - split; [intros q Hq; apply lookup_insert_ne; congruence | split; reflexivity].
    - split; [reflexivity | split; [eexists; reflexivity | reflexivity]].
    - split; [intros q Hq; apply lookup_insert_ne; congruence|].
      split; [eexists; reflexivity | reflexivity]. }
  assert (Hsharp : forall codec : string,
            let r := try_catch (sharp_toFile env codec 90 content filepath)
                       (fun error =>
                          throw (JsError ("Image processing failed: " +:+ message_of error)))
                       w in
            (forall q, q <> filepath -> files (snd r) !! q = files w !! q)
            /\ match produced (sharp_result env codec content) with
               | None => (exists e, fst r = Throw e) /\ files (snd r) = files w
               | Some data =>
                   match write_result env filepath data with
                   | WriteDone =>
                       fst r = Ok tt /\ files (snd r) = <[filepath := data]> (files w)
                   | WriteRefused _ =>
                       (exists e, fst r = Throw e) /\ files (snd r) = files w
                   | WriteInterrupted n _ =>
                       (exists e, fst r = Throw e)
                       /\ files (snd r) = <[filepath := Js.take n data]> (files w)
                   end
               end).
  { intros codec. cbv zeta. unfold try_catch, sharp_toFile, bind, emitM, of_outcome, throw.
    destruct (sharp_result env codec content) as [data|e]; cbn [produced].
    - apply (Hwrite data (ESharp codec 90)
               (fun e => JsError ("Image processing failed: " +:+ message_of e))).
    - split; [reflexivity | split; [eexists; reflexivity | reflexivity]]. }
  unfold materialize, converted. destruct (String.eqb format "svg").
  - unfold bind, optimize, bind, emitM, of_outcome, writeFile.
    destruct (optimize_result env content) as [data|e]; cbn [produced].
    + pose proof (Hwrite data EOptimize (fun e => e)) as H. cbv zeta in H.
      destruct (write env filepath data (emit EOptimize w)) as [[[]|e] w']; exact H.
    + split; [reflexivity | split; [eexists; reflexivity | reflexivity]].
  - cbv zeta.
    destruct (String.eqb (Js.toLowerCase format) "png"); [apply Hsharp|].
    destruct (_ || _); [apply Hsharp|].
    destruct (String.eqb (Js.toLowerCase format) "webp"); [apply Hsharp|].
    unfold try_catch, throw.
    split; [reflexivity | split; [eexists; reflexivity | reflexivity]].
Qed.


(** ** The pipeline and the viewer *)

(** C7 (as amended).  When the request is valid, the submission
    returns a job, and the polled job record carries no image URL,
    [generate_image] returns the error response of an UNKNOWN_ERROR
    failure with the message "No image URL in the completed
    generation"; after the poll it only logs: nothing is fetched and
    no file is written. *)
Theorem missing_image_url_is_unknown_error
    (env : Env) (args : GenerateArgs) (v : Validated) (first : Generation)
    (rest : list Generation) (job : CompletedGen) (w w1 w2 : World) :
  validate args w = (Ok (inr v), w1) ->
  submit_loop env MAX_RETRIES MAX_RETRIES (v_model v) (v_prompt v) (v_count v) 0 w1
    = (Ok (Some (first :: rest)), w2) ->
  poll_result env (gen_id first) = Ok job ->
  Js.truthy (image_url job) = None ->
  let run := generate_image env args w in
  run = errorResponse (failure UNKNOWN_ERROR no_url_message)
          (emit (EConsole ErrorLevel ("Detailed error: " +:+ no_url_message))
             (emit (EPoll (gen_id first) 30 3000) w2))
  /\ fetches (snd run) = fetches w2
  /\ files (snd run) = files w2.
Proof.
  intros Hv Hs Hp Hu run.
  assert (Hrun : run = errorResponse (failure UNKNOWN_ERROR no_url_message)
          (emit (EConsole ErrorLevel ("Detailed error: " +:+ no_url_message))
             (emit (EPoll (gen_id first) 30 3000) w2))).
  { unfold run, generate_image, try_catch, bind at 1. rewrite Hv.
    unfold pipeline, bind at 1. rewrite Hs.
    unfold bind at 1, fetchWithPolling, bind, emitM, of_outcome. rewrite Hp, Hu.
    reflexivity. }
  split; [exact Hrun|]. rewrite Hrun. split; reflexivity.
Qed.

Lemma announce_never_fails (env : Env) (args : GenerateArgs) (v : Validated)
    (filepath : string) (w : World) :
  exists r w', announce env args v filepath w = (Ok r, w') /\ isError r = false.
Proof.
  unfold announce, bind, try_catch, open, readFile, bind, emitM, of_result, console, emitM, ret.
  destruct (open_result env filepath); simpl;
    destruct (files _ !! filepath); simpl; eexists _, _; split; reflexivity.
Qed.

Lemma announce_warns_when_open_fails (env : Env) (args : GenerateArgs) (v : Validated)
    (filepath : string) (w : World) (e : thrown) :
  open_result env filepath = Some e ->
  exists r w', announce env args v filepath w = (Ok r, w') /\ isError r = false
    /\ In (EConsole WarnLevel ("Could not open the image in default viewer: " +:+ message_of e))
         (trace w').
Proof.
  intros He.
  unfold announce, bind, try_catch, open, readFile, bind, emitM, of_result, console, emitM, ret.
  rewrite He. simpl.
  destruct (files _ !! filepath); simpl; eexists _, _; (split; [reflexivity|]);
    (split; [reflexivity|]); unfold emit; simpl; rewrite !in_app_iff; simpl; tauto.
Qed.

(** C9.  The specification lets no failure of the viewer fail the
    operation.  In [view_image] the call of [open] stands outside any
    [try] of its own: when the stored file exists and [open] rejects,
    the outer [catch] of the case turns the rejection into the error
    response of an UNKNOWN_ERROR failure. *)
Theorem view_image_reports_open_failure
    (env : Env) (filename data : string) (e : thrown) (w : World) :
  filename <> "" ->
  files w !! Path.join (STORAGE_DIR env) filename = Some data ->
  open_result env (Path.join (STORAGE_DIR env) filename) = Some e ->
  let run := view_image env (Some filename) w in
  returns_failure UNKNOWN_ERROR run
  /\ fst run =
       Ok {| content := ["Error: Error viewing image: "
                           +:+ (if is_Error e then message_of e else "Unknown error")];
             isError := true |}.
Proof.
  intros Hn Hf Ho run.
  assert (Hrun : run = errorResponse
            (failure UNKNOWN_ERROR
               ("Error viewing image: " +:+ (if is_Error e then message_of e else "Unknown error")))
            (emit (EOpen (Path.join (STORAGE_DIR env) filename))
               (emit (EReadFile (Path.join (STORAGE_DIR env) filename))
                  (emit (EAccess (Path.join (STORAGE_DIR env) filename)) w)))).
  { unfold run, view_image, try_catch.
    replace (Js.truthy (Some filename)) with (Some filename)
      by (destruct filename; [contradiction | reflexivity]).
    unfold bind, attempt, access, readFile, open, bind, emitM, of_result, ret. rewrite Hf.
    simpl. rewrite Hf. simpl. rewrite Ho. reflexivity. }
  split; [eexists _, _; exact Hrun|]. rewrite Hrun. reflexivity.
Qed.

(** ** Path resolution *)

(** *** Strings *)

Lemma app_cons (c : ascii) (a b : string) : String c a +:+ b = String c (a +:+ b).
Proof. reflexivity. Qed.

Lemma app_empty_r (a : string) : a +:+ "" = a.
Proof. induction a as [|c a IH]; [reflexivity|]. rewrite app_cons, IH. reflexivity. Qed.

Lemma app_assoc_s (a b c : string) : (a +:+ b) +:+ c = a +:+ b +:+ c.
Proof. induction a as [|x a IH]; [reflexivity|]. rewrite !app_cons, IH. reflexivity. Qed.

Lemma length_app (a b : string) :
  String.length (a +:+ b) = (String.length a + String.length b)%nat.
Proof.
  induction a as [|c a IH]; [reflexivity|].
  change (String c a +:+ b) with (String c (a +:+ b)). simpl. rewrite IH. reflexivity.
Qed.

Lemma take_app (a b : string) : Js.take (String.length a) (a +:+ b) = a.
Proof.
  induction a as [|c a IH]; [destruct b; reflexivity|].
  change (String c a +:+ b) with (String c (a +:+ b)). simpl. rewrite IH. reflexivity.
Qed.

Lemma dropEnd_app (a b : string) : Js.dropEnd (String.length b) (a +:+ b) = a.
Proof.
  unfold Js.dropEnd. rewrite length_app.
  replace (String.length a + String.length b - String.length b)%nat
    with (String.length a) by lia.
  apply take_app.
Qed.

Lemma take_all : forall (s : string) (n : nat), (String.length s <= n)%nat -> Js.take n s = s.
Proof.
  induction s as [|c s IH]; intros [|n] H; simpl in *; try reflexivity; try lia.
  rewrite IH by lia. reflexivity.
Qed.

Lemma length_drop : forall (s : string) (k : nat),
  String.length (Js.drop k s) = (String.length s - k)%nat.
Proof. induction s as [|c s IH]; intros [|k]; simpl; auto. Qed.

Lemma take_drop : forall (s : string) (k : nat), Js.take k s +:+ Js.drop k s = s.
Proof.
  induction s as [|c s IH]; intros [|k]; simpl; try reflexivity.
  rewrite app_cons, IH. reflexivity.
Qed.

Lemma map_chars_length (f : ascii -> ascii) (s : string) :
  String.length (Js.map_chars f s) = String.length s.
Proof. induction s; simpl; congruence. Qed.

Lemma app_same_length_inv : forall a1 a2 r1 r2 : string,
  String.length a1 = String.length a2 -> a1 +:+ r1 = a2 +:+ r2 -> a1 = a2.
Proof.
  induction a1 as [|c1 a1 IH]; intros [|c2 a2] r1 r2; simpl; try discriminate; auto.
  intros Hl Heq. injection Hl as Hl. injection Heq as Hc Hr.
  f_equal; [exact Hc | eapply IH; eassumption].
Qed.

Lemma has_char_app (c : ascii) (a b : string) :
  Js.has_char c (a +:+ b) = Js.has_char c a || Js.has_char c b.
Proof.
  induction a as [|x a IH]; [reflexivity|].
  rewrite app_cons. simpl. rewrite IH, orb_assoc. reflexivity.
Qed.

(** *** [path.extname] *)

Lemma scan_step_end (i : Z) (c : ascii) (st : Path.ExtScan) :
  Path.end_ st <> -1 -> Path.end_ (Path.scan_step i c st) = Path.end_ st.
Proof.
  intros He. unfold Path.scan_step.
  replace (Path.end_ st =? -1) with false by (symmetry; apply Z.eqb_neq; exact He).
  repeat match goal with
         | |- context [if ?b then _ else _] => destruct b
         end; reflexivity.
Qed.

Lemma scan_end (rev_chars : string) : forall (i : Z) (st : Path.ExtScan),
  Path.end_ st <> -1 -> Path.end_ (Path.scan rev_chars i st) = Path.end_ st.
Proof.
  induction rev_chars as [|c t IH]; intros i st He; [reflexivity|]. simpl.
  rewrite IH by (rewrite scan_step_end; assumption). apply scan_step_end, He.
Qed.

Lemma scan_step_first (i : Z) (c : ascii) :
  Ascii.eqb c Path.slash = false -> Path.end_ (Path.scan_step i c Path.scan0) = i + 1.
Proof.
  intros Hc. unfold Path.scan_step. simpl. rewrite Hc.
  destruct (Ascii.eqb c Path.dot); reflexivity.
Qed.

Lemma rev_app_head : forall (s acc : string),
  s <> "" ->
  exists c t, String.rev_app s acc = String c t
              /\ Ascii.eqb c Path.slash = Path.trailingSeparator s.
Proof.
  induction s as [|a s IH]; intros acc Hs; [contradiction|].
  destruct s as [|b s].
  - exists a, acc. split; reflexivity.
  - destruct (IH (String a acc)) as (c & t & Hr & Hc); [discriminate|].
    exists c, t. split; [exact Hr | exact Hc].
Qed.

Lemma extname_is_suffix (p : string) :
  Path.trailingSeparator p = false -> exists base, p = base +:+ Path.extname p.
Proof.
  intros Ht. destruct (String.eqb_spec p "") as [->|Hp]; [exists ""; reflexivity|].
  unfold Path.extname.
  destruct (rev_app_head p "" Hp) as (c & t & Hr & Hc). rewrite Ht in Hc.
  unfold String.rev. rewrite Hr. simpl Path.scan.
  set (st := Path.scan t _ _).
  assert (He : Path.end_ st = Z.of_nat (String.length p)).
  { unfold st. rewrite scan_end; rewrite scan_step_first by exact Hc; lia. }
  cbv zeta.
  match goal with |- context [if ?b then "" else _] => destruct b end.
  - exists p. symmetry. apply app_empty_r.
  - exists (Js.take (Z.to_nat (Path.startDot st)) p).
    rewrite (take_all (Js.drop (Z.to_nat (Path.startDot st)) p));
      [symmetry; apply take_drop|].
    rewrite length_drop, He. lia.
Qed.

(** *** [path.join] *)

Lemma segments_not_nil (p : string) : Path.segments p <> [].
Proof.
  induction p as [|c p IH]; simpl; [discriminate|].
  destruct (Ascii.eqb c Path.slash); [discriminate|].
  destruct (Path.segments p); discriminate.
Qed.

Lemma segments_app (a b : string) :
  Path.segments (a +:+ "/" +:+ b) = (Path.segments a ++ Path.segments b)%list.
Proof.
  induction a as [|c a IH]; [reflexivity|].
  rewrite app_cons. simpl. rewrite IH.
  destruct (Ascii.eqb c Path.slash); [reflexivity|].
  pose proof (segments_not_nil a). destruct (Path.segments a); [contradiction | reflexivity].
Qed.

Lemma segments_plain (s : string) : Js.has_char "/" s = false -> Path.segments s = [s].
Proof.
  induction s as [|c s IH]; simpl; [reflexivity|]. intros H.
  apply orb_false_iff in H as [Hc Hs]. unfold Path.slash. rewrite Hc, (IH Hs). reflexivity.
Qed.

Lemma norm_stack_app (allow : bool) (l1 : list string) : forall (l2 st : list string),
  Path.norm_stack allow (l1 ++ l2) st = Path.norm_stack allow l2 (Path.norm_stack allow l1 st).
Proof.
  induction l1 as [|s l1 IH]; intros l2 st; [reflexivity|]. simpl.
  destruct (String.eqb s "" || String.eqb s "."); [apply IH|].
  destruct (String.eqb s ".."); [|apply IH].
  destruct st as [|top below]; [apply IH|]. destruct (String.eqb top ".."); apply IH.
Qed.

Lemma norm_stack_plain (allow : bool) (s : string) (st : list string) :
  plain_name s -> Path.norm_stack allow [s] st = s :: st.
Proof.
  intros (H1 & _ & H3 & H4). simpl.
  destruct (String.eqb_spec s ""); [contradiction|].
  destruct (String.eqb_spec s "."); [contradiction|].
  destruct (String.eqb_spec s ".."); [contradiction|]. reflexivity.
Qed.

Lemma join_snoc (l : list string) (s : string) :
  Js.join "/" (l ++ [s]) =
  match l with [] => "" | _ => Js.join "/" l +:+ "/" end +:+ s.
Proof.
  induction l as [|x l IH]; [reflexivity|].
  destruct l as [|y l]; [simpl; rewrite app_assoc_s; reflexivity|].
  change (Js.join "/" ((x :: y :: l) ++ [s])) with (x +:+ "/" +:+ Js.join "/" ((y :: l) ++ [s])).
  rewrite IH. change (Js.join "/" (x :: y :: l)) with (x +:+ "/" +:+ Js.join "/" (y :: l)).
  rewrite !app_assoc_s. reflexivity.
Qed.

Lemma trailing_app (x s : string) :
  s <> "" -> Js.has_char "/" s = false -> Path.trailingSeparator (x +:+ s) = false.
Proof.
  intros Hne Hs. induction x as [|c x IH].
  - change ("" +:+ s) with s. induction s as [|c s IHs]; [contradiction|].
    simpl in Hs. apply orb_false_iff in Hs as [Hc Hs'].
    destruct s as [|c' s']; [exact Hc|]. apply IHs; [discriminate | exact Hs'].
  - rewrite app_cons. simpl. destruct (x +:+ s) eqn:E; [|exact IH].
    destruct x; [change ("" +:+ s) with s in E; contradiction | discriminate E].
Qed.

Lemma app_not_empty_r (x s : string) : s <> "" -> x +:+ s <> "".
Proof. destruct x; [exact id | discriminate]. Qed.

Lemma isAbsolute_cons (c : ascii) (s : string) :
  Path.isAbsolute (String c s) = Ascii.eqb c "/".
Proof.
  unfold Path.isAbsolute, Js.startsWith.
  change (String.prefix "/" (String c s))
    with (if ascii_dec "/" c then String.prefix "" s else false).
  destruct (ascii_dec "/" c) as [E|Hn].
  - rewrite <- E. destruct s; reflexivity.
  - symmetry. apply Ascii.eqb_neq. congruence.
Qed.

Lemma join_plain_name (dir : string) :
  exists prefix, forall name, plain_name name -> Path.join dir name = prefix +:+ name.
Proof.
  destruct (String.eqb_spec dir "") as [->|Hd].
  - exists "". intros name Hp. pose proof Hp as (Hne & Hs & _).
    unfold Path.join. simpl String.eqb at 1. cbv iota.
    destruct (String.eqb_spec name ""); [contradiction|].
    unfold Path.normalize. destruct (String.eqb_spec name ""); [contradiction|].
    unfold Path.normalizeString. rewrite (segments_plain _ Hs), norm_stack_plain by exact Hp.
    simpl rev. simpl Js.join.
    destruct (String.eqb_spec name ""); [contradiction|].
    replace (Path.isAbsolute name) with false.
    + pose proof (trailing_app "" name Hne Hs) as Ht.
      change ("" +:+ name) with name in Ht. rewrite Ht.
      change ("" +:+ name +:+ "") with (name +:+ ""). rewrite app_empty_r. reflexivity.
    + destruct name as [|c name]; [contradiction|]. simpl in Hs.
      apply orb_false_iff in Hs as [Hc _]. rewrite isAbsolute_cons. symmetry. exact Hc.
  - set (abs := Path.isAbsolute dir).
    set (st := Path.norm_stack (negb abs) (Path.segments dir) []).
    exists ((if abs then "/" else "")
              +:+ match rev st with [] => "" | _ => Js.join "/" (rev st) +:+ "/" end).
    intros name Hp. pose proof Hp as (Hne & Hs & _).
    unfold Path.join.
    destruct (String.eqb_spec dir ""); [contradiction|].
    destruct (String.eqb_spec name ""); [contradiction|].
    unfold Path.normalize.
    destruct (String.eqb_spec (dir +:+ "/" +:+ name) "") as [E|_];
      [destruct dir; [contradiction | discriminate E]|].
    assert (Habs : Path.isAbsolute (dir +:+ "/" +:+ name) = abs).
    { unfold abs. destruct dir as [|c dir]; [contradiction|].
      rewrite app_cons, !isAbsolute_cons. reflexivity. }
    rewrite Habs. unfold Path.normalizeString.
    rewrite segments_app, norm_stack_app, (segments_plain _ Hs), norm_stack_plain by exact Hp.
    fold st. simpl rev. rewrite join_snoc.
    destruct (String.eqb_spec (match rev st with [] => "" | _ => Js.join "/" (rev st) +:+ "/" end
                               +:+ name) "") as [E|_];
      [exfalso; exact (app_not_empty_r _ _ Hne E)|].
    replace (dir +:+ "/" +:+ name) with ((dir +:+ "/") +:+ name) by apply app_assoc_s.
    rewrite trailing_app by assumption.
    rewrite app_empty_r, !app_assoc_s. reflexivity.
Qed.

(** *** File names of the default storage branch *)

Lemma stamp_digit (c : ascii) : Js.is_digit c = true -> stamp_char c = c.
Proof. destruct c as [[] [] [] [] [] [] [] []]; try discriminate; reflexivity. Qed.

Lemma fileStamp_template_inj (tpl : string) : forall s1 s2 : string,
  matches_template tpl s1 = true -> matches_template tpl s2 = true ->
  fileStamp s1 = fileStamp s2 -> s1 = s2.
Proof.
  induction tpl as [|t tpl IH]; intros [|c1 s1] [|c2 s2]; simpl; try discriminate; auto.
  intros H1 H2 Heq.
  apply andb_prop in H1 as [Hc1 Hs1]. apply andb_prop in H2 as [Hc2 Hs2].
  injection Heq as Hc Hs. f_equal; [|apply IH; assumption].
  destruct (Ascii.eqb t "d").
  - rewrite !stamp_digit in Hc by assumption. exact Hc.
  - apply Ascii.eqb_eq in Hc1, Hc2. congruence.
Qed.

Lemma matches_template_length (tpl : string) : forall s : string,
  matches_template tpl s = true -> String.length s = String.length tpl.
Proof.
  induction tpl as [|t tpl IH]; intros [|c s]; simpl; try discriminate; auto.
  intros H. apply andb_prop in H as [_ H]. f_equal. apply IH, H.
Qed.

Lemma stamp_char_slash (c : ascii) : Ascii.eqb (stamp_char c) "/" = Ascii.eqb c "/".
Proof. destruct c as [[] [] [] [] [] [] [] []]; reflexivity. Qed.

Lemma fileStamp_slash (s : string) : Js.has_char "/" (fileStamp s) = Js.has_char "/" s.
Proof.
  induction s as [|c s IH]; [reflexivity|]. unfold fileStamp in *. simpl.
  rewrite stamp_char_slash, IH. reflexivity.
Qed.

Lemma digit_not_slash (c : ascii) : Js.is_digit c = true -> Ascii.eqb c "/" = false.
Proof. destruct c as [[] [] [] [] [] [] [] []]; try discriminate; reflexivity. Qed.

Lemma template_no_slash (tpl : string) : forall s : string,
  Js.has_char "/" tpl = false -> matches_template tpl s = true -> Js.has_char "/" s = false.
Proof.
  induction tpl as [|t tpl IH]; intros [|c s]; simpl; try discriminate; auto.
  intros Ht Hm. apply orb_false_iff in Ht as [Ht Htpl].
  apply andb_prop in Hm as [Hc Hs]. rewrite (IH s Htpl Hs), orb_false_r.
  destruct (Ascii.eqb t "d"); [apply digit_not_slash, Hc|].
  apply Ascii.eqb_eq in Hc. subst c. exact Ht.
Qed.

Lemma sanitized_char_not_slash (c : ascii) :
  Ascii.eqb (Js.lower_char (sanitize_char c)) "/" = false.
Proof. destruct c as [[] [] [] [] [] [] [] []]; reflexivity. Qed.

Lemma sanitizePrompt_no_slash (prompt : string) :
  Js.has_char "/" (sanitizePrompt prompt) = false.
Proof.
  unfold sanitizePrompt. generalize (firstn 20 (Js.units prompt)). intros l.
  induction l as [|u l IH]; [reflexivity|]. unfold Js.toLowerCase in *. simpl.
  rewrite IH, orb_false_r. destruct u as [c|]; [apply sanitized_char_not_slash | reflexivity].
Qed.

Lemma long_is_plain (s : string) :
  (3 <= String.length s)%nat -> Js.has_char "/" s = false -> plain_name s.
Proof.
  intros Hl Hs. repeat split; try exact Hs; intros ->; simpl in Hl; lia.
Qed.

Lemma default_name_plain (iso model prompt format : string) :
  iso_shaped iso -> Js.has_char "/" model = false -> Js.has_char "/" format = false ->
  plain_name (fileStamp iso +:+ "_" +:+ model +:+ "_" +:+ sanitizePrompt prompt
                +:+ "." +:+ format).
Proof.
  intros Hi Hm Hf. apply long_is_plain.
  - rewrite length_app. unfold fileStamp. rewrite map_chars_length.
    rewrite (matches_template_length _ _ Hi). simpl. lia.
  - assert (Hiso : Js.has_char "/" iso = false)
      by (apply (template_no_slash iso_template); [reflexivity | exact Hi]).
    rewrite !has_char_app, fileStamp_slash, Hiso, Hm, Hf, sanitizePrompt_no_slash.
    reflexivity.
Qed.

(** *** The three branches *)

Lemma resolvePath_default (env : Env) (prompt model format : string) (w : World) :
  resolvePath env prompt model format None None w =
  (Ok (Path.join (STORAGE_DIR env)
         (fileStamp (clock env) +:+ "_" +:+ model +:+ "_" +:+ sanitizePrompt prompt
            +:+ "." +:+ format)),
   emit EClock w).
Proof. reflexivity. Qed.

Lemma resolvePath_project (env : Env) (prompt model format base : string)
    (outputPath : option string) (w : World) :
  Js.truthy outputPath = None -> base <> "" ->
  resolvePath env prompt model format outputPath (Some base) w =
  (Ok (Path.join base (sanitizePrompt prompt +:+ "_" +:+ model +:+ "." +:+ format)),
   emit EClock w).
Proof.
  intros Ho Hb. unfold resolvePath, bind, toISOString_now, bind, emitM, ret. rewrite Ho.
  destruct base; [contradiction | reflexivity].
Qed.

Lemma resolvePath_explicit (env : Env) (prompt model format out : string)
    (projectBasePath : option string) (w : World) (p : string) :
  out <> "" ->
  fst (resolvePath env prompt model format (Some out) projectBasePath w) = Ok p ->
  fst (explicitPath out format w) = Ok p.
Proof.
  intros Ho. unfold resolvePath, bind, toISOString_now, bind, emitM, ret.
  replace (Js.truthy (Some out)) with (Some out) by (destruct out; [contradiction | reflexivity]).
  unfold explicitPath, console, emitM, bind, ret, mkdir, bind, emitM, of_result, ret, throw.
  destruct (String.eqb (Path.extname out) ""); simpl.
  - destruct (mkdir_result env _); simpl; [discriminate | auto].
  - destruct (negb _); simpl; destruct (mkdir_result env _); simpl; try discriminate; auto.
Qed.

Lemma explicitPath_ignores_world (out format : string) (w1 w2 : World) :
  fst (explicitPath out format w1) = fst (explicitPath out format w2).
Proof.
  unfold explicitPath, console, emitM, bind, ret.
  destruct (String.eqb (Path.extname out) ""); [reflexivity|].
  destruct (negb _); reflexivity.
Qed.

(** C8 (as amended).  An explicit output path and a format fix the
    destination whatever the clock, the prompt and the model; a
    project base path fixes it together with the prompt, the model and
    the format, whatever the clock; so a repeated request resolves to
    the same path.  Only the default storage branch embeds the
    timestamp: two requests served at different instants (timestamps
    in ISO form), with models and formats that hold no separator (as
    the valid models and the supported formats do), get different
    paths there. *)
Theorem stored_path_is_fresh_only_when_timestamped
    (env1 env2 : Env) (w1 w2 : World) :
  (forall prompt1 prompt2 model1 model2 format out base1 base2 p1 p2,
     out <> "" ->
     fst (resolvePath env1 prompt1 model1 format (Some out) base1 w1) = Ok p1 ->
     fst (resolvePath env2 prompt2 model2 format (Some out) base2 w2) = Ok p2 ->
     p1 = p2)
  /\ (forall prompt model format base,
        base <> "" ->
        fst (resolvePath env1 prompt model format None (Some base) w1)
        = fst (resolvePath env2 prompt model format None (Some base) w2))
  /\ (forall prompt1 prompt2 model1 model2 format1 format2,
        STORAGE_DIR env1 = STORAGE_DIR env2 ->
        iso_shaped (clock env1) -> iso_shaped (clock env2) ->
        clock env1 <> clock env2 ->
        Js.has_char "/" model1 = false -> Js.has_char "/" model2 = false ->
        Js.has_char "/" format1 = false -> Js.has_char "/" format2 = false ->
        exists p1 p2,
          fst (resolvePath env1 prompt1 model1 format1 None None w1) = Ok p1
          /\ fst (resolvePath env2 prompt2 model2 format2 None None w2) = Ok p2
          /\ p1 <> p2).
Proof.
  split; [|split].
  - intros prompt1 prompt2 model1 model2 format out base1 base2 p1 p2 Ho H1 H2.
    apply resolvePath_explicit in H1, H2; try assumption.
    rewrite (explicitPath_ignores_world out format w1 w2) in H1. congruence.
  - intros prompt model format base Hb.
    rewrite !resolvePath_project by (auto; reflexivity). reflexivity.
  - intros prompt1 prompt2 model1 model2 format1 format2 Hdir Hs1 Hs2 Hne Hm1 Hm2 Hf1 Hf2.
    rewrite !resolvePath_default. eexists _, _. split; [reflexivity|].
    split; [reflexivity|]. rewrite Hdir.
    destruct (join_plain_name (STORAGE_DIR env2)) as (prefix & Hjoin).
    rewrite !Hjoin by (apply default_name_plain; assumption). intros Heq.
    apply String.app_inj in Heq.
    apply app_same_length_inv in Heq.
    + apply Hne. eapply fileStamp_template_inj; eassumption.
    + unfold fileStamp. rewrite !map_chars_length.
      rewrite (matches_template_length _ _ Hs1), (matches_template_length _ _ Hs2).
      reflexivity.
Qed.

Lemma explicitPath_cases (out format : string) (w : World) :
  let ext := Path.extname out in
  (ext = "" -> explicitPath out format w = (Ok (out +:+ "." +:+ format), w))
  /\ (ext <> "" -> Js.toLowerCase (Js.drop 1 ext) <> Js.toLowerCase format ->
      explicitPath out format w =
        (Ok (Js.dropEnd (String.length ext) out +:+ "." +:+ format),
         emit (EConsole WarnLevel ("Warning: File extension " +:+ ext
                                     +:+ " doesn't match specified format " +:+ format)) w))
  /\ (ext <> "" -> Js.toLowerCase (Js.drop 1 ext) = Js.toLowerCase format ->
      explicitPath out format w = (Ok out, w)).
Proof.
  unfold explicitPath. cbv zeta.
  destruct (String.eqb_spec (Path.extname out) "") as [E|E].
  - split; [reflexivity|]. split; intros; contradiction.
  - split; [intros; contradiction|].
    destruct (String.eqb_spec (Js.toLowerCase (Js.drop 1 (Path.extname out)))
                (Js.toLowerCase format)) as [E'|E']; simpl.
    + split; [intros; contradiction | reflexivity].
    + split; [reflexivity | intros; contradiction].
Qed.

Lemma explicitPath_replaces_final_extension (stem format : string) (w : World) :
  let ext := Path.extname stem in
  forall base, stem = base +:+ ext -> ext <> "" ->
  Js.toLowerCase (Js.drop 1 ext) <> Js.toLowerCase format ->
  fst (explicitPath stem format w) = Ok (base +:+ "." +:+ format).
Proof.
  intros ext base Hs He Hm.
  destruct (explicitPath_cases stem format w) as (_ & H & _).
  rewrite (H He Hm). simpl. fold ext. rewrite Hs at 1. rewrite dropEnd_app. reflexivity.
Qed.

Lemma explicitPath_without_trailing_separator (out format : string) (w : World) :
  Path.trailingSeparator out = false ->
  exists base,
    out = base +:+ Path.extname out
    /\ (Path.extname out = "" ->
        explicitPath out format w = (Ok (out +:+ "." +:+ format), w))
    /\ (Path.extname out <> "" ->
        Js.toLowerCase (Js.drop 1 (Path.extname out)) <> Js.toLowerCase format ->
        explicitPath out format w =
          (Ok (base +:+ "." +:+ format),
           emit (EConsole WarnLevel ("Warning: File extension " +:+ Path.extname out
                                       +:+ " doesn't match specified format " +:+ format)) w))
    /\ (Path.extname out <> "" ->
        Js.toLowerCase (Js.drop 1 (Path.extname out)) = Js.toLowerCase format ->
        explicitPath out format w = (Ok out, w)).
Proof.
  intros Ht. destruct (extname_is_suffix out Ht) as (base & Hb).
  destruct (explicitPath_cases out format w) as (H1 & H2 & H3).
  exists base. split; [exact Hb|]. split; [exact H1|]. split; [|exact H3].
  intros He Hm. rewrite (H2 He Hm). rewrite Hb at 2. rewrite dropEnd_app. reflexivity.
Qed.

(** C4.  The specification has a mismatching extension replaced and
    the base name kept, for every explicit output path.  [path.extname]
    ignores trailing separators, while the code cuts as many
    characters as the extension has from the end of the whole path:
    for ["file.ext/"] and png the destination is ["file..png"]. *)
Theorem explicit_path_with_trailing_separator :
  Path.extname "file.ext/" = ".ext"
  /\ (forall w,
        explicitPath "file.ext/" "png" w =
          (Ok "file..png",
           emit (EConsole WarnLevel
                   "Warning: File extension .ext doesn't match specified format png") w))
  /\ fst (saveImage env_fine "https://cdn/img" "A logo" "5000" (Some "png")
            (Some "file.ext/") None None None world0) = Ok "file..png".
Proof.
  split; [reflexivity|]. split; [intros w; reflexivity | vm_compute; reflexivity].
Qed.

(** ** Concrete runs *)

Lemma retry_exhaustion_counterexample :
  fst (submit_loop env_down MAX_RETRIES MAX_RETRIES "5000" "A landscape" 1 0 world0)
    = Throw (JsError "socket hang up")
  /\ creates (snd (submit_loop env_down MAX_RETRIES MAX_RETRIES "5000" "A landscape" 1 0 world0))
     = 3%nat
  /\ JsError "socket hang up" <> exhausted_submission
  /\ fst (generate_image env_down a_landscape world0)
     = Ok {| content := ["Error: socket hang up"]; isError := true |}.
Proof.
  split; [reflexivity|]. split; [reflexivity|]. split; [discriminate | reflexivity].
Qed.

Lemma interrupted_write_counterexample :
  fst cut_run
    = Throw (JsError "Failed to save image: Image processing failed: ENOSPC: no space left on device, write")
  /\ sharp_result env_cut "png" "BYTES" = Ok "png:BYTES"
  /\ files (snd cut_run) !! "out/logo.png" = Some "png".
Proof. split; [vm_compute; reflexivity|]. split; [reflexivity | vm_compute; reflexivity]. Qed.

Lemma repeat_request_counterexample :
  fst monday_run = Ok "/site/a_logo_5000.png"
  /\ fst tuesday_run = Ok "/site/a_logo_5000.png"
  /\ files (snd monday_run) !! "/site/a_logo_5000.png" = Some "png:MONDAY"
  /\ files (snd tuesday_run) !! "/site/a_logo_5000.png" = Some "png:TUESDAY"
  /\ fst monday_explicit_run = Ok "out/logo.png"
  /\ fst tuesday_explicit_run = Ok "out/logo.png"
  /\ files (snd monday_explicit_run) !! "out/logo.png" = Some "png:MONDAY"
  /\ files (snd tuesday_explicit_run) !! "out/logo.png" = Some "png:TUESDAY".
Proof. repeat split; vm_compute; reflexivity. Qed.

Lemma missing_url_counterexample :
  fst (generate_image env_no_url a_landscape world0)
    = Ok {| content := ["Error: No image URL in the completed generation"]; isError := true |}
  /\ In (EConsole ErrorLevel "[UNKNOWN_ERROR] No image URL in the completed generation ")
        (trace (snd (generate_image env_no_url a_landscape world0)))
  /\ ~ returns_failure API_ERROR (generate_image env_no_url a_landscape world0).
Proof.
  split; [vm_compute; reflexivity|]. split; [vm_compute; tauto|].
  intros (msg & w & H).
  apply (f_equal (fun r => trace (snd r))) in H.
  rewrite errorResponse_eq in H. unfold emit in H. cbn [snd trace] in H.
  match type of H with ?l = _ => let l' := eval vm_compute in l in change l with l' in H end.
  match type of H with
  | [?a; ?b; ?c; ?d] = _ => change [a; b; c; d] with ([a; b; c] ++ [d])%list in H
  end.
  apply app_inj_tail in H as [_ H]. discriminate H.
Qed.

Lemma svg_needs_vector_model_witness :
  returns_failure VALIDATION_ERROR (generate_image env_fine svg_on_flux world0)
  /\ network_calls (snd (generate_image env_fine svg_on_flux world0)) = network_calls world0
  /\ exists msg,
       saveImage env_fine "https://cdn/img" "A landscape" "5000" (Some "svg")
         None None None None world0 = (Throw (JsError msg), world0).
Proof.
  destruct (svg_needs_vector_model env_fine svg_on_flux "svg" world0) as (H1 & H2 & H3).
  - reflexivity.
  - reflexivity.
  - vm_compute. discriminate.
  - split; [exact H1|]. split; [exact H2|]. apply H3. discriminate.
Defined.

Lemma compatibility_witness :
  validateModelFormatCompatibility "8000" "png" = true
  /\ saveImage_rejects "8000" "png" = None
  /\ exists v w1,
       validate (request "A logo" "8000:Recraft-Vector" (Some "png") None (Some 2)) world0
         = (Ok (inr v), w1)
       /\ v_model v = "8000" /\ v_format v = "png".
Proof.
  destruct (compatibility_rejects_only_svg_off_vector "8000" "png") as (H1 & H2 & H3).
  - simpl. tauto.
  - split; [apply H1; discriminate|].
    destruct H3 as [H3 H4]; [discriminate|]. split; [exact H3|].
    apply (H4 (request "A logo" "8000:Recraft-Vector" (Some "png") None (Some 2)) "A logo" world0).
    + reflexivity.
    + vm_compute. discriminate.
    + vm_compute. split; discriminate.
    + reflexivity.
    + reflexivity.
Defined.

Lemma retry_loops_witness :
  (exists w',
     submit_loop env_down 3 3 "5000" "A landscape" 1 0 world0
       = (Throw (JsError "socket hang up"), w')
     /\ creates w' = 3%nat /\ fetches w' = 0%nat)
  /\ (exists w',
        fetch_loop env_down 3 3 "https://cdn/img" 0 None world0
          = (Throw (JsError "Failed to fetch image: Service Unavailable (503)"), w')
        /\ fetches w' = 3%nat /\ creates w' = 0%nat)
  /\ (exists w',
        fetch_loop env_fine 3 3 "https://cdn/img" 0 None world0
          = (Ok (Some png_response), w')
        /\ fetches w' = 1%nat /\ creates w' = 0%nat).
Proof.
  destruct (retry_loops_end_with_last_attempt env_down 3 3 "5000" "A landscape"
              "https://cdn/img" 1 world0) as (H1 & H2).
  - lia.
  - intros k _. exact I.
  - intros k _. reflexivity.
  - split; [apply H1; left; reflexivity|]. split; [apply H2; left; reflexivity|].
    destruct (retry_loops_end_with_last_attempt env_fine 3 1 "5000" "A landscape"
                "https://cdn/img" 1 world0) as (_ & H3).
    + lia.
    + intros k Hk. lia.
    + intros k Hk. lia.
    + apply H3. right. simpl. discriminate.
Defined.

(** Three 429 in a row: the third is waited for as the others, and
    nothing is fetched after it. *)
Lemma last_429_is_not_retried :
  fetch_loop env_busy 3 3 "https://cdn/img" 0 None world0
  = (Ok (Some (busy_response None)),
     {| trace := [ EFetch "https://cdn/img" 30000; ESleep (Some 5000);
                   EFetch "https://cdn/img" 30000; ESleep (Some 5000);
                   EFetch "https://cdn/img" 30000; ESleep (Some 5000) ];
        files := ∅; creates := 0; fetches := 3 |})
  /\ ok (busy_response None) = false
  /\ fst (saveImage env_busy "https://cdn/img" "A logo" "5000" (Some "png")
            (Some "out/logo.png") None None None world0)
     = Throw (JsError "Failed to save image: Failed to fetch image after 3 attempts").
Proof. split; [reflexivity|]. split; [reflexivity | vm_compute; reflexivity]. Qed.

Lemma rate_limited_fetch_witness :
  retryAfterMs (busy_response (Some "2")) = Some 2000
  /\ (exists rest,
        trace (snd (fetch_loop env_jammed 3 3 "https://cdn/img" 0 None world0))
        = ([ EFetch "https://cdn/img" 30000; ESleep (Some 2000) ]
             ++ EFetch "https://cdn/img" 30000 :: rest)%list)
  /\ fetch_loop env_jammed 3 1 "https://cdn/img" 2 None world0
     = (Ok (Some (busy_response (Some "2"))),
        {| trace := [ EFetch "https://cdn/img" 30000; ESleep (Some 2000) ];
           files := ∅; creates := 0; fetches := 1 |}).
Proof.
  destruct (rate_limited_fetch_waits_retry_after env_jammed 3 3 0 "https://cdn/img" None
              world0 (busy_response (Some "2"))) as (_ & _ & H3 & H4 & _).
  - lia.
  - lia.
  - reflexivity.
  - reflexivity.
  - split; [apply (H3 2%N ""); reflexivity|]. split; [apply H4; lia|].
    destruct (rate_limited_fetch_waits_retry_after env_jammed 3 1 2 "https://cdn/img" None
                world0 (busy_response (Some "2"))) as (_ & _ & _ & _ & H5 & _).
    + lia.
    + lia.
    + reflexivity.
    + reflexivity.
    + apply H5. reflexivity.
Defined.

Lemma materialize_witness :
  files (snd (materialize env_fine "png" "BYTES" "out/logo.png" world0))
  = {[ "out/logo.png" := "png:BYTES" ]}
  /\ files (snd (materialize env_cut "png" "BYTES" "out/logo.png" world0))
     = {[ "out/logo.png" := "png" ]}.
Proof.
  split.
  - exact (proj2 (proj2 (materialize_leaves_what_the_write_left env_fine "png" "BYTES"
                           "out/logo.png" world0))).
  - exact (proj2 (proj2 (materialize_leaves_what_the_write_left env_cut "png" "BYTES"
                           "out/logo.png" world0))).
Defined.

Lemma missing_image_url_witness :
  returns_failure UNKNOWN_ERROR (generate_image env_no_url a_landscape world0)
  /\ fetches (snd (generate_image env_no_url a_landscape world0)) = 0%nat.
Proof.
  destruct (missing_image_url_is_unknown_error env_no_url a_landscape
              {| v_prompt := "A landscape"; v_model := "5000"; v_format := "png"; v_count := 1 |}
              {| gen_id := "job-1" |} [] {| image_url := None |} world0 world0
              (snd (submit_loop env_no_url MAX_RETRIES MAX_RETRIES "5000" "A landscape" 1 0 world0)))
    as (H1 & H2 & _).
  - reflexivity.
  - reflexivity.
  - reflexivity.
  - reflexivity.
  - split; [eexists _, _; exact H1 | rewrite H2; reflexivity].
Defined.

Lemma stored_path_witness :
  fst (resolvePath env_monday "A logo" "5000" "png" (Some "out/logo") None world0)
    = fst (resolvePath env_tuesday "My logo" "6000" "png" (Some "out/logo") (Some "/site") world0)
  /\ fst (resolvePath env_monday "A logo" "5000" "png" None (Some "/site") world0)
     = fst (resolvePath env_tuesday "A logo" "5000" "png" None (Some "/site") world0)
  /\ exists p1 p2,
       fst (resolvePath env_monday "A logo" "5000" "png" None None world0) = Ok p1
       /\ fst (resolvePath env_tuesday "A logo" "5000" "png" None None world0) = Ok p2
       /\ p1 <> p2.
Proof.
  destruct (stored_path_is_fresh_only_when_timestamped env_monday env_tuesday world0 world0)
    as (H1 & H2 & H3).
  split; [|split].
  - assert (Hsame : "out/logo.png" = "out/logo.png")
      by (apply (H1 "A logo" "My logo" "5000" "6000" "png" "out/logo" None (Some "/site"));
          [discriminate | reflexivity | reflexivity]).
    reflexivity.
  - apply H2. discriminate.
  - apply H3; try reflexivity. discriminate.
Defined.

Lemma view_image_witness :
  returns_failure UNKNOWN_ERROR (view_image env_no_viewer (Some "logo.png") world_with_logo)
  /\ fst (view_image env_no_viewer (Some "logo.png") world_with_logo)
     = Ok {| content := ["Error: Error viewing image: spawn xdg-open ENOENT"];
             isError := true |}.
Proof.
  apply (view_image_reports_open_failure env_no_viewer "logo.png" "PNG"
           (JsError "spawn xdg-open ENOENT") world_with_logo).
  - discriminate.
  - vm_compute. reflexivity.
  - reflexivity.
Defined.


(** ** The rest of the server *)

(** *** Running the handlers *)

Example base64_vectors :
  base64 "" = "" /\ base64 "M" = "TQ==" /\ base64 "Ma" = "TWE=" /\ base64 "Man" = "TWFu"
  /\ base64 "light work." = "bGlnaHQgd29yay4=".
Proof. repeat split. Qed.

Example match_uri_samples :
  match_uri "everart-forge-mcp://images/a/b.png" = Some "a/b.png"
  /\ match_uri "everart-forge-mcp://images/" = None
  /\ match_uri "file:///etc/passwd" = None
  /\ match_uri ("everart-forge-mcp://images/a" +:+ Js.nl +:+ "b") = None.
Proof. repeat split. Qed.

Example mime_samples :
  Path.extname ".png" = "" /\ mimeOfFile ".png" = "application/octet-stream"
  /\ mimeOfFile "a.JPG" = "image/jpeg" /\ mimeOfFile "a.tar.webp" = "image/webp".
Proof. repeat split. Qed.

Example grouping_sample :
  filesByType ["a.png"; "b.svg"; "c.PNG"; ".webp"]
  = [("png", ["a.png"; "c.PNG"]); ("svg", ["b.svg"]); ("", [".webp"])].
Proof. reflexivity. Qed.

Example gallery_resources :
  fst gallery_listing
  = Ok [ {| uri := "everart-forge-mcp://images/logo.png"; mimeType := "image/png";
            name := "logo.png" |};
         {| uri := "everart-forge-mcp://images/sketch.SVG"; mimeType := "image/svg+xml";
            name := "sketch.SVG" |} ].
Proof. reflexivity. Qed.

Example gallery_report :
  fst (list_images env_gallery world0)
  = Ok {| content :=
            [ "📁 Stored images:" +:+ Js.nl +:+ Js.nl
                +:+ "PNG Files (1):" +:+ Js.nl +:+ "• logo.png" +:+ Js.nl +:+ Js.nl
                +:+ "SVG Files (1):" +:+ Js.nl +:+ "• sketch.SVG" +:+ Js.nl +:+ Js.nl
                +:+ "Total: 2 file(s)";
              Js.nl +:+ "Recent images:" +:+ Js.nl
                +:+ "• file:///srv/everart/images/logo.png" +:+ Js.nl
                +:+ "• file:///srv/everart/images/sketch.SVG" ];
          isError := false |}.
Proof. reflexivity. Qed.

Example suggestion_sample :
  fst (view_image env_gallery (Some "logo") world0)
  = Ok {| content :=
            [ "Error: Image not found: logo" +:+ Js.nl +:+ Js.nl
                +:+ "Did you mean one of these?" +:+ Js.nl +:+ "• logo.png" +:+ Js.nl +:+ Js.nl
                +:+ "Use 'list_images' to see all available images." ];
          isError := true |}.
Proof. reflexivity. Qed.

Example blank_unicode_prompt :
  fst (validate (request (nbsp +:+ ideographic_space) "8000" (Some "png") None None) world0)
  = Ok (inl {| content := [ "Error: Prompt is required and must be a non-empty string." ];
               isError := true |}).
Proof. reflexivity. Qed.

Example read_storage_directory :
  fst (readResource env_fine "everart-forge-mcp://images/." world0)
  = Throw (McpError InternalError
             "Failed to read image: EISDIR: illegal operation on a directory, read")
  /\ fst (readResource env_fine "everart-forge-mcp://images/gone.png" world0)
     = Throw (McpError 404
                "Image not found: gone.png. Please check if the file exists in the storage directory.").
Proof. split; reflexivity. Qed.

Example view_storage_directory :
  fst (view_image env_fine (Some ".") world0)
  = Ok {| content :=
            [ "✅ Viewing image: .";
              "Image opened in default viewer." +:+ Js.nl
                +:+ "File path: file:///srv/everart/images" ];
          isError := false |}
  /\ opened (snd (view_image env_fine (Some ".") world0)) = ["/srv/everart/images"].
Proof. split; reflexivity. Qed.

Example view_beside_storage :
  fst (view_image env_fine (Some "../secret.txt") world_with_secret)
  = Ok {| content :=
            [ "✅ Viewing image: ../secret.txt";
              "Image opened in default viewer." +:+ Js.nl
                +:+ "File path: file:///srv/everart/secret.txt" ];
          isError := false |}
  /\ opened (snd (view_image env_fine (Some "../secret.txt") world_with_secret))
     = ["/srv/everart/secret.txt"].
Proof. split; reflexivity. Qed.

Example readonly_call :
  fst (handleCallTool env_readonly "list_images" a_landscape None world0)
  = Ok {| content :=
            [ "Error: Failed to ensure storage directory: MCP error -32603: Failed to create storage directory: EACCES: permission denied, mkdir '/srv/everart/images'" ];
          isError := true |}.
Proof. reflexivity. Qed.

Example unknown_tool :
  fst (handleCallTool env_fine "draw" a_landscape None world0)
  = Ok {| content := ["Error: Unknown tool: draw"]; isError := true |}.
Proof. reflexivity. Qed.

(** *** Validated requests *)

Lemma arr_includes_In (l : list string) (x : string) :
  Js.arr_includes l x = true <-> In x l.
Proof.
  unfold Js.arr_includes. rewrite existsb_exists. split.
  - intros (y & Hy & He). apply String.eqb_eq in He. subst. exact Hy.
  - intros H. exists x. split; [exact H | apply String.eqb_refl].
Qed.

Lemma validate_spec (args : GenerateArgs) (w : World) :
  (exists msg w0,
     validate args w
       = (let* r := errorResponse (failure VALIDATION_ERROR msg) in ret (inl r)) w0
     /\ logged_from w w0)
  \/ (exists p w1,
        validate args w
          = (Ok (inr {| v_prompt := p; v_model := model_id args;
                        v_format := format_of args;
                        v_count := count_or_1 (a_image_count args) |}), w1)
        /\ logged_from w w1
        /\ Js.truthy (a_prompt args) = Some p
        /\ well_formed {| v_prompt := p; v_model := model_id args;
                          v_format := format_of args;
                          v_count := count_or_1 (a_image_count args) |}).
Proof.
  unfold validate, format_of, model_id, well_formed.
  destruct (Js.truthy (a_prompt args)) as [p|]; [|left; eexists _, w; split; [reflexivity | left; reflexivity]].
  destruct (String.eqb_spec (Js.trim p) "") as [Ht|Ht];
    [left; eexists _, w; split; [reflexivity | left; reflexivity]|].
  destruct ((count_or_1 (a_image_count args) <? 1) || (count_or_1 (a_image_count args) >? 10)) eqn:Hc;
    [left; eexists _, w; split; [reflexivity | left; reflexivity]|].
  apply orb_false_iff in Hc as [Hc1 Hc2]. apply Z.ltb_ge in Hc1.
  assert (Hc3 : count_or_1 (a_image_count args) <= 10).
  { destruct (Z.gtb_spec (count_or_1 (a_image_count args)) 10); [discriminate | lia]. }
  set (m0 := Js.or_else (a_model args) "5000") in *.
  destruct (Js.has_char ":" m0);
    [rewrite bind_console_ret | rewrite bind_ret_l];
    match goal with
    | |- context [negb (Js.arr_includes validModels ?m)] =>
        destruct (Js.arr_includes validModels m) eqn:Hm; simpl negb; cbv iota;
        [|left; eexists _, _; split; [reflexivity | (left; reflexivity) || (right; eexists _, _; reflexivity)]];
        match goal with
        | |- context [Js.arr_includes supportedFormats ?f] =>
            destruct (Js.arr_includes supportedFormats f) eqn:Hf; simpl negb; cbv iota;
            [|left; eexists _, _; split; [reflexivity | (left; reflexivity) || (right; eexists _, _; reflexivity)]]
        end;
        match goal with
        | |- context [validateModelFormatCompatibility ?a ?b] =>
            destruct (validateModelFormatCompatibility a b) eqn:Hv; simpl negb; cbv iota;
            [|left; eexists _, _; split; [reflexivity | (left; reflexivity) || (right; eexists _, _; reflexivity)]]
        end
    end;
    right; eexists p, _; (split; [reflexivity|]);
    (split; [(left; reflexivity) || (right; eexists _, _; reflexivity)|]);
    (split; [reflexivity|]); simpl;
    apply arr_includes_In in Hm, Hf; repeat split; assumption.
Qed.

Lemma logged_from_keeps (w w' : World) :
  logged_from w w' ->
  network_calls w' = network_calls w /\ files w' = files w
  /\ creates w' = creates w /\ fetches w' = fetches w.
Proof.
  intros [-> | (lvl & t & ->)]; [tauto|].
  split; [apply network_calls_emit_console | tauto].
Qed.

Lemma invalid_eq {B} (e : EverArtError) (w : World) :
  (let* r := errorResponse e in ret (inl r : ToolResult + B)) w =
  (Ok (inl (match errorResponse e w with (Ok r, _) => r | _ => {| content := []; isError := true |} end)),
   snd (errorResponse e w)).
Proof. reflexivity. Qed.

(** X1.  On an arguments object whose properties, where present, have
    the types of the input schema (strings, an integer count), the
    validation at the start of [generate_image] never throws, makes no
    network call and touches no file.  It either returns the error
    response of a Validation failure, or hands on a request whose
    prompt is the given one and is not blank (not only white space,
    ASCII or not), whose model is the id before the first colon (5000
    when absent) and is a valid model, whose format is the given one
    (the default of the model when absent) and is supported and
    compatible with the model, and whose count is within 1 and 10.
    (Without arguments object, or with a model or format that is no
    string, the code can throw a [TypeError] here, which the [catch]
    of the case answers as an Unknown failure; such calls are not
    covered.) *)
Theorem validation_outcomes (args : GenerateArgs) (w : World) :
  exists x w',
    validate args w = (Ok x, w')
    /\ network_calls w' = network_calls w /\ files w' = files w
    /\ match x with
       | inl response =>
           exists msg w0, (Ok response, w') = errorResponse (failure VALIDATION_ERROR msg) w0
       | inr v =>
           well_formed v
           /\ Js.truthy (a_prompt args) = Some (v_prompt v)
           /\ v_model v = model_id args
           /\ v_format v = format_of args
           /\ v_count v = count_or_1 (a_image_count args)
       end.
Proof.
  destruct (validate_spec args w) as [(msg & w0 & Hv & Hl) | (p & w1 & Hv & Hl & Hp & Hwf)].
  - rewrite Hv, invalid_eq. destruct (logged_from_keeps _ _ Hl) as (Hn & Hf & _).
    eexists (inl _), _. split; [reflexivity|].
    split; [rewrite network_calls_errorResponse; exact Hn|]. split; [exact Hf|].
    exists msg, w0. reflexivity.
  - rewrite Hv. destruct (logged_from_keeps _ _ Hl) as (Hn & Hf & _).
    eexists (inr _), w1. split; [reflexivity|]. split; [exact Hn|]. split; [exact Hf|].
    split; [exact Hwf|]. split; [exact Hp|]. repeat split.
Qed.

Lemma lower_char_idem (c : ascii) : Js.lower_char (Js.lower_char c) = Js.lower_char c.
Proof. destruct c as [[] [] [] [] [] [] [] []]; reflexivity. Qed.

Lemma toLowerCase_idem (s : string) : Js.toLowerCase (Js.toLowerCase s) = Js.toLowerCase s.
Proof.
  unfold Js.toLowerCase. induction s as [|c s IH]; [reflexivity|]. simpl.
  rewrite lower_char_idem, IH. reflexivity.
Qed.

Lemma well_formed_passes_guard (v : Validated) :
  well_formed v -> saveImage_rejects (v_model v) (Js.toLowerCase (v_format v)) = None.
Proof.
  intros (_ & _ & Hf & Hc & _). unfold saveImage_rejects.
  apply arr_includes_In in Hf. rewrite Hf. simpl negb. cbv iota.
  unfold validateModelFormatCompatibility in *. rewrite toLowerCase_idem.
  destruct (_ && _); [discriminate Hc | reflexivity].
Qed.

Lemma validated_well_formed (args : GenerateArgs) (v : Validated) (w w' : World) :
  validate args w = (Ok (inr v), w') -> well_formed v.
Proof.
  intros Hv.
  destruct (validate_spec args w) as [(msg & w0 & Hv' & _) | (p & w1 & Hv' & _ & _ & Hwf)];
    rewrite Hv in Hv'.
  - rewrite invalid_eq in Hv'. discriminate Hv'.
  - injection Hv' as -> _. exact Hwf.
Qed.

(** X2.  A request the validation of [generate_image] accepted passes
    the two checks [saveImage] makes itself (supported format,
    compatibility with the model) with the lower-cased format the
    pipeline hands it: from [generate_image] those checks never
    fire. *)
Theorem validated_request_passes_saveImage_checks
    (args : GenerateArgs) (v : Validated) (w w' : World) :
  validate args w = (Ok (inr v), w') ->
  saveImage_rejects (v_model v) (Js.toLowerCase (v_format v)) = None.
Proof.
  intros Hv.
  destruct (validate_spec args w) as [(msg & w0 & Hv' & _) | (p & w1 & Hv' & _ & _ & Hwf)];
    rewrite Hv in Hv'.
  - rewrite invalid_eq in Hv'. discriminate Hv'.
  - injection Hv' as -> _. destruct Hwf as (_ & _ & Hf & Hc & _).
    cbn [v_model v_format] in *. unfold saveImage_rejects.
    apply arr_includes_In in Hf. rewrite Hf. simpl negb. cbv iota.
    unfold validateModelFormatCompatibility in *. rewrite toLowerCase_idem.
    destruct (_ && _); [discriminate Hc | reflexivity].
Qed.

Lemma before_app (c : ascii) (a b : string) :
  Js.has_char c a = false -> Js.before c (a +:+ String c b) = a.
Proof.
  induction a as [|x a IH]; intros H.
  - change ("" +:+ String c b) with (String c b). simpl. rewrite Ascii.eqb_refl. reflexivity.
  - rewrite app_cons. simpl in *. apply orb_false_iff in H as [Hx Ha].
    rewrite Hx, (IH Ha). reflexivity.
Qed.

(** X3.  A model given as [id:label] is validated exactly as the bare
    [id]: the response, or the request handed on, is the same whatever
    the label after the first colon (the log line about the combined
    format apart). *)
Theorem model_label_is_ignored (args : GenerateArgs) (id label : string) (w : World) :
  id <> "" -> Js.has_char ":" id = false ->
  fst (validate (with_model args (id +:+ ":" +:+ label)) w)
  = fst (validate (with_model args id) w).
Proof.
  intros Hid Hcolon. unfold validate, with_model.
  cbn [a_prompt a_model a_format a_image_count].
  destruct (Js.truthy (a_prompt args)) as [p|]; [|reflexivity].
  destruct (String.eqb (Js.trim p) ""); [reflexivity|].
  destruct ((count_or_1 (a_image_count args) <? 1) || (count_or_1 (a_image_count args) >? 10));
    [reflexivity|].
  assert (H1 : Js.or_else (Some (id +:+ ":" +:+ label)) "5000" = id +:+ ":" +:+ label).
  { destruct id; [contradiction | reflexivity]. }
  assert (H2 : Js.or_else (Some id) "5000" = id) by (destruct id; [contradiction | reflexivity]).
  rewrite H1, H2, Hcolon.
  replace (Js.has_char ":" (id +:+ ":" +:+ label)) with true
    by (rewrite has_char_app, Hcolon; reflexivity).
  change (id +:+ ":" +:+ label) with (id +:+ String ":" label).
  rewrite (before_app _ _ _ Hcolon), bind_console_ret, bind_ret_l.
  destruct (negb (Js.arr_includes validModels id)); [reflexivity|].
  destruct (negb (Js.arr_includes supportedFormats _)); [reflexivity|].
  destruct (negb (validateModelFormatCompatibility id _)); reflexivity.
Qed.

(** X4.  With a usable prompt, count and model and no format given, the
    request is accepted with format svg when the model is 8000 and
    png for every other model. *)
Theorem absent_format_follows_model (args : GenerateArgs) (p : string) (w : World) :
  Js.truthy (a_prompt args) = Some p -> Js.trim p <> "" ->
  1 <= count_or_1 (a_image_count args) <= 10 ->
  In (model_id args) validModels ->
  Js.truthy (a_format args) = None ->
  exists w',
    validate args w =
      (Ok (inr {| v_prompt := p; v_model := model_id args;
                  v_format := if String.eqb (model_id args) "8000" then "svg" else "png";
                  v_count := count_or_1 (a_image_count args) |}), w').
Proof.
  intros Hp Ht Hc Hm Hf.
  destruct (validate_accepts args p
              (if String.eqb (model_id args) "8000" then "svg" else "png") w Hp Ht Hc Hm)
    as (w' & Hv & _).
  - unfold Js.or_else. rewrite Hf. reflexivity.
  - destruct (String.eqb (model_id args) "8000"); simpl; tauto.
  - destruct (String.eqb_spec (model_id args) "8000") as [E|E].
    + rewrite E. reflexivity.
    + destruct (validateModelFormatCompatibility (model_id args) "png") eqn:Hv; [reflexivity|].
      apply incompatible_iff in Hv as [Hv _]. discriminate Hv.
  - exists w'. exact Hv.
Qed.

(** *** The answers of [generate_image] *)

Lemma classify_spec (error : thrown) (w : World) :
  exists k msg,
    classify error w
      = errorResponse (failure k msg)
          (emit (EConsole ErrorLevel ("Detailed error: " +:+ message_of error)) w)
    /\ In k pipeline_kinds
    /\ (is_Error error = false -> k = UNKNOWN_ERROR /\ msg = "Unknown error").
Proof.
  unfold classify, bind, console, emitM, pipeline_kinds.
  destruct (is_Error error) eqn:He; simpl andb.
  - destruct (Js.includes (message_of error) "SVG format");
      [eexists _, _; split; [reflexivity | split; [simpl; tauto | discriminate]]|].
    destruct (Js.includes (message_of error) "Failed to fetch image");
      [eexists _, _; split; [reflexivity | split; [simpl; tauto | discriminate]]|].
    destruct (Js.includes (message_of error) "rate limit");
      [eexists _, _; split; [reflexivity | split; [simpl; tauto | discriminate]]|].
    destruct (_ || _);
      eexists _, _; (split; [reflexivity | split; [simpl; tauto | discriminate]]).
  - eexists _, _. split; [reflexivity|]. split; [simpl; tauto | intros _; split; reflexivity].
Qed.

Lemma pipeline_success_is_no_error (env : Env) (args : GenerateArgs) (v : Validated)
    (w w' : World) (r : ToolResult) :
  pipeline env args v w = (Ok r, w') -> isError r = false.
Proof.
  unfold pipeline, bind.
  destruct (submit_loop _ _ _ _ _ _ _ _) as [[[[|first rest]|]|e] w1]; try discriminate.
  destruct (fetchWithPolling _ _ _ _ _) as [[job|e] w2]; try discriminate.
  destruct (Js.truthy (image_url job)) as [imgUrl|]; try discriminate.
  destruct (saveImage _ _ _ _ _ _ _ _ _ _) as [[filepath|e] w3]; try discriminate.
  destruct (announce_never_fails env args v filepath w3) as (r0 & w4 & Ha & Hr).
  rewrite Ha. intros H. injection H as <- _. exact Hr.
Qed.

Lemma generate_image_runs (env : Env) (args : GenerateArgs) (w : World) :
  exists r w', generate_image env args w = (Ok r, w').
Proof.
  unfold generate_image, try_catch, bind at 1.
  destruct (validate_spec args w) as [(msg & w0 & Hv & _) | (p & w1 & Hv & _)]; rewrite Hv.
  - rewrite invalid_eq. eexists _, _. reflexivity.
  - destruct (pipeline env args _ w1) as [[r|e] w2]; [eexists _, _; reflexivity|].
    destruct (classify_spec e w2) as (k & m & Hc & _). rewrite Hc, errorResponse_eq.
    eexists _, _. reflexivity.
Qed.

(** X5.  [generate_image] never rejects: every run returns a response,
    and a response flagged [isError] is the error response of a
    Validation failure or of one of the five kinds its [catch]
    classifies into (format, network, API, authentication,
    unknown). *)
Theorem generate_image_always_answers (env : Env) (args : GenerateArgs) (w : World) :
  exists r w',
    generate_image env args w = (Ok r, w')
    /\ (isError r = true ->
        exists k msg w0,
          (Ok r, w') = errorResponse (failure k msg) w0
          /\ (k = VALIDATION_ERROR \/ In k pipeline_kinds)).
Proof.
  unfold generate_image, try_catch, bind at 1.
  destruct (validate_spec args w) as [(msg & w0 & Hv & _) | (p & w1 & Hv & _)]; rewrite Hv.
  - rewrite invalid_eq. eexists _, _. split; [reflexivity|]. intros _.
    exists VALIDATION_ERROR, msg, w0. split; [reflexivity | left; reflexivity].
  - destruct (pipeline env args _ w1) as [[r|e] w2] eqn:Hp.
    + exists r, w2. split; [reflexivity|]. intros Hr.
      rewrite (pipeline_success_is_no_error _ _ _ _ _ _ Hp) in Hr. discriminate Hr.
    + destruct (classify_spec e w2) as (k & m & Hc & Hk & _). rewrite Hc.
      rewrite errorResponse_eq. eexists _, _. split; [reflexivity|]. intros _.
      exists k, m, (emit (EConsole ErrorLevel ("Detailed error: " +:+ message_of e)) w2).
      split; [rewrite errorResponse_eq; reflexivity | right; exact Hk].
Qed.

(** *** The destination: project directory and output path *)

Lemma In_emit (x e : Event) (w : World) :
  In x (trace (emit e w)) <-> In x (trace w) \/ x = e.
Proof. unfold emit. cbn [trace]. rewrite in_app_iff. cbn. intuition congruence. Qed.

Lemma network_calls_emit (e : Event) (w : World) :
  is_network e = false -> network_calls (emit e w) = network_calls w.
Proof.
  intros He. unfold network_calls, emit. cbn [trace]. rewrite filter_app.
  rewrite filter_cons_False, filter_nil by (rewrite He; discriminate).
  apply app_nil_r.
Qed.

Lemma processWebProjectPath_eq (env : Env) (base : string) (projectType assetPath : option string)
    (w : World) :
  base <> "" ->
  processWebProjectPath env (Some base) projectType assetPath w =
  let dir := assetDirectory base projectType assetPath in
  match mkdir_result env dir with
  | None => (Ok (Some dir), emit (EMkdir dir) w)
  | Some e =>
      (Ok None,
       emit (EConsole ErrorLevel ("Failed to process web project path: " +:+ message_of e))
         (emit (EMkdir dir) w))
  end.
Proof.
  intros Hb. unfold processWebProjectPath, assetDirectory.
  replace (Js.truthy (Some base)) with (Some base) by (destruct base; [contradiction | reflexivity]).
  cbv zeta.
  unfold try_catch, bind, mkdir, bind, emitM, of_result, console, emitM, ret, throw.
  destruct (Js.truthy projectType) as [t|].
  - destruct (String.eqb (Js.toLowerCase t) "react"), (String.eqb (Js.toLowerCase t) "vue"),
      (String.eqb (Js.toLowerCase t) "angular"), (String.eqb (Js.toLowerCase t) "next"),
      (String.eqb (Js.toLowerCase t) "nuxt"); cbn [orb];
      destruct (mkdir_result env _); reflexivity.
  - destruct (Js.truthy assetPath); destruct (mkdir_result env _); reflexivity.
Qed.

Lemma truthy_some (s : string) : s <> "" -> Js.truthy (Some s) = Some s.
Proof. destruct s; [contradiction | reflexivity]. Qed.

Lemma truthy_inv (o : option string) (s : string) :
  Js.truthy o = Some s -> o = Some s /\ s <> "".
Proof.
  destruct o as [[|c x]|]; try discriminate. intros [= <-]. split; [reflexivity | discriminate].
Qed.

(** X6.  [processWebProjectPath] never throws and makes no network
    call.  Without a base path it returns nothing and does nothing;
    with one it tries to create the asset directory of the project,
    returns it when that succeeded, and when it failed logs the
    failure and returns nothing. *)
Theorem processWebProjectPath_never_throws
    (env : Env) (basePath projectType assetPath : option string) (w : World) :
  exists r w',
    processWebProjectPath env basePath projectType assetPath w = (Ok r, w')
    /\ files w' = files w /\ network_calls w' = network_calls w
    /\ (Js.truthy basePath = None -> r = None /\ w' = w)
    /\ (forall base, Js.truthy basePath = Some base ->
        let dir := assetDirectory base projectType assetPath in
        In (EMkdir dir) (trace w')
        /\ match mkdir_result env dir with
           | None => r = Some dir
           | Some e =>
               r = None
               /\ In (EConsole ErrorLevel
                        ("Failed to process web project path: " +:+ message_of e))
                     (trace w')
           end).
Proof.
  destruct (Js.truthy basePath) as [base|] eqn:Ht.
  - apply truthy_inv in Ht as [-> Hb].
    rewrite (processWebProjectPath_eq env base projectType assetPath w Hb). cbv zeta.
    destruct (mkdir_result env _) as [e|] eqn:Hm; eexists _, _;
      (split; [reflexivity|]); (split; [reflexivity|]);
      (split; [rewrite !network_calls_emit by reflexivity; reflexivity|]);
      (split; [discriminate|]); intros b [= <-]; rewrite Hm;
      rewrite !In_emit; tauto.
  - unfold processWebProjectPath. rewrite Ht. exists None, w.
    repeat split; discriminate.
Qed.

Lemma bind_run {A B} (m : M A) (k : A -> M B) (w : World) :
  bind m k w = match m w with
               | (Ok a, w') => k a w'
               | (Throw e, w') => (Throw e, w')
               end.
Proof. reflexivity. Qed.

Lemma try_catch_run {A} (m : M A) (h : thrown -> M A) (w : World) :
  try_catch m h w = match m w with
                    | (Ok a, w') => (Ok a, w')
                    | (Throw e, w') => h e w'
                    end.
Proof. reflexivity. Qed.

Lemma try_catch_bind {A B} (m : M A) (k : A -> M B) (h : thrown -> M B) (w : World) :
  try_catch (bind m k) h w = match m w with
                             | (Ok a, w') => try_catch (k a) h w'
                             | (Throw e, w') => h e w'
                             end.
Proof. unfold try_catch, bind. destruct (m w) as [[a|e] w']; reflexivity. Qed.

Lemma saveImage_phases (env : Env) (imageUrl prompt model : string) (format : option string)
    (outputPath webProjectPath projectType assetPath : option string) (w : World) :
  let fmt := Js.toLowerCase (default "svg" format) in
  saveImage env imageUrl prompt model format outputPath webProjectPath projectType assetPath w
  = match saveImage_rejects model fmt with
    | Some error => (Throw error, w)
    | None =>
        match destination env prompt model fmt outputPath webProjectPath projectType assetPath w with
        | (Ok filepath, w1) =>
            match download env fmt imageUrl filepath w1 with
            | (Ok p, w2) => (Ok p, w2)
            | (Throw e, w2) => (Throw (JsError ("Failed to save image: " +:+ message_of e)), w2)
            end
        | (Throw e, w1) => (Throw (JsError ("Failed to save image: " +:+ message_of e)), w1)
        end
    end.
Proof.
  cbv zeta. unfold saveImage.
  destruct (saveImage_rejects model _); [reflexivity|].
  rewrite try_catch_bind. unfold destination. rewrite bind_run.
  destruct (match Js.truthy webProjectPath with
            | Some _ => processWebProjectPath env webProjectPath projectType assetPath
            | None => ret None
            end w) as [[pb|e] w0]; [|reflexivity].
  rewrite try_catch_bind.
  destruct (resolvePath env prompt model _ outputPath pb w0) as [[filepath|e] w1];
    [|reflexivity].
  rewrite try_catch_run. reflexivity.
Qed.

(** X7.  When no output path is given and the asset directory of the
    web project cannot be created, the destination silently falls
    back to the storage directory, with the timestamped default name:
    the failure is logged and the image is not saved in the
    project. *)
Theorem unusable_project_directory_falls_back_to_storage
    (env : Env) (prompt model format base : string)
    (outputPath projectType assetPath : option string) (e : thrown) (w : World) :
  Js.truthy outputPath = None ->
  base <> "" ->
  mkdir_result env (assetDirectory base projectType assetPath) = Some e ->
  destination env prompt model format outputPath (Some base) projectType assetPath w
  = (Ok (Path.join (STORAGE_DIR env)
           (fileStamp (clock env) +:+ "_" +:+ model +:+ "_" +:+ sanitizePrompt prompt
              +:+ "." +:+ format)),
     emit EClock
       (emit (EConsole ErrorLevel ("Failed to process web project path: " +:+ message_of e))
          (emit (EMkdir (assetDirectory base projectType assetPath)) w))).
Proof.
  intros Ho Hb Hm. unfold destination. rewrite (truthy_some _ Hb), bind_run.
  rewrite (processWebProjectPath_eq env base projectType assetPath w Hb). cbv zeta.
  rewrite Hm. unfold resolvePath. rewrite bind_run. unfold toISOString_now.
  rewrite bind_run. unfold emitM, ret. rewrite Ho. reflexivity.
Qed.



(** *** The download *)

Lemma fetch_loop_origin (env : Env) (M : nat) (url : string) : forall (fuel rc : nat)
    (response : option Response) (w w' : World) (r : Response),
  fetch_loop env M fuel url rc response w = (Ok (Some r), w') ->
  response = Some r \/ exists k, fetch_result env k = Ok r.
Proof.
  induction fuel as [|fuel IH]; intros rc response w w' r.
  - simpl. unfold ret. intros H. injection H as -> _. left. reflexivity.
  - destruct (Nat.ltb_spec rc M) as [Hrc|Hrc].
    2:{ rewrite fetch_loop_done by lia. intros H. injection H as -> _. left. reflexivity. }
    rewrite fetch_loop_step by exact Hrc. cbv zeta.
    destruct (fetch_result env (fetches w)) as [r0|e] eqn:E.
    + destruct (ok r0).
      * intros H. injection H as -> _. right. eauto.
      * destruct (status r0 =? 429).
        -- intros H. apply IH in H as [H | H]; [injection H as ->; right; eauto | right; exact H].
        -- destruct (M - 1 <=? rc)%nat; [discriminate|].
           intros H. apply IH in H as [H | H]; [injection H as ->; right; eauto | right; exact H].
    + destruct (M - 1 <=? rc)%nat; [discriminate|]. apply IH.
Qed.

Lemma materialize_ok (env : Env) (format content filepath : string) (w w' : World) :
  materialize env format content filepath w = (Ok tt, w') ->
  exists data,
    converted env format content = Some data
    /\ write_result env filepath data = WriteDone
    /\ files w' !! filepath = Some data.
Proof.
  unfold materialize, converted. destruct (String.eqb format "svg").
  - unfold bind, optimize, bind, emitM, of_outcome, writeFile, write.
    destruct (optimize_result env content) as [data|e]; [|discriminate].
    destruct (write_result env filepath data) eqn:Hw; try discriminate.
    intros H. injection H as <-. exists data. cbn [files].
    split; [reflexivity|]. split; [exact Hw | apply lookup_insert_eq].
  - cbv zeta. unfold try_catch.
    assert (Hs : forall codec w0 w1,
               sharp_toFile env codec 90 content filepath w0 = (Ok tt, w1) ->
               exists data, produced (sharp_result env codec content) = Some data
                            /\ write_result env filepath data = WriteDone
                            /\ files w1 !! filepath = Some data).
    { intros codec w0 w1. unfold sharp_toFile, bind, emitM, of_outcome, write.
      destruct (sharp_result env codec content) as [data|e]; [|discriminate].
      destruct (write_result env filepath data) eqn:Hw; try discriminate.
      intros H. injection H as <-. exists data. cbn [files].
      split; [reflexivity|]. split; [exact Hw | apply lookup_insert_eq]. }
    destruct (String.eqb (Js.toLowerCase format) "png").
    { destruct (sharp_toFile env "png" 90 content filepath w) as [[[]|e] w1] eqn:E;
        [|discriminate]. intros H. injection H as <-. eapply Hs, E. }
    destruct (_ || _).
    { destruct (sharp_toFile env "jpeg" 90 content filepath w) as [[[]|e] w1] eqn:E;
        [|discriminate]. intros H. injection H as <-. eapply Hs, E. }
    destruct (String.eqb (Js.toLowerCase format) "webp").
    { destruct (sharp_toFile env "webp" 90 content filepath w) as [[[]|e] w1] eqn:E;
        [|discriminate]. intros H. injection H as <-. eapply Hs, E. }
    discriminate.
Qed.

Lemma download_ok (env : Env) (format imageUrl fp p : string) (w w' : World) :
  download env format imageUrl fp w = (Ok p, w') ->
  p = fp
  /\ exists (k : nat) (r : Response) (content data : string),
       fetch_result env k = Ok r /\ ok r = true /\ body r = Ok content
       /\ converted env format content = Some data
       /\ write_result env fp data = WriteDone
       /\ files w' !! fp = Some data.
Proof.
  unfold download. rewrite bind_run.
  destruct (fetch_loop env MAX_RETRIES MAX_RETRIES imageUrl 0 None w) as [[[r|]|e] w2] eqn:Hl;
    try discriminate.
  destruct (ok r) eqn:Hok; [|discriminate].
  apply fetch_loop_origin in Hl as [Hl | (k & Hk)]; [discriminate Hl|].
  rewrite bind_run. unfold of_outcome.
  destruct (body r) as [content|e] eqn:Hb; [|discriminate].
  rewrite bind_run.
  destruct (materialize env _ content fp w2) as [[[]|e] w3] eqn:Hm; [|discriminate].
  unfold ret. intros H. injection H as <- <-. split; [reflexivity|].
  destruct (materialize_ok _ _ _ _ _ _ Hm) as (data & Hc & Hw & Hf).
  exists k, r, content, data. repeat split; assumption.
Qed.

Lemma saveImage_reaches_download
    (env : Env) (imageUrl prompt model : string) (format : option string)
    (outputPath webProjectPath projectType assetPath : option string)
    (w w' : World) (filepath : string) :
  saveImage env imageUrl prompt model format outputPath webProjectPath projectType assetPath w
    = (Ok filepath, w') ->
  exists fp w1,
    download env (Js.toLowerCase (default "svg" format)) imageUrl fp w1 = (Ok filepath, w').
Proof.
  rewrite saveImage_phases. cbv zeta.
  destruct (saveImage_rejects model _); [discriminate|].
  destruct (destination _ _ _ _ _ _ _ _ _) as [[fp|e] w1]; [|discriminate].
  destruct (download _ _ _ _ _) as [[p|e] w2] eqn:Hd; [|discriminate].
  intros [= <- <-]. exists fp, w1. exact Hd.
Qed.

(** X9.  Whenever [saveImage] returns a path, one of the fetches was
    answered with an ok response, the conversion of its body for the
    lower-cased format (svg when none is given) succeeded, the write
    of the converted bytes to that path succeeded, and the file at the
    returned path holds them. *)
Theorem saveImage_returns_a_written_file
    (env : Env) (imageUrl prompt model : string) (format : option string)
    (outputPath webProjectPath projectType assetPath : option string)
    (w w' : World) (filepath : string) :
  saveImage env imageUrl prompt model format outputPath webProjectPath projectType assetPath w
    = (Ok filepath, w') ->
  exists (k : nat) (r : Response) (content data : string),
    fetch_result env k = Ok r /\ ok r = true /\ body r = Ok content
    /\ converted env (Js.toLowerCase (default "svg" format)) content = Some data
    /\ write_result env filepath data = WriteDone
    /\ files w' !! filepath = Some data.
Proof.
  intros Hs. apply saveImage_reaches_download in Hs as (fp & w1 & Hd).
  apply download_ok in Hd as (Hfp & k & r & content & data & H). subst fp.
  exists k, r, content, data. exact H.
Qed.

(** *** The waits of the retry loops *)

Lemma sleeps_emit (e : Event) (w : World) :
  sleeps (emit e w) = (sleeps w ++ match e with ESleep ms => [ms] | _ => [] end)%list.
Proof.
  unfold sleeps, emit. cbn [trace]. rewrite flat_map_app. cbn. rewrite app_nil_r. reflexivity.
Qed.

Lemma sleeps_create (env : Env) (m p : string) (c : Z) (v : bool) (w : World) :
  sleeps (snd (generations_create env m p c v w)) = sleeps w.
Proof.
  unfold sleeps, generations_create. cbn [snd trace]. rewrite flat_map_app. cbn.
  apply app_nil_r.
Qed.

Lemma sleeps_fetch (env : Env) (url : string) (t : Z) (w : World) :
  sleeps (snd (fetch env url t w)) = sleeps w.
Proof.
  unfold sleeps, fetch. cbn [snd trace]. rewrite flat_map_app. cbn. apply app_nil_r.
Qed.

Lemma submit_loop_sleeps (env : Env) (M : nat) (m p : string) (c : Z) (j : nat) :
  forall (fuel rc : nat) (w : World),
  (rc + j < M)%nat -> (j < fuel)%nat ->
  (forall k, (k < j)%nat -> create_failed (create_result env (creates w + k))) ->
  (rc + j = M - 1)%nat \/ ~ create_failed (create_result env (creates w + j)) ->
  sleeps (snd (submit_loop env M fuel m p c rc w))
  = (sleeps w ++ map backoff (seq rc j))%list.
Proof.
  induction j as [|j IH]; intros fuel rc w Hrc Hfuel Hfail Hlast;
    (destruct fuel as [|fuel]; [lia|]); rewrite submit_loop_step by lia; cbv zeta.
  - rewrite !Nat.add_0_r in *. cbn [seq map]. rewrite app_nil_r.
    destruct (create_result env (creates w)) eqn:E.
    + apply sleeps_create.
    + destruct Hlast as [Hl | Hl]; [|exfalso; apply Hl; exact I].
      replace (M - 1 <=? rc)%nat with true by (symmetry; apply Nat.leb_le; lia).
      apply sleeps_create.
  - pose proof (Hfail 0%nat ltac:(lia)) as H0. rewrite Nat.add_0_r in H0.
    destruct (create_result env (creates w)) eqn:E; [destruct H0|].
    replace (M - 1 <=? rc)%nat with false by (symmetry; apply Nat.leb_gt; lia).
    rewrite IH.
    + rewrite sleeps_emit, sleeps_create. cbn [seq map]. rewrite <- app_assoc. reflexivity.
    + lia.
    + lia.
    + intros k Hk. cbn [creates emit generations_create snd].
      replace (S (creates w) + k)%nat with (creates w + S k)%nat by lia. apply Hfail. lia.
    + cbn [creates emit generations_create snd].
      replace (S (creates w) + j)%nat with (creates w + S j)%nat by lia.
      destruct Hlast; [left; lia | right; assumption].
Qed.

Lemma fetch_loop_sleeps (env : Env) (M : nat) (url : string) (j : nat) :
  forall (fuel rc : nat) (response : option Response) (w : World),
  (rc + j < M)%nat -> (j < fuel)%nat ->
  (forall k, (k < j)%nat -> fetch_failed (fetch_result env (fetches w + k))) ->
  (rc + j = M - 1)%nat \/ ~ fetch_failed (fetch_result env (fetches w + j)) ->
  sleeps (snd (fetch_loop env M fuel url rc response w))
  = (sleeps w ++ waits env (fetches w) rc j
       ++ last_wait (fetch_result env (fetches w + j)))%list.
Proof.
  induction j as [|j IH]; intros fuel rc response w Hrc Hfuel Hfail Hlast;
    (destruct fuel as [|fuel]; [lia|]); rewrite fetch_loop_step by lia; cbv zeta.
  - rewrite !Nat.add_0_r in *. cbn [waits app]. unfold last_wait.
    destruct (fetch_result env (fetches w)) as [r|e] eqn:E.
    + destruct (ok r) eqn:Hok; cbn [negb andb].
      * cbn [snd]. rewrite sleeps_fetch, app_nil_r. reflexivity.
      * destruct Hlast as [Hl | Hl]; [|exfalso; apply Hl; exact Hok].
        destruct (status r =? 429).
        -- rewrite fetch_loop_done by lia. cbn [snd].
           rewrite sleeps_emit, sleeps_fetch. reflexivity.
        -- replace (M - 1 <=? rc)%nat with true by (symmetry; apply Nat.leb_le; lia).
           cbn [snd]. rewrite sleeps_fetch, app_nil_r. reflexivity.
    + destruct Hlast as [Hl | Hl]; [|exfalso; apply Hl; exact I].
      replace (M - 1 <=? rc)%nat with true by (symmetry; apply Nat.leb_le; lia).
      cbn [snd]. rewrite sleeps_fetch, app_nil_r. reflexivity.
  - pose proof (Hfail 0%nat ltac:(lia)) as H0. rewrite Nat.add_0_r in H0.
    assert (Hnext : forall (resp : option Response) (ms : option Z),
               ms = wait_after (fetch_result env (fetches w)) rc ->
               sleeps (snd (fetch_loop env M fuel url (S rc) resp
                              (emit (ESleep ms) (snd (fetch env url 30000 w)))))
               = (sleeps w ++ waits env (fetches w) rc (S j)
                    ++ last_wait (fetch_result env (fetches w + S j)))%list).
    { intros resp ms Hms. rewrite IH.
      - rewrite sleeps_emit, sleeps_fetch. cbn [fetches emit fetch snd waits].
        replace (S (fetches w) + j)%nat with (fetches w + S j)%nat by lia.
        rewrite Hms, <- app_assoc. reflexivity.
      - lia.
      - lia.
      - intros k Hk. cbn [fetches emit fetch snd].
        replace (S (fetches w) + k)%nat with (fetches w + S k)%nat by lia. apply Hfail. lia.
      - cbn [fetches emit fetch snd].
        replace (S (fetches w) + j)%nat with (fetches w + S j)%nat by lia.
        destruct Hlast; [left; lia | right; assumption]. }
    replace (M - 1 <=? rc)%nat with false by (symmetry; apply Nat.leb_gt; lia).
    unfold wait_after in Hnext.
    destruct (fetch_result env (fetches w)) as [r|e] eqn:E; cbn in H0.
    + rewrite H0. destruct (status r =? 429); apply Hnext; reflexivity.
    + apply Hnext; reflexivity.
Qed.

(** X10.  The waits of the two retry loops.  With budget [M] and [N]
    attempts made ([N - 1] failures, then a success or the budget
    ends), the submission loop waits 1000, 2000, 4000, ... ms,
    [N - 1] times in all; the fetch loop waits after each of the
    first [N - 1] failures (the retry-after hint after a 429, the
    same exponential delay otherwise), and once more after the last
    attempt when that one was answered 429. *)
Theorem retry_waits_follow_the_schedule
    (env : Env) (M N : nat) (modelInput prompt url : string) (image_count : Z) (w : World) :
  (1 <= N <= M)%nat ->
  (forall k, (k < N - 1)%nat -> create_failed (create_result env (creates w + k))) ->
  (forall k, (k < N - 1)%nat -> fetch_failed (fetch_result env (fetches w + k))) ->
  (N = M \/ ~ create_failed (create_result env (creates w + (N - 1))) ->
   sleeps (snd (submit_loop env M M modelInput prompt image_count 0 w))
   = (sleeps w ++ map (fun k => Some (1000 * 2 ^ Z.of_nat k)) (seq 0 (N - 1)))%list)
  /\ (N = M \/ ~ fetch_failed (fetch_result env (fetches w + (N - 1))) ->
      sleeps (snd (fetch_loop env M M url 0 None w))
      = (sleeps w ++ waits env (fetches w) 0 (N - 1)
           ++ last_wait (fetch_result env (fetches w + (N - 1))))%list).
Proof.
  intros HN Hc Hf. split; intros Hlast.
  - apply submit_loop_sleeps; try lia; try assumption.
    destruct Hlast; [left; lia | right; assumption].
  - apply fetch_loop_sleeps; try lia; try assumption.
    destruct Hlast; [left; lia | right; assumption].
Qed.

(** *** A download that is always rate limited *)

Lemma ok_429 (r : Response) : status r = 429 -> ok r = false.
Proof. intros H. unfold ok. rewrite H. reflexivity. Qed.

Lemma download_rate_limited (env : Env) (format url filepath : string) (w : World) :
  (forall k, (k < 3)%nat ->
     exists r, fetch_result env (fetches w + k) = Ok r /\ status r = 429) ->
  exists w',
    download env format url filepath w
      = (Throw (JsError "Failed to fetch image after 3 attempts"), w')
    /\ fetches w' = (fetches w + 3)%nat /\ files w' = files w.
Proof.
  intros H.
  destruct (fetch_loop_runs env MAX_RETRIES url 2 MAX_RETRIES 0 None w)
    as (w' & Hrun & Hfe & _ & Hfi).
  - unfold MAX_RETRIES. lia.
  - unfold MAX_RETRIES. lia.
  - intros k Hk. destruct (H k ltac:(lia)) as (r & -> & Hs). apply ok_429, Hs.
  - left. reflexivity.
  - destruct (H 2%nat ltac:(lia)) as (r & Hr & Hs).
    exists w'. unfold download. rewrite bind_run, Hrun, Hr. unfold loop_end.
    replace (ok r || (status r =? 429)) with true by (rewrite Hs; symmetry; apply orb_true_r).
    cbv beta iota. rewrite (ok_429 _ Hs).
    split; [reflexivity|]. split; [lia | exact Hfi].
Qed.

(** X11.  A download answered 429 on each of the three attempts ends
    the whole [generate_image] call with the error response of a
    Network failure ("Failed to download the generated image ..."),
    after exactly three fetches and with no file written: the text
    "Failed to fetch image after 3 attempts" is what the classifier
    matches. *)
Theorem rate_limited_download_is_reported_as_network_error
    (env : Env) (args : GenerateArgs) (v : Validated) (first : Generation)
    (rest : list Generation) (job : CompletedGen) (imgUrl filepath : string)
    (w w1 w2 w4 : World) :
  validate args w = (Ok (inr v), w1) ->
  submit_loop env MAX_RETRIES MAX_RETRIES (v_model v) (v_prompt v) (v_count v) 0 w1
    = (Ok (Some (first :: rest)), w2) ->
  poll_result env (gen_id first) = Ok job ->
  Js.truthy (image_url job) = Some imgUrl ->
  destination env (v_prompt v) (v_model v) (Js.toLowerCase (v_format v))
    (a_output_path args) (a_web_project_path args) (a_project_type args) (a_asset_path args)
    (emit (EPoll (gen_id first) 30 3000) w2) = (Ok filepath, w4) ->
  (forall k, (k < 3)%nat ->
     exists r, fetch_result env (fetches w4 + k) = Ok r /\ status r = 429) ->
  returns_failure NETWORK_ERROR (generate_image env args w)
  /\ fst (generate_image env args w)
     = Ok {| content := ["Error: Failed to download the generated image. Please check your internet connection and try again."];
             isError := true |}
  /\ fetches (snd (generate_image env args w)) = (fetches w4 + 3)%nat
  /\ files (snd (generate_image env args w)) = files w4.
Proof.
  intros Hv Hs Hp Hu Hd H429.
  destruct (download_rate_limited env (Js.toLowerCase (v_format v)) imgUrl filepath w4 H429)
    as (w5 & Hdl & Hfe & Hfi).
  assert (Hsave : saveImage env imgUrl (v_prompt v) (v_model v) (Some (v_format v))
                    (a_output_path args) (a_web_project_path args) (a_project_type args)
                    (a_asset_path args) (emit (EPoll (gen_id first) 30 3000) w2)
                  = (Throw (JsError "Failed to save image: Failed to fetch image after 3 attempts"),
                     w5)).
  { rewrite saveImage_phases. cbv zeta. change (default "svg" (Some (v_format v))) with (v_format v).
    rewrite (well_formed_passes_guard v (validated_well_formed args v w w1 Hv)), Hd, Hdl.
    reflexivity. }
  assert (Hrun : generate_image env args w
                 = classify (JsError "Failed to save image: Failed to fetch image after 3 attempts") w5).
  { unfold generate_image. rewrite try_catch_bind, Hv. unfold pipeline.
    rewrite try_catch_bind, Hs. rewrite try_catch_bind.
    unfold fetchWithPolling. rewrite bind_run. unfold emitM, of_outcome. rewrite Hp, Hu.
    rewrite try_catch_bind, Hsave. reflexivity. }
  rewrite Hrun. split; [eexists _, _; reflexivity|]. split; [reflexivity|].
  split; [exact Hfe | exact Hfi].
Qed.

(** *** The default file name *)

Lemma take_length (n : nat) : forall s : string,
  String.length (Js.take n s) = Nat.min n (String.length s).
Proof. induction n as [|n IH]; intros [|c s]; simpl; auto. Qed.

Lemma sanitized_char_is_fragment (c : ascii) :
  fragment_char (Js.lower_char (sanitize_char c)) = true.
Proof. destruct c as [[] [] [] [] [] [] [] []]; reflexivity. Qed.

Lemma fragment_char_fixed (c : ascii) :
  fragment_char c = true -> Js.lower_char (sanitize_char c) = c.
Proof. destruct c as [[] [] [] [] [] [] [] []]; try discriminate; reflexivity. Qed.

Lemma sanitize_map_fixed (s : string) :
  all_chars fragment_char s = true ->
  Js.toLowerCase (Js.map_chars sanitize_char s) = s.
Proof.
  unfold Js.toLowerCase. induction s as [|c s IH]; [reflexivity|]. simpl.
  intros H. apply andb_prop in H as [Hc Hs]. rewrite (fragment_char_fixed _ Hc), (IH Hs).
  reflexivity.
Qed.

Lemma of_chars_length (l : list ascii) : String.length (Js.of_chars l) = length l.
Proof. induction l as [|c l IH]; simpl; congruence. Qed.

Lemma fragment_char_is_ascii (c : ascii) : fragment_char c = true -> is_ascii c = true.
Proof. destruct c as [[] [] [] [] [] [] [] []]; try discriminate; reflexivity. Qed.

Lemma units_of_ascii : forall s : string,
  all_chars is_ascii s = true -> length (Js.units s) = String.length s.
Proof.
  induction s as [|c s IH]; [reflexivity|]. simpl. intros H.
  apply andb_prop in H as [Hc Hs]. unfold Js.units_of_byte. unfold is_ascii in Hc.
  rewrite Hc. simpl. rewrite (IH Hs). reflexivity.
Qed.

Lemma sanitize_ascii : forall (s : string) (n : nat),
  all_chars is_ascii s = true ->
  Js.of_chars (map sanitize_unit (firstn n (Js.units s)))
  = Js.map_chars sanitize_char (Js.take n s).
Proof.
  induction s as [|c s IH]; intros n H; [destruct n; reflexivity|].
  simpl in H. apply andb_prop in H as [Hc Hs]. simpl Js.units.
  unfold Js.units_of_byte. unfold is_ascii in Hc. rewrite Hc.
  destruct n as [|n]; [reflexivity|]. simpl. rewrite (IH n Hs). reflexivity.
Qed.

Lemma all_chars_impl (p q : ascii -> bool) (s : string) :
  (forall c, p c = true -> q c = true) -> all_chars p s = true -> all_chars q s = true.
Proof.
  intros Hpq. induction s as [|c s IH]; [reflexivity|]. simpl. intros H.
  apply andb_prop in H as [Hc Hs]. rewrite (Hpq c Hc), (IH Hs). reflexivity.
Qed.

(** X12.  The prompt fragment of a default file name has as many
    characters as the prompt has UTF-16 code units, 20 at most; it
    holds only lower-case letters, digits and underscores; sanitising
    it again changes nothing.  For an ASCII prompt it is the first 20
    characters, each letter lower-cased and each character that is no
    letter or digit replaced by an underscore. *)
Theorem sanitizePrompt_is_a_safe_fragment (prompt : string) :
  String.length (sanitizePrompt prompt) = Nat.min 20 (length (Js.units prompt))
  /\ all_chars fragment_char (sanitizePrompt prompt) = true
  /\ sanitizePrompt (sanitizePrompt prompt) = sanitizePrompt prompt
  /\ (all_chars is_ascii prompt = true ->
      length (Js.units prompt) = String.length prompt
      /\ sanitizePrompt prompt
         = Js.toLowerCase (Js.map_chars sanitize_char (Js.take 20 prompt))).
Proof.
  assert (Hlen : String.length (sanitizePrompt prompt)
                 = Nat.min 20 (length (Js.units prompt))).
  { unfold sanitizePrompt, Js.toLowerCase.
    rewrite map_chars_length, of_chars_length, length_map. apply length_firstn. }
  assert (Hall : all_chars fragment_char (sanitizePrompt prompt) = true).
  { unfold sanitizePrompt, Js.toLowerCase. generalize (firstn 20 (Js.units prompt)).
    intros l. induction l as [|u l IH]; [reflexivity|]. simpl. rewrite IH, andb_true_r.
    destruct u as [c|]; [apply sanitized_char_is_fragment | reflexivity]. }
  split; [exact Hlen|]. split; [exact Hall|]. split.
  - assert (Hascii : all_chars is_ascii (sanitizePrompt prompt) = true)
      by (apply (all_chars_impl fragment_char); [apply fragment_char_is_ascii | exact Hall]).
    unfold sanitizePrompt at 1. rewrite (sanitize_ascii _ 20 Hascii).
    rewrite take_all by lia. apply sanitize_map_fixed, Hall.
  - intros Hascii. split; [apply units_of_ascii, Hascii|].
    unfold sanitizePrompt. rewrite (sanitize_ascii _ 20 Hascii). reflexivity.
Qed.

Lemma stamp_char_colon (c : ascii) :
  Ascii.eqb (stamp_char c) ":" = false /\ Ascii.eqb (stamp_char c) "." = false.
Proof. destruct c as [[] [] [] [] [] [] [] []]; split; reflexivity. Qed.

Lemma stamp_of_template (tpl : string) : forall s : string,
  matches_template tpl s = true ->
  matches_template (fileStamp tpl) (fileStamp s) = true.
Proof.
  unfold fileStamp. induction tpl as [|t tpl IH]; intros [|c s]; simpl; try discriminate; auto.
  intros H. apply andb_prop in H as [Hc Hs]. rewrite (IH s Hs), andb_true_r.
  destruct (Ascii.eqb_spec t "d") as [->|Ht].
  - cbn. rewrite stamp_digit by exact Hc. exact Hc.
  - apply Ascii.eqb_eq in Hc. subst c.
    destruct (Ascii.eqb_spec (stamp_char t) "d") as [E|E]; [|apply Ascii.eqb_refl].
    exfalso. revert Ht E. clear. destruct t as [[] [] [] [] [] [] [] []]; cbn; congruence.
Qed.

(** X13.  The timestamp put in a file name has the length of the ISO
    timestamp and holds no colon and no dot; for an ISO-shaped
    timestamp it has the shape [dddd-dd-ddTdd-dd-dd-dddZ]. *)
Theorem fileStamp_is_safe_in_a_file_name (iso : string) :
  String.length (fileStamp iso) = String.length iso
  /\ Js.has_char ":" (fileStamp iso) = false
  /\ Js.has_char "." (fileStamp iso) = false
  /\ (iso_shaped iso -> matches_template stamp_template (fileStamp iso) = true).
Proof.
  split; [apply map_chars_length|]. split; [|split].
  - unfold fileStamp. induction iso as [|c s IH]; [reflexivity|]. simpl.
    rewrite (proj1 (stamp_char_colon c)), IH. reflexivity.
  - unfold fileStamp. induction iso as [|c s IH]; [reflexivity|]. simpl.
    rewrite (proj2 (stamp_char_colon c)), IH. reflexivity.
  - intros H. apply (stamp_of_template iso_template iso H).
Qed.

(** *** The extension of a file name *)

Lemma rev_app_spec : forall s acc : string, String.rev_app s acc = String.rev s +:+ acc.
Proof.
  unfold String.rev. induction s as [|c s IH]; intros acc; [reflexivity|]. simpl.
  rewrite IH, (IH (String c "")), app_assoc_s. reflexivity.
Qed.

Lemma rev_cons (c : ascii) (s : string) : String.rev (String c s) = String.rev s +:+ String c "".
Proof. unfold String.rev at 1. simpl. apply rev_app_spec. Qed.

Lemma rev_app_distr (a b : string) : String.rev (a +:+ b) = String.rev b +:+ String.rev a.
Proof.
  induction a as [|c a IH].
  - change ("" +:+ b) with b. change (String.rev "") with "". rewrite app_empty_r. reflexivity.
  - rewrite app_cons, !rev_cons, IH, app_assoc_s. reflexivity.
Qed.

Lemma rev_length (s : string) : String.length (String.rev s) = String.length s.
Proof.
  induction s as [|c s IH]; [reflexivity|]. rewrite rev_cons, length_app, IH. simpl. lia.
Qed.

Lemma has_char_rev (c : ascii) (s : string) : Js.has_char c (String.rev s) = Js.has_char c s.
Proof.
  induction s as [|x s IH]; [reflexivity|]. rewrite rev_cons, has_char_app, IH. simpl.
  rewrite orb_false_r. apply orb_comm.
Qed.

Lemma scan_app (a : string) : forall (b : string) (i : Z) (st : Path.ExtScan),
  Path.scan (a +:+ b) i st
  = Path.scan b (i - Z.of_nat (String.length a)) (Path.scan a i st).
Proof.
  induction a as [|c a IH]; intros b i st.
  - change ("" +:+ b) with b. simpl. f_equal. lia.
  - rewrite app_cons. simpl Path.scan. rewrite IH. f_equal. simpl String.length. lia.
Qed.

(** Characters of the extension: no dot seen yet, the end is set. *)
Lemma scan_extension (s : string) : forall (i E : Z),
  Js.has_char "/" s = false -> Js.has_char "." s = false -> E <> -1 ->
  Path.scan s i {| Path.startDot := -1; Path.startPart := 0; Path.end_ := E;
                   Path.matchedSlash := false; Path.preDotState := 0;
                   Path.stopped := false |}
  = {| Path.startDot := -1; Path.startPart := 0; Path.end_ := E;
       Path.matchedSlash := false; Path.preDotState := 0; Path.stopped := false |}.
Proof.
  induction s as [|c s IH]; intros i E Hs Hd HE; [reflexivity|].
  simpl in Hs, Hd. apply orb_false_iff in Hs as [Hc Hs]. apply orb_false_iff in Hd as [Hc' Hd].
  simpl Path.scan. unfold Path.scan_step at 1. cbn [Path.stopped Path.end_ Path.matchedSlash].
  unfold Path.slash, Path.dot. rewrite Hc, Hc'.
  replace (E =? -1) with false by (symmetry; apply Z.eqb_neq; exact HE).
  cbn. apply IH; assumption.
Qed.

(** Characters of the stem: the dot and the end stay, the state before
    the dot is no longer 0. *)
Lemma scan_stem (s : string) : forall (i : Z) (st : Path.ExtScan),
  Js.has_char "/" s = false ->
  Path.startDot st <> -1 -> Path.end_ st <> -1 -> Path.stopped st = false ->
  let st' := Path.scan s i st in
  Path.startDot st' = Path.startDot st /\ Path.end_ st' = Path.end_ st
  /\ (Path.preDotState st <> 0 \/ s <> "" -> Path.preDotState st' <> 0).
Proof.
  induction s as [|c s IH]; intros i st Hs Hd He Hst; cbv zeta.
  - simpl. repeat split. intros [H | H]; [exact H | contradiction].
  - simpl in Hs. apply orb_false_iff in Hs as [Hc Hs]. simpl Path.scan.
    set (st1 := Path.scan_step i c st).
    assert (H1 : Path.startDot st1 = Path.startDot st /\ Path.end_ st1 = Path.end_ st
                 /\ Path.stopped st1 = false /\ Path.preDotState st1 <> 0).
    { unfold st1, Path.scan_step. rewrite Hst. unfold Path.slash. rewrite Hc.
      replace (Path.end_ st =? -1) with false by (symmetry; apply Z.eqb_neq; exact He).
      replace (Path.startDot st =? -1) with false by (symmetry; apply Z.eqb_neq; exact Hd).
      destruct (Ascii.eqb c Path.dot).
      - destruct (Z.eqb_spec (Path.preDotState st) 1) as [E|E]; cbn;
          repeat split; try assumption; try lia.
      - cbn. repeat split; try assumption; lia. }
    destruct H1 as (Hd1 & He1 & Hst1 & Hp1).
    destruct (IH (i - 1) st1 Hs) as (Hd2 & He2 & Hp2); try congruence.
    split; [congruence|]. split; [congruence|]. intros _. apply Hp2. left. exact Hp1.
Qed.

Lemma drop_app (a b : string) : Js.drop (String.length a) (a +:+ b) = b.
Proof. induction a as [|c a IH]; [destruct b; reflexivity|]. rewrite app_cons. exact IH. Qed.

Lemma scan_of_name (stem c t : string) (x : ascii) (N : Z) :
  c = String x t ->
  Js.has_char "/" stem = false ->
  Js.has_char "/" c = false -> Js.has_char "." c = false ->
  N = Z.of_nat (String.length stem + 1 + String.length c) ->
  let st := Path.scan (c +:+ String "." (String.rev stem)) (N - 1) Path.scan0 in
  Path.startDot st = Z.of_nat (String.length stem) /\ Path.end_ st = N
  /\ (stem <> "" -> Path.preDotState st <> 0)
  /\ (stem = "" -> Path.preDotState st = 0).
Proof.
  intros -> Hs Hc Hd HN. cbv zeta.
  simpl in Hc, Hd. apply orb_false_iff in Hc as [Hx Hts]. apply orb_false_iff in Hd as [Hx' Htd].
  rewrite app_cons. simpl Path.scan.
  assert (Hfirst : Path.scan_step (N - 1) x Path.scan0
                   = {| Path.startDot := -1; Path.startPart := 0; Path.end_ := N;
                        Path.matchedSlash := false; Path.preDotState := 0;
                        Path.stopped := false |}).
  { unfold Path.scan_step, Path.scan0, Path.slash, Path.dot. cbn. rewrite Hx, Hx'. cbn.
    f_equal. lia. }
  rewrite Hfirst, scan_app, scan_extension by (try assumption; simpl in HN; lia).
  simpl Path.scan.
  set (i := N - 1 - 1 - Z.of_nat (String.length t)).
  assert (Hi : i = Z.of_nat (String.length stem)) by (unfold i; simpl in HN; lia).
  assert (Hdot : Path.scan_step i "."
                   {| Path.startDot := -1; Path.startPart := 0; Path.end_ := N;
                      Path.matchedSlash := false; Path.preDotState := 0;
                      Path.stopped := false |}
                 = {| Path.startDot := i; Path.startPart := 0; Path.end_ := N;
                      Path.matchedSlash := false; Path.preDotState := 0;
                      Path.stopped := false |}).
  { unfold Path.scan_step. cbn.
    replace (N =? -1) with false by (symmetry; apply Z.eqb_neq; lia). reflexivity. }
  rewrite Hdot.
  match goal with |- context [Path.scan (String.rev stem) ?j ?st] =>
    destruct (scan_stem (String.rev stem) j st) as (H1 & H2 & H3)
  end; try (cbn; lia); try reflexivity.
  { rewrite has_char_rev. exact Hs. }
  cbv zeta in H1, H2, H3. cbn [Path.startDot Path.end_ Path.preDotState] in H1, H2, H3.
  rewrite H1, H2. split; [exact Hi|]. split; [reflexivity|]. split.
  - intros Hstem. apply H3. right. intros E. apply Hstem.
    pose proof (rev_length stem) as Hl. rewrite E in Hl.
    destruct stem; [reflexivity | discriminate Hl].
  - intros ->. reflexivity.
Qed.

Lemma rev_not_empty (s : string) : s <> "" -> exists x t, String.rev s = String x t.
Proof.
  intros H. destruct (String.rev s) as [|x t] eqn:Hrev; [|eauto].
  exfalso. apply H. pose proof (rev_length s) as Hl. rewrite Hrev in Hl.
  destruct s; [reflexivity | discriminate Hl].
Qed.

Lemma extname_of_name (stem ext : string) :
  Js.has_char "/" stem = false ->
  ext <> "" -> Js.has_char "/" ext = false -> Js.has_char "." ext = false ->
  Path.extname (stem +:+ "." +:+ ext) = if String.eqb stem "" then "" else "." +:+ ext.
Proof.
  intros Hs Hext He Hd.
  destruct (rev_not_empty ext Hext) as (x & t & Hrev).
  assert (Hrevp : String.rev (stem +:+ "." +:+ ext)
                  = String x t +:+ String "." (String.rev stem)).
  { rewrite !rev_app_distr, Hrev, app_assoc_s. reflexivity. }
  assert (Hlen : String.length (stem +:+ "." +:+ ext)
                 = (String.length stem + 1 + String.length (String x t))%nat).
  { rewrite !length_app, <- Hrev, rev_length. simpl. lia. }
  unfold Path.extname. rewrite Hrevp.
  destruct (scan_of_name stem (String x t) t x (Z.of_nat (String.length (stem +:+ "." +:+ ext))))
    as (H1 & H2 & H3 & H4); try assumption; try reflexivity.
  { rewrite <- Hrev, has_char_rev. exact He. }
  { rewrite <- Hrev, has_char_rev. exact Hd. }
  { rewrite Hlen. reflexivity. }
  cbv zeta in H1, H2, H3, H4. set (st := Path.scan _ _ _) in *.
  rewrite H1, H2.
  replace (Z.of_nat (String.length stem) =? -1) with false by (symmetry; apply Z.eqb_neq; lia).
  replace (Z.of_nat (String.length (stem +:+ "." +:+ ext)) =? -1) with false
    by (symmetry; apply Z.eqb_neq; lia).
  destruct (String.eqb_spec stem "") as [E|E].
  - rewrite (H4 E). cbn [orb Z.eqb]. reflexivity.
  - replace (Path.preDotState st =? 0) with false by (symmetry; apply Z.eqb_neq; auto).
    replace (Z.of_nat (String.length stem) =? Z.of_nat (String.length (stem +:+ "." +:+ ext)) - 1)
      with false by (symmetry; apply Z.eqb_neq; rewrite Hlen; simpl; lia).
    rewrite andb_false_r. cbn [orb andb].
    rewrite Nat2Z.id, drop_app. apply take_all.
    rewrite Hlen, length_app, <- Hrev, rev_length. simpl. lia.
Qed.

(** *** Listed names *)

Lemma endsWith_spec (s suffix : string) :
  endsWith s suffix = true <-> exists a, s = a +:+ suffix.
Proof.
  unfold endsWith. rewrite andb_true_iff, String.eqb_eq, Nat.leb_le. split.
  - intros [Hd _]. exists (Js.take (String.length s - String.length suffix) s).
    rewrite <- (take_drop s (String.length s - String.length suffix)) at 1.
    rewrite Hd. reflexivity.
  - intros (a & ->). rewrite length_app.
    replace (String.length a + String.length suffix - String.length suffix)%nat
      with (String.length a) by lia.
    split; [apply drop_app | lia].
Qed.

Lemma lower_app (a b : string) :
  Js.toLowerCase (a +:+ b) = Js.toLowerCase a +:+ Js.toLowerCase b.
Proof.
  unfold Js.toLowerCase. induction a as [|c a IH]; [reflexivity|].
  rewrite app_cons. simpl. rewrite IH. reflexivity.
Qed.

Lemma lower_app_inv (x : string) : forall (f y : string),
  Js.toLowerCase f = x +:+ y ->
  exists a b, f = a +:+ b /\ Js.toLowerCase a = x /\ Js.toLowerCase b = y.
Proof.
  induction x as [|c x IH]; intros f y H.
  - exists "", f. repeat split. exact H.
  - destruct f as [|d f]; [discriminate H|]. rewrite app_cons in H.
    unfold Js.toLowerCase in H. simpl in H. injection H as Hc Hf.
    destruct (IH f y Hf) as (a & b & -> & Ha & Hb).
    exists (String d a), b. repeat split; [|exact Hb].
    unfold Js.toLowerCase in *. simpl. rewrite Hc, Ha. reflexivity.
Qed.

Lemma lower_char_dot (c : ascii) : Js.lower_char c = "."%char -> c = "."%char.
Proof.
  destruct c as [[] [] [] [] [] [] [] []]; intros H; vm_compute in H;
    try discriminate H; reflexivity.
Qed.

Lemma lower_char_keeps (c : ascii) :
  Ascii.eqb (Js.lower_char c) "/" = Ascii.eqb c "/"
  /\ Ascii.eqb (Js.lower_char c) "." = Ascii.eqb c ".".
Proof. destruct c as [[] [] [] [] [] [] [] []]; split; reflexivity. Qed.

Lemma has_char_lower (s : string) :
  Js.has_char "/" (Js.toLowerCase s) = Js.has_char "/" s
  /\ Js.has_char "." (Js.toLowerCase s) = Js.has_char "." s.
Proof.
  unfold Js.toLowerCase. induction s as [|c s [IH1 IH2]]; [split; reflexivity|]. simpl.
  rewrite (proj1 (lower_char_keeps c)), (proj2 (lower_char_keeps c)), IH1, IH2.
  split; reflexivity.
Qed.

Lemma dotted_suffix (f ext : string) :
  endsWith (Js.toLowerCase f) ("." +:+ ext) = true ->
  exists stem e, f = stem +:+ "." +:+ e /\ Js.toLowerCase e = ext.
Proof.
  intros H. apply endsWith_spec in H as (x & Hx).
  apply lower_app_inv in Hx as (a & b & -> & _ & Hb).
  destruct b as [|c b]; [discriminate Hb|].
  unfold Js.toLowerCase in Hb. simpl in Hb. injection Hb as Hc Hb.
  apply lower_char_dot in Hc. subst c. exists a, b. split; [reflexivity | exact Hb].
Qed.

Lemma is_image_name_spec (f : string) :
  is_image_name f = true <-> has_supported_extension f.
Proof.
  unfold is_image_name, has_supported_extension. cbv zeta. split.
  - intros H. repeat (apply orb_prop in H as [H | H]);
      apply (dotted_suffix f) in H as (stem & e & -> & He);
      exists stem, e; (split; [reflexivity|]); rewrite He; simpl; tauto.
  - intros (stem & e & -> & He).
    assert (Hend : endsWith (Js.toLowerCase (stem +:+ "." +:+ e)) ("." +:+ Js.toLowerCase e) = true).
    { apply endsWith_spec. exists (Js.toLowerCase stem). rewrite !lower_app. reflexivity. }
    simpl in He. decompose [or] He; try contradiction;
      match goal with H : _ = Js.toLowerCase e |- _ => rewrite <- H in Hend end;
      change ("." +:+ "svg") with ".svg" in Hend; change ("." +:+ "png") with ".png" in Hend;
      change ("." +:+ "jpg") with ".jpg" in Hend; change ("." +:+ "jpeg") with ".jpeg" in Hend;
      change ("." +:+ "webp") with ".webp" in Hend;
      rewrite Hend, ?orb_true_r; reflexivity.
Qed.

(** X14.  [listStoredImages] returns exactly the entries of the
    storage directory that end in a dot and one of the supported
    extensions, in any letter case; a missing directory gives the
    empty list, and any other failure of [readdir] is rethrown as it
    is. *)
Theorem listStoredImages_lists_supported_extensions (env : Env) (w : World) :
  (forall names, readdir_result env = Ok names ->
     exists l w',
       listStoredImages env w = (Ok l, w') /\ files w' = files w
       /\ forall f, In f l <-> In f names /\ has_supported_extension f)
  /\ (forall e, readdir_result env = Throw e -> code_of e = Some "ENOENT" ->
      exists w', listStoredImages env w = (Ok [], w') /\ files w' = files w)
  /\ (forall e, readdir_result env = Throw e -> code_of e <> Some "ENOENT" ->
      exists w', listStoredImages env w = (Throw e, w') /\ files w' = files w).
Proof.
  unfold listStoredImages, try_catch, bind, readdir_storage, bind, emitM, of_outcome, ret.
  split; [|split].
  - intros names ->. eexists _, _. split; [reflexivity|]. split; [reflexivity|].
    intros f. rewrite <- !list_elem_of_In, list_elem_of_filter, is_image_name_spec. tauto.
  - intros e -> Hc. rewrite Hc. eexists. split; reflexivity.
  - intros e -> Hc. exists (emit (EReaddir (STORAGE_DIR env)) w). split; [|reflexivity].
    destruct (code_of e) as [c|]; [|reflexivity].
    assert (Hne : c <> "ENOENT") by congruence. clear Hc. revert Hne.
    repeat (destruct c as [|[[] [] [] [] [] [] [] []] c]; try reflexivity).
    congruence.
Qed.

(** *** The MIME type of a listed file *)

Lemma mime_unknown_iff (format : string) :
  getMimeType format = "application/octet-stream"
  <-> ~ In (Js.toLowerCase format) supportedFormats.
Proof.
  unfold getMimeType, supportedFormats. cbv zeta. cbn [In].
  destruct (String.eqb_spec (Js.toLowerCase format) "svg") as [E|E1];
    [rewrite E; split; [discriminate | intros H; exfalso; apply H; tauto]|].
  destruct (String.eqb_spec (Js.toLowerCase format) "png") as [E|E2];
    [rewrite E; split; [discriminate | intros H; exfalso; apply H; tauto]|].
  destruct (String.eqb_spec (Js.toLowerCase format) "jpg") as [E|E3];
    [rewrite E; split; [discriminate | intros H; exfalso; apply H; tauto]|].
  destruct (String.eqb_spec (Js.toLowerCase format) "jpeg") as [E|E4];
    [rewrite E; split; [discriminate | intros H; exfalso; apply H; tauto]|].
  destruct (String.eqb_spec (Js.toLowerCase format) "webp") as [E|E5];
    [rewrite E; split; [discriminate | intros H; exfalso; apply H; tauto]|].
  cbn [orb]. split; [intros _ H; decompose [or] H; congruence | reflexivity].
Qed.

Lemma getMimeType_lower (format : string) :
  getMimeType (Js.toLowerCase format) = getMimeType format.
Proof. unfold getMimeType. rewrite toLowerCase_idem. reflexivity. Qed.

Lemma supported_extension_shape (ext : string) :
  In (Js.toLowerCase ext) supportedFormats ->
  ext <> "" /\ Js.has_char "." ext = false.
Proof.
  intros H. split.
  - intros ->. simpl in H. decompose [or] H; try discriminate; contradiction.
  - rewrite <- (proj2 (has_char_lower ext)).
    simpl in H. decompose [or] H; try contradiction;
      match goal with E : _ = Js.toLowerCase ext |- _ => rewrite <- E end; reflexivity.
Qed.

(** X15.  The MIME type given to a listed file.  A listed name without
    a separator is a stem, a dot and a supported extension; with a
    non-empty stem its MIME type is the one of the extension, never
    [application/octet-stream]; a name that is only a dot and the
    extension (such as [.png]) is listed but typed
    [application/octet-stream], since [path.extname] sees no
    extension in it. *)
Theorem listed_file_mime_type (file : string) :
  is_image_name file = true -> Js.has_char "/" file = false ->
  exists stem ext,
    file = stem +:+ "." +:+ ext /\ In (Js.toLowerCase ext) supportedFormats
    /\ (stem <> "" ->
        mimeOfFile file = getMimeType ext
        /\ mimeOfFile file <> "application/octet-stream")
    /\ (stem = "" -> mimeOfFile file = "application/octet-stream").
Proof.
  intros Himg Hplain. apply is_image_name_spec in Himg as (stem & ext & -> & Hin).
  exists stem, ext. split; [reflexivity|]. split; [exact Hin|].
  destruct (supported_extension_shape ext Hin) as (Hne & Hdot).
  rewrite has_char_app in Hplain. apply orb_false_iff in Hplain as [Hs Hrest].
  rewrite has_char_app in Hrest. apply orb_false_iff in Hrest as [_ He].
  unfold mimeOfFile, ext_of. rewrite (extname_of_name stem ext Hs Hne He Hdot).
  split.
  - intros Hstem. destruct (String.eqb_spec stem ""); [contradiction|].
    change (Js.drop 1 ("." +:+ ext)) with ext. rewrite getMimeType_lower.
    split; [reflexivity|]. intros E. apply mime_unknown_iff in E. contradiction.
  - intros ->. reflexivity.
Qed.

(** *** Resources *)

Lemma prefix_spec (p : string) : forall s : string,
  String.prefix p s = true <-> exists r, s = p +:+ r.
Proof.
  induction p as [|a p IH]; intros s.
  - split; [intros _; exists s; reflexivity | intros _; destruct s; reflexivity].
  - destruct s as [|c s].
    + split; [discriminate | intros (r & Hr); discriminate Hr].
    + change (String.prefix (String a p) (String c s))
        with (if ascii_dec a c then String.prefix p s else false).
      destruct (ascii_dec a c) as [->|Hn].
      * rewrite IH. split; intros (r & Hr); exists r.
        -- rewrite app_cons, <- Hr. reflexivity.
        -- rewrite app_cons in Hr. congruence.
      * split; [discriminate|]. intros (r & Hr). rewrite app_cons in Hr. congruence.
Qed.

Lemma match_uri_spec (u f : string) :
  match_uri u = Some f
  <-> u = uri_prefix +:+ f /\ f <> "" /\ has_line_terminator f = false.
Proof.
  unfold match_uri, Js.startsWith. split.
  - destruct (String.prefix uri_prefix u) eqn:Hp; [|discriminate].
    apply prefix_spec in Hp as (r & ->). rewrite drop_app.
    destruct (String.eqb_spec r "") as [->|Hr]; [discriminate|].
    destruct (has_line_terminator r) eqn:Hl; [discriminate|].
    cbn [orb]. intros [= <-]. auto.
  - intros (-> & Hne & Hl).
    replace (String.prefix uri_prefix (uri_prefix +:+ f)) with true
      by (symmetry; apply prefix_spec; eauto).
    rewrite drop_app, Hl. destruct (String.eqb_spec f ""); [contradiction | reflexivity].
Qed.

Lemma listStoredImages_run (env : Env) (w : World) :
  listStoredImages env w =
  (match readdir_result env with
   | Ok names => Ok (filter (fun f => is_image_name f = true) names)
   | Throw e => if bool_decide (code_of e = Some "ENOENT") then Ok [] else Throw e
   end, emit (EReaddir (STORAGE_DIR env)) w).
Proof.
  unfold listStoredImages, try_catch, bind, readdir_storage, bind, emitM, of_outcome, ret.
  destruct (readdir_result env) as [names|e]; [reflexivity|].
  case_bool_decide as Hc.
  - rewrite Hc. reflexivity.
  - destruct (code_of e) as [c|]; [|reflexivity].
    assert (Hne : c <> "ENOENT") by congruence. clear Hc. revert Hne.
    repeat (destruct c as [|[[] [] [] [] [] [] [] []] c]; try reflexivity).
    congruence.
Qed.

(** X16.  The resource list: one resource per stored image, in the
    order of the directory listing, named after the file, with the
    URI [everart-forge-mcp://images/<name>] and the MIME type of the
    name; the URI parses back to the name unless the name holds a line
    terminator.  A missing directory gives no resource; any other
    failure of [readdir] becomes an internal MCP error. *)
Theorem listResources_exposes_the_stored_images (env : Env) (w : World) :
  (forall names, readdir_result env = Ok names ->
     exists rs w',
       listResources env w = (Ok rs, w') /\ files w' = files w
       /\ map name rs = filter (fun f => is_image_name f = true) names
       /\ forall r, In r rs ->
            In (name r) names /\ has_supported_extension (name r)
            /\ uri r = uri_prefix +:+ name r
            /\ mimeType r = mimeOfFile (name r)
            /\ (has_line_terminator (name r) = false -> match_uri (uri r) = Some (name r)))
  /\ (forall e, readdir_result env = Throw e -> code_of e = Some "ENOENT" ->
      exists w', listResources env w = (Ok [], w') /\ files w' = files w)
  /\ (forall e, readdir_result env = Throw e -> code_of e <> Some "ENOENT" ->
      exists w',
        listResources env w
        = (Throw (McpError InternalError
                    ("Failed to list image resources: " +:+ message_of e)), w')
        /\ files w' = files w).
Proof.
  unfold listResources, try_catch, bind. rewrite listStoredImages_run.
  split; [|split].
  - intros names ->. eexists _, _. split; [reflexivity|]. split; [reflexivity|]. split.
    + rewrite map_map. simpl. apply map_id.
    + intros r Hr. apply in_map_iff in Hr as (f & <- & Hf).
      apply list_elem_of_In, list_elem_of_filter in Hf as [Himg Hf].
      apply list_elem_of_In in Hf. cbn [name uri mimeType resource_of].
      split; [exact Hf|]. split; [apply is_image_name_spec; exact Himg|].
      split; [reflexivity|]. split; [reflexivity|].
      intros Hl. apply match_uri_spec. split; [reflexivity|]. split; [|exact Hl].
      apply is_image_name_spec in Himg as (stem & ext & -> & _).
      destruct stem; discriminate.
  - intros e -> Hc. rewrite bool_decide_true by exact Hc. eexists. split; reflexivity.
  - intros e -> Hc. rewrite bool_decide_false by exact Hc. eexists. split; reflexivity.
Qed.

Lemma readFile_run (env : Env) (p : string) (w : World) :
  readFile env p w =
  (match files w !! p with
   | Some d => Ok d
   | None => Throw (read_other env p)
   end, emit (EReadFile p) w).
Proof. unfold readFile. destruct (files w !! p); reflexivity. Qed.

(** What the [catch] of the resource reader rethrows. *)
Lemma read_failure_cases (f : string) (e : thrown) :
  match code_of e with
  | Some "ENOENT" =>
      throw (A := list ResourceContents)
        (McpError 404
           ("Image not found: " +:+ f
              +:+ ". Please check if the file exists in the storage directory."))
  | _ => throw (McpError InternalError ("Failed to read image: " +:+ message_of e))
  end
  = throw (if bool_decide (code_of e = Some "ENOENT")
           then McpError 404
                  ("Image not found: " +:+ f
                     +:+ ". Please check if the file exists in the storage directory.")
           else McpError InternalError ("Failed to read image: " +:+ message_of e)).
Proof.
  case_bool_decide as Hc; [rewrite Hc; reflexivity|].
  destruct (code_of e) as [c|]; [|reflexivity].
  assert (Hne : c <> "ENOENT") by congruence. clear Hc. revert Hne.
  repeat (destruct c as [|[[] [] [] [] [] [] [] []] c]; try reflexivity).
  congruence.
Qed.

Lemma readResource_run (env : Env) (u f : string) (w : World) :
  match_uri u = Some f ->
  readResource env u w =
  (match files w !! Path.join (STORAGE_DIR env) f with
   | Some data => Ok [ {| c_uri := u; c_mimeType := mimeOfFile f; blob := base64 data |} ]
   | None =>
       let e := read_other env (Path.join (STORAGE_DIR env) f) in
       Throw (if bool_decide (code_of e = Some "ENOENT")
              then McpError 404
                     ("Image not found: " +:+ f
                        +:+ ". Please check if the file exists in the storage directory.")
              else McpError InternalError ("Failed to read image: " +:+ message_of e))
   end, emit (EReadFile (Path.join (STORAGE_DIR env) f)) w).
Proof.
  intros Hm. unfold readResource. rewrite Hm. cbv zeta.
  unfold try_catch, bind. rewrite readFile_run.
  destruct (files w !! Path.join (STORAGE_DIR env) f); [reflexivity|].
  rewrite read_failure_cases. reflexivity.
Qed.

(** X17.  Round trip of the two resource handlers: reading the URI of
    a listed resource, whose name holds no line terminator and whose
    file is on disk, returns one content with that URI, the MIME type
    the list gave, and the file's bytes in base64. *)
Theorem listed_resource_reads_back (env : Env) (w w1 : World) (rs : list Resource)
    (r : Resource) (data : string) :
  listResources env w = (Ok rs, w1) -> In r rs ->
  has_line_terminator (name r) = false ->
  files w1 !! Path.join (STORAGE_DIR env) (name r) = Some data ->
  readResource env (uri r) w1
  = (Ok [ {| c_uri := uri r; c_mimeType := mimeType r; blob := base64 data |} ],
     emit (EReadFile (Path.join (STORAGE_DIR env) (name r))) w1).
Proof.
  intros Hlist Hr Hl Hfile.
  assert (Hshape : uri r = uri_prefix +:+ name r /\ mimeType r = mimeOfFile (name r)
                   /\ name r <> "").
  { revert Hlist. unfold listResources, try_catch, bind. rewrite listStoredImages_run.
    destruct (readdir_result env) as [names|e].
    - intros [= <- _]. apply in_map_iff in Hr as (f & <- & Hf).
      apply list_elem_of_In, list_elem_of_filter in Hf as [Himg _].
      repeat split. cbn [name resource_of].
      apply is_image_name_spec in Himg as (stem & ext & -> & _). destruct stem; discriminate.
    - case_bool_decide; [|discriminate]. intros [= <- _]. destruct Hr. }
  destruct Hshape as (Hu & Hm & Hne).
  rewrite (readResource_run env (uri r) (name r)), Hfile, Hm; [reflexivity|].
  apply match_uri_spec. auto.
Qed.

(** X18.  The failures of reading a resource.  A URI that is not the
    prefix followed by a non-empty name without line terminator is
    refused as an invalid request before any file is read.  For a
    well-formed URI whose joined path holds no file, the answer follows
    the failure of [fs.readFile]: ENOENT (nothing there) gives the MCP
    error 404 "Image not found", any other failure (EISDIR when the
    path is a directory, such as the name [.]) gives the internal MCP
    error "Failed to read image: <message>"; no file is touched. *)
Theorem readResource_failures (env : Env) (u : string) (w : World) :
  ((forall f, u = uri_prefix +:+ f -> f = "" \/ has_line_terminator f = true) ->
   readResource env u w
   = (Throw (McpError InvalidRequest
               ("Invalid URI format: " +:+ u
                  +:+ ". Expected format: everart-forge-mcp://images/filename")), w))
  /\ (forall f, u = uri_prefix +:+ f -> f <> "" -> has_line_terminator f = false ->
      let filepath := Path.join (STORAGE_DIR env) f in
      files w !! filepath = None ->
      exists w',
        files w' = files w
        /\ (code_of (read_other env filepath) = Some "ENOENT" ->
            readResource env u w
            = (Throw (McpError 404
                        ("Image not found: " +:+ f
                           +:+ ". Please check if the file exists in the storage directory.")),
               w'))
        /\ (code_of (read_other env filepath) <> Some "ENOENT" ->
            readResource env u w
            = (Throw (McpError InternalError
                        ("Failed to read image: " +:+ message_of (read_other env filepath))),
               w'))).
Proof.
  split.
  - intros H. unfold readResource. destruct (match_uri u) as [f|] eqn:Hm; [|reflexivity].
    apply match_uri_spec in Hm as (Hu & Hne & Hl).
    destruct (H f Hu) as [E|E]; [contradiction | congruence].
  - intros f Hu Hne Hl filepath Hfile.
    exists (emit (EReadFile filepath) w). split; [reflexivity|].
    assert (Hm : match_uri u = Some f) by (apply match_uri_spec; auto).
    rewrite (readResource_run env u f w Hm). fold filepath. rewrite Hfile. cbv zeta.
    split; intros Hc.
    + rewrite bool_decide_true by exact Hc. reflexivity.
    + rewrite bool_decide_false by exact Hc. reflexivity.
Qed.

(** *** Names that leave the storage directory *)

Lemma prefix_cons (a c : ascii) (p s : string) :
  String.prefix (String a p) (String c s)
  = if ascii_dec a c then String.prefix p s else false.
Proof. reflexivity. Qed.

Lemma includes_cons_other (a c : ascii) (n s : string) :
  a <> c -> Js.includes (String c s) (String a n) = Js.includes s (String a n).
Proof.
  intros H.
  change (Js.includes (String c s) (String a n))
    with (String.prefix (String a n) (String c s) || Js.includes s (String a n)).
  rewrite prefix_cons. destruct (ascii_dec a c); [contradiction | reflexivity].
Qed.

Lemma has_line_terminator_cons (c : ascii) (s : string) :
  c = "."%char \/ c = "/"%char ->
  has_line_terminator (String c s) = has_line_terminator s.
Proof.
  intros H. unfold has_line_terminator, line_terminators. cbn [existsb].
  rewrite !includes_cons_other by (destruct H as [-> | ->]; discriminate). reflexivity.
Qed.

Lemma normalize_congr (p q : string) :
  p <> "" -> q <> "" ->
  Path.isAbsolute p = Path.isAbsolute q ->
  Path.trailingSeparator p = Path.trailingSeparator q ->
  (forall allow, Path.norm_stack allow (Path.segments p) []
                 = Path.norm_stack allow (Path.segments q) []) ->
  Path.normalize p = Path.normalize q.
Proof.
  intros Hp Hq Ha Ht Hn. unfold Path.normalize, Path.normalizeString.
  destruct (String.eqb_spec p ""); [contradiction|].
  destruct (String.eqb_spec q ""); [contradiction|].
  rewrite Ha, Ht, Hn. reflexivity.
Qed.

Lemma join_dotdot (parent leaf name : string) :
  parent <> "" -> plain_name leaf -> plain_name name ->
  Path.join (parent +:+ "/" +:+ leaf) ("../" +:+ name) = Path.join parent name.
Proof.
  intros Hp Hleaf Hname. pose proof Hname as (Hne & Hs & _).
  pose proof Hleaf as (_ & Hleaf1 & _ & Hleaf2).
  unfold Path.join.
  destruct (String.eqb_spec (parent +:+ "/" +:+ leaf) "") as [E|_];
    [destruct parent; [contradiction | discriminate E]|].
  destruct (String.eqb_spec ("../" +:+ name) "") as [E|_]; [discriminate E|].
  destruct (String.eqb_spec parent ""); [contradiction|].
  destruct (String.eqb_spec name ""); [contradiction|].
  apply normalize_congr.
  - destruct parent; [contradiction | discriminate].
  - destruct parent; [contradiction | discriminate].
  - destruct parent as [|c parent]; [contradiction|].
    rewrite !app_cons, !isAbsolute_cons. reflexivity.
  - replace ((parent +:+ "/" +:+ leaf) +:+ "/" +:+ "../" +:+ name)
      with (((parent +:+ "/" +:+ leaf) +:+ "/../") +:+ name)
      by (rewrite !app_assoc_s; reflexivity).
    replace (parent +:+ "/" +:+ name) with ((parent +:+ "/") +:+ name)
      by (rewrite !app_assoc_s; reflexivity).
    rewrite !trailing_app by assumption. reflexivity.
  - intros allow.
    change ("../" +:+ name) with (".." +:+ "/" +:+ name).
    rewrite !segments_app.
    rewrite (segments_plain leaf), (segments_plain ".."), (segments_plain name)
      by (try reflexivity; assumption).
    rewrite !norm_stack_app.
    rewrite (norm_stack_plain _ leaf) by exact Hleaf.
    rewrite !(norm_stack_plain _ name) by exact Hname.
    f_equal. simpl. destruct (String.eqb_spec leaf ".."); [contradiction | reflexivity].
Qed.

(** X19.  Reading a resource is not confined to the storage directory:
    the name in the URI goes through [path.join] unchecked, so
    [../<file>] reads the file beside the storage directory and
    returns its content. *)
Theorem readResource_is_not_confined_to_storage (env : Env) (parent leaf file data : string)
    (w : World) :
  STORAGE_DIR env = parent +:+ "/" +:+ leaf -> parent <> "" -> plain_name leaf ->
  plain_name file -> has_line_terminator file = false ->
  files w !! Path.join parent file = Some data ->
  readResource env (uri_prefix +:+ "../" +:+ file) w
  = (Ok [ {| c_uri := uri_prefix +:+ "../" +:+ file;
             c_mimeType := mimeOfFile ("../" +:+ file);
             blob := base64 data |} ],
     emit (EReadFile (Path.join parent file)) w).
Proof.
  intros Hdir Hp Hleaf Hfile Hl Hdata.
  rewrite (readResource_run env _ ("../" +:+ file)).
  - rewrite Hdir, join_dotdot, Hdata by assumption. reflexivity.
  - apply match_uri_spec. split; [reflexivity|]. split; [discriminate|].
    change ("../" +:+ file) with (String "." (String "." (String "/" file))).
    rewrite !has_line_terminator_cons by auto. exact Hl.
Qed.

(** *** Viewing an image *)

Lemma access_run (env : Env) (p : string) (w : World) :
  access env p w =
  (match files w !! p, access_other env p with
   | None, Some e => Throw e
   | _, _ => Ok tt
   end, emit (EAccess p) w).
Proof. unfold access. destruct (files w !! p), (access_other env p); reflexivity. Qed.

Lemma access_accessible (env : Env) (p : string) (w : World) :
  accessible env w p <-> fst (access env p w) = Ok tt.
Proof.
  rewrite access_run. unfold accessible.
  destruct (files w !! p) as [d|], (access_other env p) as [e|]; cbn [fst]; split;
    try reflexivity; try discriminate; eauto.
  intros [[d Hd] | He]; discriminate.
Qed.

Lemma opened_emit (e : Event) (w : World) :
  opened (emit e w) = (opened w ++ match e with EOpen p => [p] | _ => [] end)%list.
Proof.
  unfold opened, emit. cbn [trace]. rewrite flat_map_app. cbn [flat_map].
  rewrite app_nil_r. reflexivity.
Qed.

(** The read for the inline display is never fatal. *)
Lemma inline_read_run (env : Env) (p : string) (w : World) :
  exists w1,
    try_catch (readFile env p ;; ret tt)
      (fun error => console WarnLevel ("Unable to read image for inline display: "
                                         +:+ message_of error)) w
    = (Ok tt, w1)
    /\ files w1 = files w /\ opened w1 = opened w.
Proof.
  unfold try_catch, bind. rewrite readFile_run.
  destruct (files w !! p); eexists; (split; [reflexivity|]); split; try reflexivity;
    unfold console, emitM; cbn [snd]; rewrite ?opened_emit, ?app_nil_r; reflexivity.
Qed.

Lemma view_image_missing_run (env : Env) (filename : string) (e : thrown) (w : World) :
  filename <> "" ->
  files w !! Path.join (STORAGE_DIR env) filename = None ->
  access_other env (Path.join (STORAGE_DIR env) filename) = Some e ->
  exists k msg,
    view_image env (Some filename) w
    = errorResponse (failure k msg)
        (emit (EReaddir (STORAGE_DIR env))
           (emit (EAccess (Path.join (STORAGE_DIR env) filename)) w))
    /\ match readdir_result env with
       | Ok names =>
           k = VALIDATION_ERROR
           /\ Js.startsWith msg ("Image not found: " +:+ filename) = true
           /\ (filter (fun f => is_image_name f = true) names = [] ->
               msg = "Image not found: " +:+ filename)
       | Throw e =>
           if bool_decide (code_of e = Some "ENOENT")
           then k = VALIDATION_ERROR /\ msg = "Image not found: " +:+ filename
           else k = UNKNOWN_ERROR
                /\ msg = "Error viewing image: "
                         +:+ (if is_Error e then message_of e else "Unknown error")
       end.
Proof.
  intros Hne Hfile Hacc. unfold view_image.
  rewrite (truthy_some filename Hne). cbv zeta.
  unfold try_catch at 1. unfold bind at 1. unfold attempt. rewrite access_run, Hfile, Hacc.
  unfold bind at 1. rewrite listStoredImages_run.
  destruct (readdir_result env) as [names|e'].
  - set (avail := filter (fun f => is_image_name f = true) names).
    match goal with |- context [errorResponse {| type := VALIDATION_ERROR; message := ?m; details := None |}] =>
      set (msg := m) end.
    exists VALIDATION_ERROR, msg.
    rewrite !errorResponse_eq. split; [reflexivity|].
    split; [reflexivity|]. split.
    + unfold Js.startsWith. apply prefix_spec. unfold msg.
      destruct avail as [|a l]; [exists ""; rewrite app_empty_r; reflexivity|].
      match goal with |- context [match ?x with [] => _ | _ :: _ => _ end] => destruct x end;
        eexists; rewrite ?app_assoc_s; reflexivity.
    + intros E. unfold msg. fold avail in E. rewrite E. reflexivity.
  - case_bool_decide.
    + exists VALIDATION_ERROR, ("Image not found: " +:+ filename).
      rewrite !errorResponse_eq. repeat split.
    + exists UNKNOWN_ERROR. eexists.
      rewrite !errorResponse_eq. repeat split.
Qed.

(** X20.  [view_image] on a name whose joined path [fs.access] rejects
    (no file of the world stands there, and the environment lets
    nothing else through) never opens the viewer.  It answers with a
    Validation failure whose message starts with
    "Image not found: <name>" (and is exactly that when no image is
    stored); only when listing the directory itself fails, other than
    by its absence, the answer is an Unknown failure
    "Error viewing image: ...". *)
Theorem view_image_of_a_missing_file (env : Env) (filename : string) (e : thrown)
    (w : World) :
  filename <> "" ->
  files w !! Path.join (STORAGE_DIR env) filename = None ->
  access_other env (Path.join (STORAGE_DIR env) filename) = Some e ->
  exists k msg,
    view_image env (Some filename) w
    = errorResponse (failure k msg)
        (emit (EReaddir (STORAGE_DIR env))
           (emit (EAccess (Path.join (STORAGE_DIR env) filename)) w))
    /\ opened (snd (view_image env (Some filename) w)) = opened w
    /\ match readdir_result env with
       | Ok names =>
           k = VALIDATION_ERROR
           /\ Js.startsWith msg ("Image not found: " +:+ filename) = true
           /\ (filter (fun f => is_image_name f = true) names = [] ->
               msg = "Image not found: " +:+ filename)
       | Throw e =>
           if bool_decide (code_of e = Some "ENOENT")
           then k = VALIDATION_ERROR /\ msg = "Image not found: " +:+ filename
           else k = UNKNOWN_ERROR
                /\ msg = "Error viewing image: "
                         +:+ (if is_Error e then message_of e else "Unknown error")
       end.
Proof.
  intros Hne Hfile Hacc.
  destruct (view_image_missing_run env filename e w Hne Hfile Hacc)
    as (k & msg & Hrun & Hkind).
  exists k, msg. split; [exact Hrun|]. split; [|exact Hkind].
  rewrite Hrun, errorResponse_eq. cbn [snd]. rewrite !opened_emit, !app_nil_r. reflexivity.
Qed.

Lemma view_image_run (env : Env) (filename : option string) (w : World) :
  exists r w',
    view_image env filename w = (Ok r, w') /\ files w' = files w
    /\ (isError r = false ->
        exists f, filename = Some f /\ f <> ""
          /\ accessible env w (Path.join (STORAGE_DIR env) f)
          /\ open_result env (Path.join (STORAGE_DIR env) f) = None
          /\ opened w' = (opened w ++ [Path.join (STORAGE_DIR env) f])%list
          /\ content r = [ "✅ Viewing image: " +:+ f;
                           "Image opened in default viewer." +:+ Js.nl
                             +:+ "File path: file://" +:+ Path.join (STORAGE_DIR env) f ])
    /\ (forall f, filename = Some f -> f <> "" ->
        accessible env w (Path.join (STORAGE_DIR env) f) ->
        open_result env (Path.join (STORAGE_DIR env) f) = None ->
        isError r = false)
    /\ (isError r = true ->
        exists k msg w0,
          (k = VALIDATION_ERROR \/ k = UNKNOWN_ERROR)
          /\ (Ok r, w') = errorResponse (failure k msg) w0).
Proof.
  unfold view_image.
  destruct (Js.truthy filename) as [f|] eqn:Ht.
  2:{ unfold try_catch. rewrite errorResponse_eq. eexists _, _.
      split; [reflexivity|]. split; [reflexivity|]. split; [discriminate|]. split.
      - intros f -> Hne. rewrite (truthy_some f Hne) in Ht. discriminate Ht.
      - intros _. eexists VALIDATION_ERROR, _, _. split; [auto|].
        rewrite errorResponse_eq. reflexivity. }
  assert (Hf : filename = Some f /\ f <> "").
  { destruct filename as [[|c x]|]; try discriminate Ht. injection Ht as <-.
    split; [reflexivity | discriminate]. }
  destruct Hf as [-> Hne].
  cbv zeta. unfold try_catch at 1. unfold bind at 1. unfold attempt.
  pose proof (access_accessible env (Path.join (STORAGE_DIR env) f) w) as Hacc.
  rewrite access_run in *. cbn [fst] in Hacc.
  destruct (match files w !! Path.join (STORAGE_DIR env) f,
                  access_other env (Path.join (STORAGE_DIR env) f) with
            | None, Some e => Throw e
            | _, _ => Ok tt
            end) as [[]|e] eqn:Hcase.
  - unfold bind at 1.
    destruct (inline_read_run env (Path.join (STORAGE_DIR env) f)
                (emit (EAccess (Path.join (STORAGE_DIR env) f)) w))
      as (w1 & Hread & Hfiles & Hopened).
    rewrite Hread. unfold bind at 1. unfold open, bind, emitM, of_result.
    destruct (open_result env (Path.join (STORAGE_DIR env) f)) as [e|] eqn:Hopen.
    + unfold throw. rewrite errorResponse_eq. eexists _, _.
      split; [reflexivity|]. split; [exact Hfiles|]. split; [discriminate|]. split.
      * intros f' [= <-] _ _ Ho. congruence.
      * intros _. eexists UNKNOWN_ERROR, _, _. split; [auto|].
        rewrite errorResponse_eq. reflexivity.
    + unfold ret. eexists _, _. split; [reflexivity|]. split; [exact Hfiles|]. split.
      * intros _. exists f. split; [reflexivity|]. split; [exact Hne|].
        split; [apply Hacc; reflexivity|]. split; [exact Hopen|]. split; [|reflexivity].
        rewrite opened_emit, Hopened, opened_emit, app_nil_r. reflexivity.
      * split; [reflexivity | discriminate].
  - assert (Hno : ~ accessible env w (Path.join (STORAGE_DIR env) f))
      by (intros Ha; apply Hacc in Ha; discriminate Ha).
    unfold bind at 1. rewrite listStoredImages_run.
    destruct (readdir_result env) as [names|e'].
    + rewrite errorResponse_eq. eexists _, _.
      split; [reflexivity|]. split; [reflexivity|]. split; [discriminate|]. split.
      * intros f' [= <-] _ Ha. contradiction.
      * intros _. eexists VALIDATION_ERROR, _, _. split; [auto|].
        rewrite errorResponse_eq. reflexivity.
    + case_bool_decide.
      * rewrite errorResponse_eq. eexists _, _.
        split; [reflexivity|]. split; [reflexivity|]. split; [discriminate|]. split.
        -- intros f' [= <-] _ Ha. contradiction.
        -- intros _. eexists VALIDATION_ERROR, _, _. split; [auto|].
           rewrite errorResponse_eq. reflexivity.
      * rewrite errorResponse_eq. eexists _, _.
        split; [reflexivity|]. split; [reflexivity|]. split; [discriminate|]. split.
        -- intros f' [= <-] _ Ha. contradiction.
        -- intros _. eexists UNKNOWN_ERROR, _, _. split; [auto|].
           rewrite errorResponse_eq. reflexivity.
Qed.

(** X21.  [view_image] never rejects and writes no file.  The response
    is not flagged [isError] exactly when a non-empty name was given,
    [fs.access] accepted the path joined from the storage directory and
    the name (a file or a directory stands there; the name is not
    checked, so the path can lie outside the storage directory), and
    the viewer started on that path without failure; the response then
    reports that path.  A flagged response is the error response of a
    Validation or an Unknown failure. *)
Theorem view_image_always_answers (env : Env) (filename : option string) (w : World) :
  exists r w',
    view_image env filename w = (Ok r, w') /\ files w' = files w
    /\ (isError r = false <->
        exists f, filename = Some f /\ f <> ""
          /\ accessible env w (Path.join (STORAGE_DIR env) f)
          /\ open_result env (Path.join (STORAGE_DIR env) f) = None)
    /\ (isError r = false ->
        exists f, filename = Some f
          /\ opened w' = (opened w ++ [Path.join (STORAGE_DIR env) f])%list
          /\ content r = [ "✅ Viewing image: " +:+ f;
                           "Image opened in default viewer." +:+ Js.nl
                             +:+ "File path: file://" +:+ Path.join (STORAGE_DIR env) f ])
    /\ (isError r = true ->
        returns_failure VALIDATION_ERROR (view_image env filename w)
        \/ returns_failure UNKNOWN_ERROR (view_image env filename w)).
Proof.
  destruct (view_image_run env filename w) as (r & w' & Hrun & Hfiles & Hok & Hback & Herr).
  exists r, w'. split; [exact Hrun|]. split; [exact Hfiles|]. split; [|split].
  - split.
    + intros He. destruct (Hok He) as (f & H1 & H2 & H3 & H4 & _). exists f. auto.
    + intros (f & H1 & H2 & H3 & H4). exact (Hback f H1 H2 H3 H4).
  - intros He. destruct (Hok He) as (f & H1 & _ & _ & _ & H5 & H6). exists f. auto.
  - intros He. destruct (Herr He) as (k & msg & w0 & [-> | ->] & Heq);
      [left | right]; exists msg, w0; rewrite Hrun; exact Heq.
Qed.

(** *** Listing the images *)

Lemma filesByType_snoc (files : list string) (file : string) :
  filesByType (files ++ [file])%list = push_file (ext_of file) file (filesByType files).
Proof. unfold filesByType. rewrite fold_left_app. reflexivity. Qed.

Lemma filed_under_push (ext e file : string) (groups : list (string * list string)) :
  filed_under ext (push_file e file groups)
  = (filed_under ext groups ++ if String.eqb e ext then [file] else [])%list.
Proof.
  induction groups as [|[k l] groups IH]; simpl.
  - destruct (String.eqb e ext); reflexivity.
  - destruct (String.eqb_spec k e) as [->|Hke]; simpl.
    + destruct (String.eqb e ext); [reflexivity | rewrite app_nil_r; reflexivity].
    + destruct (String.eqb_spec k ext) as [->|Hkx]; [|exact IH].
      destruct (String.eqb_spec e ext); [congruence | rewrite app_nil_r; reflexivity].
Qed.

Lemma keys_push (e file : string) (groups : list (string * list string)) :
  map fst (push_file e file groups)
  = (map fst groups ++ if Js.arr_includes (map fst groups) e then [] else [e])%list.
Proof.
  unfold Js.arr_includes. induction groups as [|[k l] groups IH]; simpl; [reflexivity|].
  rewrite (String.eqb_sym e k). destruct (String.eqb k e); simpl.
  - rewrite app_nil_r. reflexivity.
  - rewrite IH. reflexivity.
Qed.

Lemma groups_push (e file : string) (groups : list (string * list string)) :
  Forall (fun g => snd g <> []) groups ->
  Forall (fun g => snd g <> []) (push_file e file groups).
Proof.
  induction 1 as [|[k l] groups Hl Hrest IH]; simpl.
  - constructor; [discriminate | constructor].
  - destruct (String.eqb k e); constructor; simpl in *; try assumption.
    destruct l; discriminate.
Qed.

Lemma total_push (e file : string) (groups : list (string * list string)) :
  length (concat (map snd (push_file e file groups)))
  = S (length (concat (map snd groups))).
Proof.
  induction groups as [|[k l] groups IH]; simpl; [reflexivity|].
  destruct (String.eqb k e); simpl; rewrite !List.length_app; simpl; [lia | rewrite IH; lia].
Qed.

Lemma filed_under_In (ext : string) (groups : list (string * list string)) :
  NoDup (map fst groups) ->
  forall l, In (ext, l) groups <-> In ext (map fst groups) /\ filed_under ext groups = l.
Proof.
  induction groups as [|[k l0] groups IH]; simpl; intros Hnd l; [tauto|].
  apply NoDup_cons in Hnd as [Hk Hnd].
  destruct (String.eqb_spec k ext) as [->|Hne].
  - split.
    + intros [[= <-] | Hin]; [tauto|].
      exfalso. apply Hk. apply list_elem_of_In, in_map_iff. exists (ext, l). auto.
    + intros [_ <-]. left. reflexivity.
  - rewrite (IH Hnd l). split.
    + intros [[= E _] | H]; [contradiction | tauto].
    + intros [[E | H] H2]; [contradiction | tauto].
Qed.

Lemma filter_snoc {A} (P : A -> Prop) `{forall x, Decision (P x)} (l : list A) (x : A) :
  filter P (l ++ [x])%list = (filter P l ++ if bool_decide (P x) then [x] else [])%list.
Proof.
  rewrite filter_app. f_equal. case_bool_decide.
  - rewrite filter_cons_True by assumption. reflexivity.
  - rewrite filter_cons_False by assumption. reflexivity.
Qed.

Lemma filesByType_spec (files : list string) :
  let groups := filesByType files in
  NoDup (map fst groups)
  /\ Forall (fun g => snd g <> []) groups
  /\ (forall ext, filed_under ext groups = filter (fun f => ext_of f = ext) files)
  /\ (forall ext, In ext (map fst groups) <-> In ext (map ext_of files))
  /\ length (concat (map snd groups)) = length files.
Proof.
  cbv zeta. induction files as [|file files IH] using rev_ind.
  - repeat split; try constructor; simpl; tauto.
  - destruct IH as (Hnd & Hne & Hfiled & Hkeys & Htotal).
    rewrite filesByType_snoc. split; [|split; [|split; [|split]]].
    + rewrite keys_push.
      destruct (Js.arr_includes _ _) eqn:Hin; [rewrite app_nil_r; exact Hnd|].
      apply NoDup_app. split; [exact Hnd|]. split; [|apply NoDup_singleton].
      intros x Hx Hx'. apply list_elem_of_In in Hx, Hx'. simpl in Hx'.
      destruct Hx' as [<- | []]. apply arr_includes_In in Hx. congruence.
    + apply groups_push. exact Hne.
    + intros ext. rewrite filed_under_push, Hfiled, filter_snoc. f_equal.
      destruct (String.eqb_spec (ext_of file) ext).
      * rewrite bool_decide_true by assumption. reflexivity.
      * rewrite bool_decide_false by assumption. reflexivity.
    + intros ext. rewrite keys_push, map_app, !in_app_iff, Hkeys. simpl.
      destruct (Js.arr_includes _ _) eqn:Hin; simpl; [|tauto].
      split; [tauto|]. intros [H | [<- | []]]; [tauto|]. left. apply Hkeys.
      apply arr_includes_In. exact Hin.
    + rewrite total_push, Htotal, List.length_app. simpl. lia.
Qed.

Lemma scan_step_keeps (i : Z) (c : ascii) (st : Path.ExtScan) :
  Path.startDot st <> -1 -> Path.end_ st <> -1 ->
  Path.startDot (Path.scan_step i c st) = Path.startDot st
  /\ Path.end_ (Path.scan_step i c st) = Path.end_ st.
Proof.
  intros Hd He. unfold Path.scan_step.
  replace (Path.end_ st =? -1) with false by (symmetry; apply Z.eqb_neq; exact He).
  replace (Path.startDot st =? -1) with false by (symmetry; apply Z.eqb_neq; exact Hd).
  destruct (Path.stopped st); [auto|].
  destruct (Ascii.eqb c Path.slash); [destruct (negb (Path.matchedSlash st)); auto|].
  destruct (Ascii.eqb c Path.dot); [|auto].
  cbn. destruct (negb (Path.preDotState st =? 1)); auto.
Qed.

Lemma scan_keeps (s : string) : forall (i : Z) (st : Path.ExtScan),
  Path.startDot st <> -1 -> Path.end_ st <> -1 ->
  Path.startDot (Path.scan s i st) = Path.startDot st
  /\ Path.end_ (Path.scan s i st) = Path.end_ st.
Proof.
  induction s as [|c s IH]; intros i st Hd He; [auto|]. simpl.
  destruct (scan_step_keeps i c st Hd He) as [H1 H2].
  destruct (IH (i - 1) (Path.scan_step i c st)) as [H3 H4]; try congruence.
  split; congruence.
Qed.

Lemma scan_of_dotted (stem c t : string) (x : ascii) (N : Z) :
  c = String x t ->
  Js.has_char "/" c = false -> Js.has_char "." c = false ->
  N = Z.of_nat (String.length stem + 1 + String.length c) ->
  let st := Path.scan (c +:+ String "." (String.rev stem)) (N - 1) Path.scan0 in
  Path.startDot st = Z.of_nat (String.length stem) /\ Path.end_ st = N.
Proof.
  intros -> Hc Hd HN. cbv zeta.
  simpl in Hc, Hd. apply orb_false_iff in Hc as [Hx Hts]. apply orb_false_iff in Hd as [Hx' Htd].
  rewrite app_cons. simpl Path.scan.
  assert (Hfirst : Path.scan_step (N - 1) x Path.scan0
                   = {| Path.startDot := -1; Path.startPart := 0; Path.end_ := N;
                        Path.matchedSlash := false; Path.preDotState := 0;
                        Path.stopped := false |}).
  { unfold Path.scan_step, Path.scan0, Path.slash, Path.dot. cbn. rewrite Hx, Hx'. cbn.
    f_equal. lia. }
  rewrite Hfirst, scan_app, scan_extension by (try assumption; simpl in HN; lia).
  simpl Path.scan.
  set (i := N - 1 - 1 - Z.of_nat (String.length t)).
  assert (Hi : i = Z.of_nat (String.length stem)) by (unfold i; simpl in HN; lia).
  assert (Hdot : Path.scan_step i "."
                   {| Path.startDot := -1; Path.startPart := 0; Path.end_ := N;
                      Path.matchedSlash := false; Path.preDotState := 0;
                      Path.stopped := false |}
                 = {| Path.startDot := i; Path.startPart := 0; Path.end_ := N;
                      Path.matchedSlash := false; Path.preDotState := 0;
                      Path.stopped := false |}).
  { unfold Path.scan_step. cbn.
    replace (N =? -1) with false by (symmetry; apply Z.eqb_neq; lia). reflexivity. }
  rewrite Hdot.
  match goal with |- context [Path.scan (String.rev stem) ?j ?st] =>
    destruct (scan_keeps (String.rev stem) j st) as (H1 & H2)
  end; try (cbn; lia).
  cbn [Path.startDot Path.end_] in H1, H2. rewrite H1, H2. auto.
Qed.

Lemma extname_of_dotted (stem ext : string) :
  ext <> "" -> Js.has_char "/" ext = false -> Js.has_char "." ext = false ->
  Path.extname (stem +:+ "." +:+ ext) = ""
  \/ Path.extname (stem +:+ "." +:+ ext) = "." +:+ ext.
Proof.
  intros Hext He Hd.
  destruct (rev_not_empty ext Hext) as (x & t & Hrev).
  assert (Hrevp : String.rev (stem +:+ "." +:+ ext)
                  = String x t +:+ String "." (String.rev stem)).
  { rewrite !rev_app_distr, Hrev, app_assoc_s. reflexivity. }
  assert (Hlen : String.length (stem +:+ "." +:+ ext)
                 = (String.length stem + 1 + String.length (String x t))%nat).
  { rewrite !length_app, <- Hrev, rev_length. simpl. lia. }
  unfold Path.extname. rewrite Hrevp.
  destruct (scan_of_dotted stem (String x t) t x (Z.of_nat (String.length (stem +:+ "." +:+ ext))))
    as (H1 & H2); try reflexivity.
  { rewrite <- Hrev, has_char_rev. exact He. }
  { rewrite <- Hrev, has_char_rev. exact Hd. }
  { rewrite Hlen. reflexivity. }
  cbv zeta in H1, H2. set (st := Path.scan _ _ _) in *.
  match goal with |- context [if ?b then _ else _] => destruct b end; [left; reflexivity|].
  right. rewrite H1, H2, Nat2Z.id, drop_app. apply take_all.
  rewrite Hlen, length_app, <- Hrev, rev_length. simpl. lia.
Qed.

Lemma ext_of_listed (file : string) :
  is_image_name file = true -> ext_of file = "" \/ In (ext_of file) supportedFormats.
Proof.
  intros H. apply is_image_name_spec in H as (stem & ext & -> & Hin).
  destruct (supported_extension_shape ext Hin) as (Hne & Hdot).
  assert (Hs : Js.has_char "/" ext = false).
  { rewrite <- (proj1 (has_char_lower ext)).
    simpl in Hin. decompose [or] Hin; try contradiction;
      match goal with E : _ = Js.toLowerCase ext |- _ => rewrite <- E end; reflexivity. }
  unfold ext_of. destruct (extname_of_dotted stem ext Hne Hs Hdot) as [-> | ->].
  - left. reflexivity.
  - right. exact Hin.
Qed.

Lemma filter_not_nil {A} (P : A -> Prop) `{forall x, Decision (P x)} (l : list A) :
  filter P l <> [] <-> exists x, In x l /\ P x.
Proof.
  split.
  - intros Hne. destruct (filter P l) as [|x t] eqn:E; [contradiction|].
    assert (Hx : x ∈ filter P l) by (rewrite E; left).
    apply list_elem_of_filter in Hx as [HP Hx]. exists x. split; [apply list_elem_of_In|]; auto.
  - intros (x & Hx & HP) E.
    assert (Hin : x ∈ filter P l) by (apply list_elem_of_filter; split; [|apply list_elem_of_In]; auto).
    rewrite E in Hin. inversion Hin.
Qed.

(** X22.  The grouping loop of [list_images]: the keys are distinct;
    the group of a key holds exactly the files with that extension, in
    their order, and no group is empty; the group sizes add up to the
    number of files; and for listed names every key is a supported
    format or the empty string. *)
Theorem stored_images_are_grouped_by_extension (files : list string) :
  let groups := filesByType files in
  NoDup (map fst groups)
  /\ (forall ext l,
        In (ext, l) groups <-> l <> [] /\ l = filter (fun f => ext_of f = ext) files)
  /\ length (concat (map snd groups)) = length files
  /\ ((forall f, In f files -> is_image_name f = true) ->
      forall ext, In ext (map fst groups) -> ext = "" \/ In ext supportedFormats).
Proof.
  cbv zeta. destruct (filesByType_spec files) as (Hnd & Hne & Hfiled & Hkeys & Htotal).
  split; [exact Hnd|]. split; [|split; [exact Htotal|]].
  - intros ext l. rewrite (filed_under_In ext _ Hnd l), Hfiled, Hkeys, in_map_iff. split.
    + intros [(f & Hf & Hin) <-]. split; [|reflexivity].
      apply filter_not_nil. exists f. auto.
    + intros [Hl ->]. split; [|reflexivity].
      apply filter_not_nil in Hl as (f & Hin & Hf). exists f. auto.
  - intros Himg ext Hin. apply Hkeys, in_map_iff in Hin as (f & <- & Hf).
    apply ext_of_listed, Himg, Hf.
Qed.

Lemma sections_fold (groups : list (string * list string)) : forall text : string,
  fold_left (fun text group => text +:+ section_text group) groups text
  = text +:+ fold_right (fun group rest => section_text group +:+ rest) "" groups.
Proof.
  induction groups as [|g groups IH]; intros text; simpl.
  - rewrite app_empty_r. reflexivity.
  - rewrite IH, app_assoc_s. reflexivity.
Qed.

Lemma lastn_length {A} (n : nat) (l : list A) : length (lastn n l) = Nat.min n (length l).
Proof. unfold lastn. rewrite length_skipn. lia. Qed.

Lemma list_images_run (env : Env) (w : World) :
  exists r w',
    list_images env w = (Ok r, w') /\ files w' = files w
    /\ match readdir_result env with
       | Ok names =>
           let images := filter (fun f => is_image_name f = true) names in
           isError r = false
           /\ (images = [] -> r = no_images)
           /\ (images <> [] ->
               content r =
               [ ("📁 Stored images:" +:+ Js.nl +:+ Js.nl)
                   +:+ fold_right (fun group rest => section_text group +:+ rest) ""
                         (filesByType images)
                   +:+ "Total: " +:+ pretty (length images) +:+ " file(s)";
                 Js.nl +:+ "Recent images:" +:+ Js.nl
                   +:+ Js.join Js.nl
                         (map (fun f => "• " +:+ "file://" +:+ Path.join (STORAGE_DIR env) f)
                            (lastn 5 images)) ])
       | Throw e =>
           if bool_decide (code_of e = Some "ENOENT") then r = no_images
           else r = {| content := [ "Error: Error listing images: "
                                      +:+ (if is_Error e then message_of e
                                           else "Unknown error") ];
                       isError := true |}
       end.
Proof.
  unfold list_images, try_catch, bind. rewrite listStoredImages_run.
  destruct (readdir_result env) as [names|e].
  - destruct (filter (fun f => is_image_name f = true) names) as [|f rest].
    + eexists _, _. split; [reflexivity|]. split; [reflexivity|].
      cbv zeta. repeat split. intros H. contradiction.
    + eexists _, _. split; [reflexivity|]. split; [reflexivity|].
      cbv zeta. split; [reflexivity|].
      split; [discriminate|]. intros _. cbn [content]. rewrite sections_fold, map_map.
      destruct (lastn 5 (f :: rest)) as [|u us] eqn:El.
      { exfalso. pose proof (lastn_length 5 (f :: rest)) as Hl. rewrite El in Hl.
        simpl in Hl. lia. }
      cbn [map]. rewrite !app_assoc_s. reflexivity.
  - case_bool_decide.
    + eexists _, _. split; [reflexivity|]. split; reflexivity.
    + rewrite errorResponse_eq. eexists _, _. split; [reflexivity|]. split; reflexivity.
Qed.

Lemma list_images_runs (env : Env) (w : World) :
  exists r w', list_images env w = (Ok r, w').
Proof.
  destruct (list_images_run env w) as (r & w' & H & _). exists r, w'. exact H.
Qed.

(** X23.  [list_images] never rejects and writes no file.  With no
    stored image (also when the directory is missing) it answers
    "No stored images found ..."; with images it answers the header,
    one section per group, the total, and always a second entry with
    the URLs of the last five images at most; any other failure of
    [readdir] is answered as a Storage failure "Error listing
    images: ...". *)
Theorem list_images_report (env : Env) (w : World) :
  exists r w',
    list_images env w = (Ok r, w') /\ files w' = files w
    /\ match readdir_result env with
       | Ok names =>
           let images := filter (fun f => is_image_name f = true) names in
           isError r = false
           /\ (images = [] -> r = no_images)
           /\ (images <> [] ->
               content r =
               [ ("📁 Stored images:" +:+ Js.nl +:+ Js.nl)
                   +:+ fold_right (fun group rest => section_text group +:+ rest) ""
                         (filesByType images)
                   +:+ "Total: " +:+ pretty (length images) +:+ " file(s)";
                 Js.nl +:+ "Recent images:" +:+ Js.nl
                   +:+ Js.join Js.nl
                         (map (fun f => "• " +:+ "file://" +:+ Path.join (STORAGE_DIR env) f)
                            (lastn 5 images)) ]
               /\ length (lastn 5 images) = Nat.min 5 (length images))
       | Throw e =>
           if bool_decide (code_of e = Some "ENOENT") then r = no_images
           else r = {| content := [ "Error: Error listing images: "
                                      +:+ (if is_Error e then message_of e
                                           else "Unknown error") ];
                       isError := true |}
       end.
Proof.
  destruct (list_images_run env w) as (r & w' & H1 & H2 & H3).
  exists r, w'. split; [exact H1|]. split; [exact H2|].
  destruct (readdir_result env) as [names|e]; [|exact H3].
  cbv zeta in *. destruct H3 as (Ha & Hb & Hc). split; [exact Ha|]. split; [exact Hb|].
  intros Hne. split; [exact (Hc Hne) | apply lastn_length].
Qed.

(** *** A successful generation *)



(** *** The tool-call handler *)

(** X25.  The tool-call handler never rejects: every call, whatever
    the tool name and arguments, returns a response.  When the storage
    directory cannot be created the answer is the Storage failure of
    the prologue and no tool runs; an unknown tool name is answered
    with the Validation failure "Unknown tool: <name>". *)
Theorem tool_calls_are_always_answered (env : Env) (name : string) (args : GenerateArgs)
    (filename : option string) (w : World) :
  exists r w',
    handleCallTool env name args filename w = (Ok r, w')
    /\ (forall e, mkdir_result env (STORAGE_DIR env) = Some e ->
        (Ok r, w')
        = errorResponse
            (failure STORAGE_ERROR
               ("Failed to ensure storage directory: "
                  +:+ "MCP error -32603: Failed to create storage directory: "
                  +:+ message_of e))
            (emit (EConsole ErrorLevel
                     ("Failed to create storage directory: " +:+ message_of e))
               (emit (EMkdir (STORAGE_DIR env)) w)))
    /\ (mkdir_result env (STORAGE_DIR env) = None ->
        ~ In name ["generate_image"; "list_images"; "view_image"] ->
        (Ok r, w')
        = errorResponse (failure VALIDATION_ERROR ("Unknown tool: " +:+ name))
            (emit (EMkdir (STORAGE_DIR env)) w)).
Proof.
  unfold handleCallTool.
  destruct (mkdir_result env (STORAGE_DIR env)) as [e|] eqn:Hm.
  - eexists _, _. split; [|split].
    + unfold callTool, bind, attempt, ensureStorageDir, try_catch, mkdir, bind, emitM,
        of_result, console, emitM, throw.
      rewrite Hm, errorResponse_eq. reflexivity.
    + intros e' [= <-]. rewrite errorResponse_eq. reflexivity.
    + discriminate.
  - rewrite (callTool_enters_case env _ w Hm).
    set (w1 := emit (EMkdir (STORAGE_DIR env)) w).
    destruct (String.eqb_spec name "generate_image") as [->|H1].
    { destruct (generate_image_runs env args w1) as (r & w' & Hr).
      exists r, w'. split; [exact Hr|]. split; [discriminate|].
      intros _ H. exfalso. apply H. simpl. tauto. }
    destruct (String.eqb_spec name "list_images") as [->|H2].
    { destruct (list_images_runs env w1) as (r & w' & Hr).
      exists r, w'. split; [exact Hr|]. split; [discriminate|].
      intros _ H. exfalso. apply H. simpl. tauto. }
    destruct (String.eqb_spec name "view_image") as [->|H3].
    { destruct (view_image_run env filename w1) as (r & w' & Hr & _).
      exists r, w'. split; [exact Hr|]. split; [discriminate|].
      intros _ H. exfalso. apply H. simpl. tauto. }
    rewrite errorResponse_eq. eexists _, _. split; [reflexivity|]. split; [discriminate|].
    intros _ _. reflexivity.
Qed.

(** *** The properties at sample requests *)

Lemma model_label_witness :
  fst (validate (with_model a_landscape "5000:FLUX1.1") world0)
  = fst (validate (with_model a_landscape "5000") world0).
Proof.
  apply (model_label_is_ignored a_landscape "5000" "FLUX1.1" world0);
    [discriminate | reflexivity].
Defined.

Lemma absent_format_witness :
  exists w',
    validate (request "A landscape" "8000" None None None) world0
    = (Ok (inr {| v_prompt := "A landscape"; v_model := "8000"; v_format := "svg";
                  v_count := 1 |}), w').
Proof.
  apply (absent_format_follows_model (request "A landscape" "8000" None None None)
           "A landscape" world0).
  - reflexivity.
  - vm_compute. discriminate.
  - vm_compute. split; discriminate.
  - vm_compute. tauto.
  - reflexivity.
Defined.

Lemma validated_request_witness :
  saveImage_rejects "5000" (Js.toLowerCase "png") = None.
Proof.
  apply (validated_request_passes_saveImage_checks a_landscape
           {| v_prompt := "A landscape"; v_model := "5000"; v_format := "png"; v_count := 1 |}
           world0 world0).
  reflexivity.
Defined.

Lemma fallback_witness :
  fst (destination env_no_site "A logo" "5000" "png" None (Some "/site") (Some "react") None
         world0)
  = Ok "/srv/everart/images/2024-05-01T10-20-30-123Z_5000_a_logo.png".
Proof.
  rewrite (unusable_project_directory_falls_back_to_storage env_no_site "A logo" "5000" "png"
             "/site" None (Some "react") None (denied "/site/public/images") world0);
    [reflexivity | reflexivity | discriminate | reflexivity].
Defined.


Lemma retry_waits_witness :
  sleeps (snd (submit_loop env_down 3 3 "5000" "A landscape" 1 0 world0))
  = [Some 1000; Some 2000]
  /\ sleeps (snd (fetch_loop env_down 3 3 "https://cdn/img" 0 None world0))
     = [Some 1000; Some 2000]
  /\ sleeps (snd (fetch_loop env_jammed 3 3 "https://cdn/img" 0 None world0))
     = [Some 2000; Some 2000; Some 2000].
Proof.
  destruct (retry_waits_follow_the_schedule env_down 3 3 "5000" "A landscape"
              "https://cdn/img" 1 world0) as (H1 & H2).
  - lia.
  - intros k _. exact I.
  - intros k _. reflexivity.
  - destruct (retry_waits_follow_the_schedule env_jammed 3 3 "5000" "A landscape"
                "https://cdn/img" 1 world0) as (_ & H3).
    + lia.
    + intros k Hk. exact I.
    + intros k _. reflexivity.
    + split; [apply H1; left; reflexivity|].
      split; [apply H2; left; reflexivity | apply H3; left; reflexivity].
Defined.

Lemma rate_limited_download_witness :
  returns_failure NETWORK_ERROR (generate_image env_busy a_landscape world0)
  /\ fst (generate_image env_busy a_landscape world0)
     = Ok {| content := ["Error: Failed to download the generated image. Please check your internet connection and try again."];
             isError := true |}
  /\ fetches (snd (generate_image env_busy a_landscape world0)) = 3%nat.
Proof.
  edestruct (rate_limited_download_is_reported_as_network_error env_busy a_landscape)
    as (H1 & H2 & H3 & _).
  - reflexivity.
  - reflexivity.
  - reflexivity.
  - reflexivity.
  - reflexivity.
  - intros k _. eexists. split; reflexivity.
  - split; [exact H1|]. split; [exact H2 | exact H3].
Defined.

Lemma saveImage_witness :
  exists (k : nat) (r : Response) (content data : string),
    fetch_result env_fine k = Ok r /\ ok r = true /\ body r = Ok content
    /\ converted env_fine (Js.toLowerCase (default "svg" (Some "png"))) content = Some data
    /\ write_result env_fine "out/logo.png" data = WriteDone
    /\ files (snd explicit_run) !! "out/logo.png" = Some data.
Proof.
  apply (saveImage_returns_a_written_file env_fine "https://cdn/img" "A logo" "5000"
           (Some "png") (Some "out/logo.png") None None None world0 (snd explicit_run)
           "out/logo.png").
  reflexivity.
Defined.

Lemma listed_file_mime_witness :
  exists stem ext,
    "logo.PNG" = stem +:+ "." +:+ ext /\ In (Js.toLowerCase ext) supportedFormats
    /\ (stem <> "" ->
        mimeOfFile "logo.PNG" = getMimeType ext
        /\ mimeOfFile "logo.PNG" <> "application/octet-stream")
    /\ (stem = "" -> mimeOfFile "logo.PNG" = "application/octet-stream").
Proof. apply (listed_file_mime_type "logo.PNG"); reflexivity. Defined.

Lemma listed_resource_witness :
  fst (readResource env_gallery "everart-forge-mcp://images/logo.png" (snd gallery_listing))
  = Ok [ {| c_uri := "everart-forge-mcp://images/logo.png"; c_mimeType := "image/png";
            blob := "UE5H" |} ].
Proof.
  pose proof (listed_resource_reads_back env_gallery world_with_logo (snd gallery_listing)
                [resource_of "logo.png"; resource_of "sketch.SVG"] (resource_of "logo.png")
                "PNG") as H.
  specialize (H eq_refl (or_introl eq_refl) eq_refl eq_refl).
  exact (f_equal fst H).
Defined.

Lemma traversal_witness :
  fst (readResource env_fine "everart-forge-mcp://images/../secret.txt" world_with_secret)
  = Ok [ {| c_uri := "everart-forge-mcp://images/../secret.txt";
            c_mimeType := "application/octet-stream"; blob := "a2V5" |} ].
Proof.
  pose proof (readResource_is_not_confined_to_storage env_fine "/srv/everart" "images"
                "secret.txt" "key" world_with_secret) as H.
  assert (Hplain : forall s, s <> "" -> Js.has_char "/" s = false -> s <> "." -> s <> ".." ->
                             plain_name s) by (intros s H1 H2 H3 H4; repeat split; assumption).
  refine (f_equal fst (H eq_refl _ (Hplain "images" _ eq_refl _ _)
                         (Hplain "secret.txt" _ eq_refl _ _) eq_refl eq_refl)); discriminate.
Defined.

Lemma missing_file_witness :
  exists k msg,
    view_image env_gallery (Some "logo") world0
    = errorResponse (failure k msg)
        (emit (EReaddir "/srv/everart/images")
           (emit (EAccess "/srv/everart/images/logo") world0))
    /\ opened (snd (view_image env_gallery (Some "logo") world0)) = []
    /\ k = VALIDATION_ERROR
    /\ Js.startsWith msg "Image not found: logo" = true.
Proof.
  destruct (view_image_of_a_missing_file env_gallery "logo"
              (no_entry "access" "/srv/everart/images/logo") world0)
    as (k & msg & H1 & H2 & H3 & H4 & _).
  - discriminate.
  - reflexivity.
  - reflexivity.
  - exists k, msg. split; [exact H1|]. split; [exact H2|]. split; [exact H3 | exact H4].
Defined.

